(** * Resumable batch upscaling: work resolution, batching, progress
      monitoring and shutdown cleanup

    A shallow embedding of [upscale_robust_nas_progress_cached.py].

    Modelling conventions.
    - Python [str] values are Rocq strings of 8-bit characters; file names
      are taken to be ASCII, so [str.lower] only moves [A..Z] to [a..z].
    - Python [int] is [Z]; Python [float] is idealised as an exact rational
      [Q] (no rounding), Python [set] is a [gset], [None] is [option].
    - The file system is a finite map from directory path (the path string
      exactly as the program spells it) to the listing of that directory
      in enumeration order.  A listing entry carries its name and the
      result of [stat]: [Some size], or [None] when [stat] raises [OSError].
      The entries are files.  [os.remove] on an existing, stat-able file
      always succeeds; on a path that cannot be stat-ed it raises, as every
      other call on that path does.
    - An exception that nothing in [run_smart_upscaling] catches ends the
      run on the spot: the loops return the state they were in and a flag
      that tells so. *)

From Stdlib Require Import ZArith QArith Qabs Qpower Lia Lqa String Ascii List.
From stdpp Require Import base option list gmap sets strings sorting.

Local Open Scope Z_scope.

(** ** Configuration constants *)

Definition WORK_DIR : string := "D:/Video/Video_Rene_Zanelli".
Definition INPUT_DIRS : list string :=
  [ "INPUT_AI_video_rene_zanelli";
    "INPUT_AI_Zanelli_Ana_Miranda";
    "INPUT_AI_zanelli_2" ].
Definition BATCH_SIZE : nat := 500.
Definition NAS_BASE_DIR : string := "Z:/zanelli".
Definition EMA_ALPHA : Q := 0.3%Q.
Definition MIN_VALID_FILE_SIZE : Z := 50 * 1024.

(** ** Python string primitives *)

Module Py.

(** [str.lower] on ASCII. *)
Definition lower_char (c : ascii) : ascii :=
  let n := N_of_ascii c in
  if ((65 <=? n) && (n <=? 90))%N then ascii_of_N (n + 32) else c.

Fixpoint lower (s : string) : string :=
  match s with
  | EmptyString => EmptyString
  | String c s' => String (lower_char c) (lower s')
  end.

(** [s.endswith(suffix)]: some tail of [s] is [suffix]. *)
Fixpoint endswith (s suffix : string) : bool :=
  String.eqb s suffix ||
  match s with
  | EmptyString => false
  | String _ s' => endswith s' suffix
  end.

(** [s.endswith((a, b, ...))]. *)
Definition endswith_any (s : string) (suffixes : list string) : bool :=
  existsb (endswith s) suffixes.

(** [s.rfind(c)] for a one-character needle: the highest index holding
    [c], or [-1]. [i] is the index of the head of [s]. *)
Fixpoint rfind_from (i : Z) (s : string) (c : ascii) : Z :=
  match s with
  | EmptyString => -1
  | String a s' =>
      let r := rfind_from (i + 1) s' c in
      if 0 <=? r then r else if Ascii.eqb a c then i else -1
  end.
Definition rfind (s : string) (c : ascii) : Z := rfind_from 0 s c.

(** Slices [p[:k]] and [p[k:]] for [0 <= k]. *)
Definition slice_to (p : string) (k : Z) : string :=
  substring 0 (Z.to_nat k) p.
Definition slice_from (p : string) (k : Z) : string :=
  substring (Z.to_nat k) (String.length p - Z.to_nat k) p.

(** The [while filenameIndex < dotIndex] loop of [genericpath._splitext];
    [n] is [dotIndex - filenameIndex], the number of iterations left. *)
Fixpoint _splitext_loop (n : nat) (p : string) (extsep : ascii)
    (filenameIndex dotIndex : Z) : string * string :=
  match n with
  | O => (p, EmptyString)
  | S n' =>
      match String.get (Z.to_nat filenameIndex) p with
      | Some c =>
          if negb (Ascii.eqb c extsep)
          then (slice_to p dotIndex, slice_from p dotIndex)
          else _splitext_loop n' p extsep (filenameIndex + 1) dotIndex
      | None => (slice_to p dotIndex, slice_from p dotIndex)
      end
  end.

(** [genericpath._splitext(p, sep, altsep, extsep)]. *)
Definition _splitext (p : string) (sep : ascii) (altsep : option ascii)
    (extsep : ascii) : string * string :=
  let sepIndex := rfind p sep in
  let sepIndex :=
    match altsep with
    | Some a => Z.max sepIndex (rfind p a)
    | None => sepIndex
    end in
  let dotIndex := rfind p extsep in
  if sepIndex <? dotIndex
  then _splitext_loop (Z.to_nat (dotIndex - (sepIndex + 1))) p extsep
         (sepIndex + 1) dotIndex
  else (p, EmptyString).

(** [os.path.splitext] as [ntpath] defines it (the program's paths are
    Windows paths): separators backslash and slash, extension dot. *)
Definition splitext (p : string) : string * string :=
  _splitext p "\"%char (Some "/"%char) "."%char.

(** [s.replace(old, new)] for a non-empty [old]: non-overlapping matches,
    left to right. [skip] counts the characters of the current match
    still to be dropped. *)
Fixpoint replace_go (old new : string) (skip : nat) (s : string) : string :=
  match s with
  | EmptyString => EmptyString
  | String c s' =>
      match skip with
      | S k => replace_go old new k s'
      | O =>
          if String.prefix old s
          then new +:+ replace_go old new (String.length old - 1) s'
          else String c (replace_go old new O s')
      end
  end.
Definition replace (s old new : string) : string := replace_go old new O s.

(** [os.path.join(a, b)] for a relative, separator-free [b] and an [a]
    that does not end in a separator (the only way the program calls it). *)
Definition join (a b : string) : string := a +:+ "\" +:+ b.

(** [range(0, stop, step)] for [step >= 1]; the range has at most [stop]
    elements, which is the [fuel] it is given. *)
Fixpoint range_go (fuel : nat) (i stop step : nat) : list nat :=
  match fuel with
  | O => []
  | S fuel' =>
      if (i <? stop)%nat then i :: range_go fuel' (i + step)%nat stop step
      else []
  end.
Definition range (stop step : nat) : list nat := range_go stop O stop step.

(** List slice [l[i:j]]. *)
Definition slice {A} (l : list A) (i j : nat) : list A :=
  take (j - i) (drop i l).

(** [sorted] on strings: ascending code-point order. *)
Definition sorted (l : list string) : list string := merge_sort String.le l.

End Py.

(** ** The file system *)

(** One [os.scandir] entry: [entry.name] and [entry.stat().st_size]
    ([None] when [stat] raises [OSError]: an entry the process lists but
    cannot reach, for which [os.path.exists] is [False] and [os.remove]
    raises as well). *)
Record DirEntry := { name : string; st_size : option Z }.

Abbreviation Listing := (list DirEntry).
Abbreviation FS := (gmap string (list DirEntry)).

(** Python truthiness of a path that may be [None] or empty. *)
Definition truthy (folder : option string) : bool :=
  match folder with
  | Some p => negb (String.eqb p "")
  | None => false
  end.

Module os.

(** [os.path.exists] on a directory path. *)
Definition path_exists (fs : FS) (p : string) : bool :=
  match fs !! p with Some _ => true | None => false end.

Definition scandir (fs : FS) (p : string) : Listing :=
  match fs !! p with Some l => l | None => [] end.

Definition listdir (fs : FS) (p : string) : list string :=
  map name (scandir fs p).

Definition has_name (n : string) (e : DirEntry) : bool :=
  String.eqb (name e) n.

(** [os.path.getsize(os.path.join(folder, n))]; [None] is [OSError]. *)
Definition getsize (fs : FS) (folder n : string) : option Z :=
  match List.find (has_name n) (scandir fs folder) with
  | Some e => st_size e
  | None => None
  end.

(** [os.path.exists(os.path.join(folder, n))]: [stat] succeeds. *)
Definition file_exists (fs : FS) (folder n : string) : bool :=
  match getsize fs folder n with Some _ => true | None => false end.

(** [os.remove(os.path.join(folder, n))]. *)
Definition remove (fs : FS) (folder n : string) : FS :=
  match fs !! folder with
  | Some l => <[folder := List.filter (fun e => negb (has_name n e)) l]> fs
  | None => fs
  end.

(** [os.remove(os.path.join(folder, n))] as a call that can raise: [None]
    is the exception, raised for a path that cannot be stat-ed. *)
Definition remove_or_raise (fs : FS) (folder n : string) : option FS :=
  if file_exists fs folder n then Some (remove fs folder n) else None.

(** [os.makedirs(p)] for a path that does not exist yet. *)
Definition makedirs (fs : FS) (p : string) : FS := <[p := []]> fs.

(** [os.link(src, dst)] / [shutil.copy2(src, dst)] of the file [n] of
    [src_folder] into [dst_folder]: the two are not told apart, the new
    entry has the size of the source.  [None] is the exception either call
    raises when the source cannot be read or the destination directory is
    not there.  The program removes a [dst] it can see before it calls
    them; an entry of that name that cannot be stat-ed stays in the
    listing and is taken not to stand in the way of the copy. *)
Definition link (fs : FS) (src_folder dst_folder n : string) : option FS :=
  match getsize fs src_folder n, fs !! dst_folder with
  | Some size, Some l =>
      Some (<[dst_folder := l ++ [ {| name := n; st_size := Some size |} ]]> fs)
  | _, _ => None
  end.

End os.

(** ** Shared monitor state *)

Record MonitorState := {
  _running : bool;
  _current_folder : option string;
  _total_frames : Z;
  _output_folder_local : option string;
  _output_folder_nas : option string;
  _nas_cache_basenames : option (gset string);
  _current_batch : list string
}.

Definition MonitorState_init : MonitorState :=
  {| _running := true; _current_folder := None; _total_frames := 0;
     _output_folder_local := None; _output_folder_nas := None;
     _nas_cache_basenames := None; _current_batch := [] |}.

Definition set_running (value : bool) (s : MonitorState) : MonitorState :=
  {| _running := value; _current_folder := _current_folder s;
     _total_frames := _total_frames s;
     _output_folder_local := _output_folder_local s;
     _output_folder_nas := _output_folder_nas s;
     _nas_cache_basenames := _nas_cache_basenames s;
     _current_batch := _current_batch s |}.

Definition update_folder (folder_name : string)
    (output_folder_local output_folder_nas : option string) (total_frames : Z)
    (s : MonitorState) : MonitorState :=
  {| _running := _running s; _current_folder := Some folder_name;
     _total_frames := total_frames;
     _output_folder_local := output_folder_local;
     _output_folder_nas := output_folder_nas;
     _nas_cache_basenames := _nas_cache_basenames s;
     _current_batch := [] |}.

Definition set_nas_cache (basenames_set : option (gset string))
    (s : MonitorState) : MonitorState :=
  {| _running := _running s; _current_folder := _current_folder s;
     _total_frames := _total_frames s;
     _output_folder_local := _output_folder_local s;
     _output_folder_nas := _output_folder_nas s;
     _nas_cache_basenames := basenames_set;
     _current_batch := _current_batch s |}.

Definition set_current_batch (batch_files : list string)
    (s : MonitorState) : MonitorState :=
  {| _running := _running s; _current_folder := _current_folder s;
     _total_frames := _total_frames s;
     _output_folder_local := _output_folder_local s;
     _output_folder_nas := _output_folder_nas s;
     _nas_cache_basenames := _nas_cache_basenames s;
     _current_batch := batch_files |}.

Definition clear_current_batch (s : MonitorState) : MonitorState :=
  set_current_batch [] s.

(** ** Valid outputs and outstanding work *)

(** The body of the scan loop of [get_valid_output_basenames]. *)
Definition add_if_valid (valid : gset string) (entry : DirEntry) : gset string :=
  if Py.endswith_any (Py.lower (name entry)) [".jpg"; ".png"] then
    match st_size entry with
    | Some size =>
        if MIN_VALID_FILE_SIZE <=? size
        then valid ∪ {[ (Py.splitext (name entry)).1 +:+ ".png" ]}
        else valid
    | None => valid
    end
  else valid.

Definition get_valid_output_basenames (fs : FS) (folder : option string)
    : gset string :=
  match folder with
  | Some p =>
      if negb (truthy folder) || negb (os.path_exists fs p) then ∅
      else foldl add_if_valid ∅ (os.scandir fs p)
  | None => ∅
  end.

Definition count_if_valid (count : Z) (entry : DirEntry) : Z :=
  if Py.endswith_any (Py.lower (name entry)) [".jpg"; ".png"] then
    match st_size entry with
    | Some size => if MIN_VALID_FILE_SIZE <=? size then count + 1 else count
    | None => count
    end
  else count.

Definition count_valid_output_files (fs : FS) (folder : option string) : Z :=
  match folder with
  | Some p =>
      if negb (truthy folder) || negb (os.path_exists fs p) then 0
      else foldl count_if_valid 0 (os.scandir fs p)
  | None => 0
  end.

Definition count_valid_output_files_union (fs : FS)
    (local_folder nas_folder : option string)
    (nas_cache_basenames : option (gset string)) : Z :=
  let s : gset string := ∅ in
  let s := s ∪ get_valid_output_basenames fs local_folder in
  let s :=
    if truthy nas_folder then
      match nas_cache_basenames with
      | Some cache => s ∪ cache
      | None => s ∪ get_valid_output_basenames fs nas_folder
      end
    else s in
  Z.of_nat (size s).

Definition get_missing_frames (fs : FS) (src_folder : string)
    (local_folder nas_folder : option string)
    (nas_cache_basenames : option (gset string)) : list string :=
  if negb (os.path_exists fs src_folder) then []
  else
    let src_files : gset string :=
      list_to_set
        (List.filter (fun f => Py.endswith (Py.lower f) ".png")
           (os.listdir fs src_folder)) in
    let completed : gset string := ∅ in
    let completed := completed ∪ get_valid_output_basenames fs local_folder in
    let completed :=
      if truthy nas_folder then
        completed ∪
          match nas_cache_basenames with
          | Some cache => cache
          | None => get_valid_output_basenames fs nas_folder
          end
      else completed in
    let missing := src_files ∖ completed in
    Py.sorted (elements missing).

(** ** Progress monitor *)

Record ProgressDaemon := {
  _avg_speed : option Q;
  _last_check_time : Q;
  _last_count : Z
}.

Definition reset_for_new_folder (initial_count : Z) (now : Q)
    (d : ProgressDaemon) : ProgressDaemon :=
  {| _avg_speed := None; _last_check_time := now; _last_count := initial_count |}.

(** What one tick prints. *)
Record Report := {
  current_count : Z;
  total : Z;
  remaining : Z;
  percentage : Q;
  avg_speed : Q;
  eta_seconds : option Q
}.

Definition Qgtb (a b : Q) : bool := negb (Qle_bool a b).

(** The EMA step of [check_progress]. *)
Definition ema_update (avg : option Q) (instant_speed : Q) : Q :=
  match avg with
  | None => if Qgtb instant_speed 0 then instant_speed else 0.1%Q
  | Some a => (EMA_ALPHA * instant_speed + (1 - EMA_ALPHA) * a)%Q
  end.

(** [check_progress] at time [now]; [None] for a tick that returns
    without a report. *)
Definition check_progress (fs : FS) (state : MonitorState) (now : Q)
    (d : ProgressDaemon) : ProgressDaemon * option Report :=
  let total := _total_frames state in
  let local_folder := _output_folder_local state in
  let nas_folder := _output_folder_nas state in
  match local_folder with
  | None => (d, None)
  | Some p =>
    if negb (truthy local_folder) || negb (os.path_exists fs p) then (d, None)
    else
      let current_count :=
        count_valid_output_files_union fs local_folder nas_folder
          (_nas_cache_basenames state) in
      let time_delta := (now - _last_check_time d)%Q in
      let frame_delta := current_count - _last_count d in
      if Qle_bool time_delta 0 then (d, None)
      else
        let instant_speed := (inject_Z frame_delta / time_delta)%Q in
        let avg := ema_update (_avg_speed d) instant_speed in
        let remaining := total - current_count in
        let remaining := if remaining <? 0 then 0 else remaining in
        let percentage :=
          if 0 <? total
          then (inject_Z current_count / inject_Z total * 100)%Q
          else 0%Q in
        let eta_seconds :=
          if Qgtb avg 0.001%Q then Some (inject_Z remaining / avg)%Q
          else None in
        ({| _avg_speed := Some avg; _last_check_time := now;
            _last_count := current_count |},
         Some {| current_count := current_count; total := total;
                 remaining := remaining; percentage := percentage;
                 avg_speed := avg; eta_seconds := eta_seconds |})
  end.

(** A run of the monitor: one [(now, file system)] pair per tick, the
    shared state staying the same. *)
Fixpoint run_ticks (state : MonitorState) (d : ProgressDaemon)
    (ticks : list (Q * FS)) : ProgressDaemon :=
  match ticks with
  | [] => d
  | (now, fs) :: rest => run_ticks state (check_progress fs state now d).1 rest
  end.

(** ** Cleanup *)

(** The body of the [for ext in ['.png', '.jpg']] loop; the accumulator is
    the file system and the [removed] counter. *)
Definition cleanup_ext (output_folder basename : string)
    (acc : FS * nat) (ext : string) : FS * nat :=
  let output_path := basename +:+ ext in
  if os.file_exists acc.1 output_folder output_path then
    match os.getsize acc.1 output_folder output_path with
    | Some size =>
        if size <? MIN_VALID_FILE_SIZE
        then (os.remove acc.1 output_folder output_path, S acc.2)
        else acc
    | None => acc
    end
  else acc.

Definition cleanup_file (output_folder : string) (acc : FS * nat)
    (filename : string) : FS * nat :=
  let basename := (Py.splitext filename).1 in
  foldl (cleanup_ext output_folder basename) acc [".png"; ".jpg"].

(** [cleanup_incomplete_files]: the file system afterwards and the number
    of files removed. *)
Definition cleanup_incomplete_files (fs : FS) (output_folder : option string)
    (batch_files : list string) : FS * nat :=
  match output_folder with
  | Some p =>
      if negb (truthy output_folder) || negb (os.path_exists fs p) then (fs, O)
      else foldl (cleanup_file p) (fs, O) batch_files
  | None => (fs, O)
  end.

(** [cleanup_staging]: every listed name is removed inside
    [try ... except Exception: pass], so that an entry whose removal
    raises stays where it is. *)
Definition cleanup_staging (fs : FS) (staging_dir : string) : FS :=
  if os.path_exists fs staging_dir
  then
    foldl (fun fs f =>
             match os.remove_or_raise fs staging_dir f with
             | Some fs' => fs'
             | None => fs
             end)
          fs (os.listdir fs staging_dir)
  else fs.

Definition STAGING_DIR : string := Py.join WORK_DIR "_STAGING_HARDLINKS".

(** ** The pipeline and its environment *)

(** The external transform process as the program sees it. *)
Inductive Process :=
| Alive
| Terminated
| Exited (returncode : Z).

(** What one [subprocess.Popen] + [wait] does: [Raises] when the launch
    (or the wait) throws, otherwise the exit code; [written] is what the
    transform left in its output directory. *)
Inductive Outcome :=
| Raises
| Returns (returncode : Z).

Record Response := { outcome : Outcome; written : list DirEntry }.

(** The transform: from the number of earlier launches and the staged
    input to its response. *)
Abbreviation Esrgan := (nat -> list DirEntry -> Response).

(** Lines of the log that later properties refer to. *)
Inductive Event :=
| LogAnalyzing (folder : string)
| LogFolderComplete
| LogMissing (total_missing : nat)
| LogBatch (folder : string) (batch_num total_batches : nat) (batch : list string)
| LogReturnCode (returncode : Z)
| LogLaunchError
| LogFinished
| LogInterrupted
| LogVerifying (n : nat)
| LogShutdownDone.

Record World := {
  disk : FS;
  monitor_state : MonitorState;
  current_process : option Process;
  launches : nat;
  journal : list Event
}.

Definition with_disk (fs : FS) (w : World) : World :=
  {| disk := fs; monitor_state := monitor_state w;
     current_process := current_process w; launches := launches w;
     journal := journal w |}.
Definition with_state (f : MonitorState -> MonitorState) (w : World) : World :=
  {| disk := disk w; monitor_state := f (monitor_state w);
     current_process := current_process w; launches := launches w;
     journal := journal w |}.
Definition with_process (pr : option Process) (w : World) : World :=
  {| disk := disk w; monitor_state := monitor_state w;
     current_process := pr; launches := launches w; journal := journal w |}.
Definition launched (w : World) : World :=
  {| disk := disk w; monitor_state := monitor_state w;
     current_process := current_process w; launches := S (launches w);
     journal := journal w |}.
Definition log (e : Event) (w : World) : World :=
  {| disk := disk w; monitor_state := monitor_state w;
     current_process := current_process w; launches := launches w;
     journal := journal w ++ [e] |}.

Definition running (w : World) : bool := _running (monitor_state w).

Definition _nas_output_for_local_output (local_output_folder_name : string)
    : option string :=
  if String.eqb NAS_BASE_DIR "" then None
  else
    let nas_name := Py.replace local_output_folder_name "UPSCALED" "OUTPUT" in
    Some (Py.join NAS_BASE_DIR nas_name).

(** The transform writes [e] into [folder], replacing a file of that name. *)
Definition write_file (folder : string) (fs : FS) (e : DirEntry) : FS :=
  match fs !! folder with
  | Some l =>
      <[folder := List.filter (fun x => negb (os.has_name (name e) x)) l ++ [e]]> fs
  | None => fs
  end.

(** Staging of one file of the batch.  When [os.link] raises the program
    falls back on [shutil.copy2]; when that raises too the exception
    leaves [run_smart_upscaling], which the flag of the result tells. *)
Definition stage_file (input_folder staging_dir : string) (fs : FS)
    (filename : string) : FS * bool :=
  let fs :=
    if os.file_exists fs staging_dir filename
    then os.remove fs staging_dir filename else fs in
  match os.link fs input_folder staging_dir filename with
  | Some fs' => (fs', false)
  | None =>
      match os.link fs input_folder staging_dir filename with
      | Some fs' => (fs', false)
      | None => (fs, true)
      end
  end.

(** The [for filename in batch] loop that stages a batch; it ends at the
    first file whose staging raises. *)
Fixpoint stage_batch (input_folder staging_dir : string) (fs : FS)
    (batch : list string) : FS * bool :=
  match batch with
  | [] => (fs, false)
  | filename :: rest =>
      let staged := stage_file input_folder staging_dir fs filename in
      if staged.2 then staged
      else stage_batch input_folder staging_dir staged.1 rest
  end.

Definition unstage_file (staging_dir : string) (fs : FS) (filename : string)
    : FS :=
  if os.file_exists fs staging_dir filename
  then os.remove fs staging_dir filename else fs.

(** [graceful_shutdown], up to [sys.exit(0)]. *)
Definition graceful_shutdown (w : World) : World :=
  let w := log LogInterrupted w in
  let w := with_state (set_running false) w in
  let w :=
    match current_process w with
    | Some Alive => with_process (Some Terminated) w
    | _ => w
    end in
  let state := monitor_state w in
  let staging_dir := STAGING_DIR in
  let w := with_disk (cleanup_staging (disk w) staging_dir) w in
  let w :=
    match _current_batch state with
    | [] => w
    | _ :: _ =>
        let w := log (LogVerifying (length (_current_batch state))) w in
        with_disk
          (cleanup_incomplete_files (disk w) (_output_folder_local state)
             (_current_batch state)).1 w
    end in
  log LogShutdownDone w.

(** The batch loop of one folder; [indices] is what is left of
    [range(0, total_missing, BATCH_SIZE)]. Returning without recursing is
    [break], or, with the flag set, the exception of a failed staging on
    its way out of the program. *)
Fixpoint for_batches_or_raise (esrgan : Esrgan)
    (input_folder output_folder_local : string)
    (missing_files : list string) (indices : list nat) (w : World)
    : World * bool :=
  match indices with
  | [] => (w, false)
  | i :: rest =>
      if negb (running w) then (w, false)
      else
        let total_missing := length missing_files in
        let batch := Py.slice missing_files i (i + BATCH_SIZE) in
        let batch_num := (i / BATCH_SIZE + 1)%nat in
        let total_batches :=
          ((total_missing + BATCH_SIZE - 1) / BATCH_SIZE)%nat in
        let w := log (LogBatch input_folder batch_num total_batches batch) w in
        let w := with_state (set_current_batch batch) w in
        let staged := stage_batch input_folder STAGING_DIR (disk w) batch in
        let w := with_disk staged.1 w in
        if staged.2 then (w, true)
        else
          let r := esrgan (launches w) (os.scandir (disk w) STAGING_DIR) in
          let w := launched w in
          match outcome r with
          | Raises =>
              let w := log LogLaunchError w in
              (with_state (set_running false) w, false)
          | Returns returncode =>
              let w :=
                with_disk
                  (foldl (write_file output_folder_local) (disk w) (written r)) w in
              let w :=
                if negb (returncode =? 0) then log (LogReturnCode returncode) w
                else w in
              let w := with_process None w in
              let w := with_state clear_current_batch w in
              let w :=
                with_disk (foldl (unstage_file STAGING_DIR) (disk w) batch) w in
              for_batches_or_raise esrgan input_folder output_folder_local
                missing_files rest w
          end
  end.

(** The state the batch loop leaves. *)
Definition for_batches (esrgan : Esrgan) (input_folder output_folder_local : string)
    (missing_files : list string) (indices : list nat) (w : World) : World :=
  (for_batches_or_raise esrgan input_folder output_folder_local missing_files
     indices w).1.

(** The folder loop. The monitor thread's own counters
    ([reset_for_new_folder]) live outside [World]. *)
Fixpoint for_folders_or_raise (esrgan : Esrgan) (dirs : list string) (w : World)
    : World * bool :=
  match dirs with
  | [] => (w, false)
  | input_folder :: rest =>
      if negb (running w) then (w, false)
      else if negb (os.path_exists (disk w) input_folder)
      then for_folders_or_raise esrgan rest w
      else
        let output_folder_local := Py.replace input_folder "INPUT_AI" "UPSCALED" in
        let w :=
          if negb (os.path_exists (disk w) output_folder_local)
          then with_disk (os.makedirs (disk w) output_folder_local) w
          else w in
        let output_folder_nas := _nas_output_for_local_output output_folder_local in
        let total_src_files :=
          Z.of_nat (length (List.filter (fun f => Py.endswith (Py.lower f) ".png")
                              (os.listdir (disk w) input_folder))) in
        let w :=
          with_state (update_folder input_folder (Some output_folder_local)
                        output_folder_nas total_src_files) w in
        let nas_cache :=
          if truthy output_folder_nas
          then get_valid_output_basenames (disk w) output_folder_nas
          else ∅ in
        let w := with_state (set_nas_cache (Some nas_cache)) w in
        let w := log (LogAnalyzing input_folder) w in
        let missing_files :=
          get_missing_frames (disk w) input_folder (Some output_folder_local)
            output_folder_nas (Some nas_cache) in
        let total_missing := length missing_files in
        if (total_missing =? 0)%nat
        then for_folders_or_raise esrgan rest (log LogFolderComplete w)
        else
          let w := log (LogMissing total_missing) w in
          let ended :=
            for_batches_or_raise esrgan input_folder output_folder_local
              missing_files (Py.range total_missing BATCH_SIZE) w in
          if ended.2 then ended
          else for_folders_or_raise esrgan rest ended.1
  end.

(** The state the folder loop leaves. *)
Definition for_folders (esrgan : Esrgan) (dirs : list string) (w : World) : World :=
  (for_folders_or_raise esrgan dirs w).1.

(** [run_smart_upscaling]: the state in which it ends, and whether it ends
    by an exception; the last two lines are reached only when it does
    not. *)
Definition run_smart_upscaling_or_raise (esrgan : Esrgan) (w : World)
    : World * bool :=
  let staging_dir := STAGING_DIR in
  let w :=
    if negb (os.path_exists (disk w) staging_dir)
    then with_disk (os.makedirs (disk w) staging_dir) w
    else with_disk (cleanup_staging (disk w) staging_dir) w in
  let ended := for_folders_or_raise esrgan INPUT_DIRS w in
  if ended.2 then ended
  else
    let w := with_state (set_running false) ended.1 in
    (log LogFinished w, false).

(** The state in which the run ends. *)
Definition run_smart_upscaling (esrgan : Esrgan) (w : World) : World :=
  (run_smart_upscaling_or_raise esrgan w).1.

(** The list of batches the loop goes through. *)
Definition batches {A} (batch_size : nat) (missing_files : list A) : list (list A) :=
  map (fun i => Py.slice missing_files i (i + batch_size))
      (Py.range (length missing_files) batch_size).

Definition world0 (fs : FS) : World :=
  {| disk := fs; monitor_state := MonitorState_init; current_process := None;
     launches := O; journal := [] |}.

(** ** The specification's vocabulary *)

(** "Its extension is one of the two accepted (case-insensitive)". *)
Definition has_accepted_extension (n : string) : Prop :=
  exists stem ext : string,
    n = stem +:+ ext /\ (Py.lower ext = ".jpg" \/ Py.lower ext = ".png").

(** "A candidate output file is valid iff its extension is one of the two
    accepted and its size >= ValidityThreshold". *)
Definition valid_file (e : DirEntry) : Prop :=
  has_accepted_extension (name e) /\
  exists size : Z, st_size e = Some size /\ MIN_VALID_FILE_SIZE <= size.

(** The canonical name under which a valid output is recorded. *)
Definition normalized (n : string) : string := (Py.splitext n).1 +:+ ".png".

(** "sourceBasenames(sourceDir)": the names in the source directory with
    the source extension. *)
Definition source_basenames (fs : FS) (src_folder : string) : gset string :=
  list_to_set
    (List.filter (fun f => Py.endswith (Py.lower f) ".png") (os.listdir fs src_folder)).

(** "completed = validBasenames(primaryOut) U (secondaryCache if provided
    else validBasenames(secondaryOut))", word for word. *)
Definition completed_as_specified (fs : FS) (local_folder nas_folder : option string)
    (nas_cache_basenames : option (gset string)) : gset string :=
  get_valid_output_basenames fs local_folder ∪
  match nas_cache_basenames with
  | Some cache => cache
  | None => get_valid_output_basenames fs nas_folder
  end.

(** The completed set with the guard of the code: the secondary side
    counts only when a secondary location is given. *)
Definition completed_set (fs : FS) (local_folder nas_folder : option string)
    (nas_cache_basenames : option (gset string)) : gset string :=
  get_valid_output_basenames fs local_folder ∪
  (if truthy nas_folder then
     match nas_cache_basenames with
     | Some cache => cache
     | None => get_valid_output_basenames fs nas_folder
     end
   else ∅).

(** Two file systems with the same directories and the same files in
    each, possibly enumerated in another order. *)
Definition same_contents (fs1 fs2 : FS) : Prop :=
  forall p : string,
    match fs1 !! p, fs2 !! p with
    | Some l1, Some l2 => l1 ≡ₚ l2
    | None, None => True
    | _, _ => False
    end.

(** A file entry. *)
Definition file (n : string) (size : Z) : DirEntry :=
  {| name := n; st_size := Some size |}.

(** The characters of a string, in order. *)
Fixpoint chars (s : string) : list ascii :=
  match s with
  | EmptyString => []
  | String c s' => c :: chars s'
  end.

(** A file-name stem as a directory listing has it: no path separator,
    and not made of dots only. *)
Definition ordinary_stem (stem : string) : Prop :=
  ("/"%char ∉ chars stem) /\ ("\"%char ∉ chars stem) /\
  exists c, c ∈ chars stem /\ c <> "."%char.

(** The example of the specification: source [{a, b, c}], [a] valid in the
    primary location, [b] valid in the secondary one. *)
Definition fs_example : FS :=
  {[ "INPUT_AI_zanelli_2" := [file "c.png" 900; file "a.png" 900; file "b.png" 900];
     "UPSCALED_zanelli_2" := [file "a.png" 60000];
     "Z:/zanelli\OUTPUT_zanelli_2" := [file "b.jpg" 60000] ]}.

(** A cache handed over although no secondary location is configured. *)
Definition fs_no_secondary : FS :=
  {[ "INPUT_AI_zanelli_2" := [file "a.png" 900];
     "UPSCALED_zanelli_2" := [] ]}.

(** [fs_example] with every directory enumerated in another order, and a
    second valid output next to the first. *)
Definition fs_listed_1 : FS :=
  {[ "INPUT_AI_zanelli_2" := [file "c.png" 900; file "a.png" 900; file "b.png" 900];
     "UPSCALED_zanelli_2" := [file "a.png" 60000; file "x.jpg" 70000] ]}.
Definition fs_listed_2 : FS :=
  {[ "INPUT_AI_zanelli_2" := [file "b.png" 900; file "c.png" 900; file "a.png" 900];
     "UPSCALED_zanelli_2" := [file "x.jpg" 70000; file "a.png" 60000] ]}.

(** Two file systems that differ in the secondary directory only. *)
Definition fs_secondary_1 : FS :=
  {[ "INPUT_AI_zanelli_2" := [file "a.png" 900; file "b.png" 900];
     "UPSCALED_zanelli_2" := [file "a.png" 60000];
     "Z:/zanelli\OUTPUT_zanelli_2" := [file "b.png" 60000] ]}.
Definition fs_secondary_2 : FS :=
  {[ "INPUT_AI_zanelli_2" := [file "a.png" 900; file "b.png" 900];
     "UPSCALED_zanelli_2" := [file "a.png" 60000];
     "Z:/zanelli\OUTPUT_zanelli_2" := [] ]}.

(** The monitor's view of the folder [INPUT_AI_zanelli_2] with [total]
    source frames and the cache [cache] of the secondary location. *)
Definition monitoring (total : Z) (cache : option (gset string)) : MonitorState :=
  {| _running := true; _current_folder := Some "INPUT_AI_zanelli_2";
     _total_frames := total;
     _output_folder_local := Some "UPSCALED_zanelli_2";
     _output_folder_nas := Some "Z:/zanelli\OUTPUT_zanelli_2";
     _nas_cache_basenames := cache; _current_batch := [] |}.

(** [n] finished frames with distinct one-character stems. *)
Definition finished_frames (n : nat) : list DirEntry :=
  map (fun i => file (String (ascii_of_nat (48 + i)) ".png") 60000) (seq 0 n).

(** A primary directory holding [n] finished frames. *)
Definition fs_finished (n : nat) : FS :=
  {[ "UPSCALED_zanelli_2" := finished_frames n ]}.

(** Two of three finished frames have been moved by hand to the secondary
    location after its cache was taken. *)
Definition fs_moved : FS :=
  {[ "UPSCALED_zanelli_2" := finished_frames 1;
     "Z:/zanelli\OUTPUT_zanelli_2" :=
       [file "1.png" 60000; file "2.png" 60000] ]}.

(** Every tick of the run reports, and measures the instantaneous
    throughput [v]. *)
Fixpoint steady (v : Q) (state : MonitorState) (d : ProgressDaemon)
    (ticks : list (Q * FS)) : Prop :=
  match ticks with
  | [] => True
  | (now, fs) :: rest =>
      match check_progress fs state now d with
      | (d', Some r) =>
          (inject_Z (current_count r - _last_count d)
             / (now - _last_check_time d) == v)%Q
          /\ steady v state d' rest
      | (_, None) => False
      end
  end.

(** The distance of the prior average from [v]; nothing to make up when
    there is no prior average, the first tick then seeds with [v]. *)
Definition initial_distance (v : Q) (d : ProgressDaemon) : Q :=
  match _avg_speed d with
  | Some avg0 => Qabs (avg0 - v)
  | None => 0%Q
  end.

(** The output names [cleanup_incomplete_files] looks for: the stem of
    every batch item under either accepted extension. *)
Definition cleanup_targets (batch_files : list string) : list string :=
  flat_map (fun filename =>
              map (fun ext => (Py.splitext filename).1 +:+ ext) [".png"; ".jpg"])
           batch_files.

(** A file below the validity threshold. *)
Definition truncated (e : DirEntry) : bool :=
  match st_size e with
  | Some size => size <? MIN_VALID_FILE_SIZE
  | None => false
  end.

(** An entry that is one of [names] and is truncated. *)
Definition incomplete (names : list string) (e : DirEntry) : bool :=
  bool_decide (name e ∈ names) && truncated e.

(** An entry of the listing of [folder] that [os.remove] cannot delete:
    its path cannot be stat-ed. *)
Definition stuck (fs : FS) (folder : string) (e : DirEntry) : bool :=
  negb (os.file_exists fs folder (name e)).

(** The crash-safety scenario of the specification: two items in flight,
    one complete and one truncated in the primary location, a third frame
    complete in the secondary location only. *)
Definition fs_interrupted : FS :=
  {[ "UPSCALED_zanelli_2" := [file "f1.png" 60000; file "f2.png" 100];
     "Z:/zanelli\OUTPUT_zanelli_2" := [file "f3.png" 60000];
     STAGING_DIR := [file "f1.png" 900; file "f2.png" 900] ]}.

Definition world_interrupted : World :=
  {| disk := fs_interrupted;
     monitor_state :=
       set_current_batch ["f1.png"; "f2.png"] (monitoring 3 (Some {[ "f3.png" ]}));
     current_process := Some Alive; launches := 1%nat; journal := [] |}.

(** The launch number [k] fails whatever has been staged. *)
Definition raises_at (esrgan : Esrgan) (k : nat) : Prop :=
  forall staged : list DirEntry, outcome (esrgan k staged) = Raises.

(** What a launch failure at launch [k] must leave behind, between a
    state [w] of the loop and a later state [w']: if launch [k] happened
    in between and failed, it was the last launch, the running flag is
    cleared and the failure is the last line logged. *)
Definition fatal_between (esrgan : Esrgan) (w w' : World) : Prop :=
  (launches w <= launches w')%nat /\
  forall k : nat,
    (launches w <= k < launches w')%nat -> raises_at esrgan k ->
    launches w' = S k /\ running w' = false /\
    exists j, journal w' = j ++ [LogLaunchError].

(** The state in which the transform is launched for a batch. *)
Definition staged_for (input_folder : string) (missing_files : list string)
    (i : nat) (w : World) : World :=
  let total_missing := length missing_files in
  let batch := Py.slice missing_files i (i + BATCH_SIZE) in
  let w := log (LogBatch input_folder (i / BATCH_SIZE + 1)
                  ((total_missing + BATCH_SIZE - 1) / BATCH_SIZE) batch) w in
  let w := with_state (set_current_batch batch) w in
  with_disk (stage_batch input_folder STAGING_DIR (disk w) batch).1 w.

(** Staging the batch at index [i] ends by an exception. *)
Definition staging_raises (input_folder : string) (missing_files : list string)
    (i : nat) (w : World) : bool :=
  (stage_batch input_folder STAGING_DIR (disk w)
     (Py.slice missing_files i (i + BATCH_SIZE))).2.

(** The state after a launch that returned [returncode]. *)
Definition returned_from (output_folder_local : string) (batch : list string)
    (r : Response) (returncode : Z) (w : World) : World :=
  let w := launched w in
  let w := with_disk (foldl (write_file output_folder_local) (disk w) (written r)) w in
  let w := if negb (returncode =? 0)%Z then log (LogReturnCode returncode) w else w in
  let w := with_process None w in
  let w := with_state clear_current_batch w in
  with_disk (foldl (unstage_file STAGING_DIR) (disk w) batch) w.

(** The batches a journal reports as processed. *)
Definition logged_batches (journal : list Event) : list (list string) :=
  flat_map (fun e => match e with LogBatch _ _ _ batch => [batch] | _ => [] end)
           journal.

(** Two source folders with one outstanding frame each. *)
Definition fs_two_folders : FS :=
  {[ "INPUT_AI_video_rene_zanelli" := [file "a.png" 900];
     "INPUT_AI_zanelli_2" := [file "b.png" 900] ]}.

(** A transform whose first run exits with code 1 and writes nothing; its
    later runs succeed. *)
Definition esrgan_first_exits_1 : Esrgan := fun k staged =>
  if (k =? 0)%nat then {| outcome := Returns 1; written := [] |}
  else {| outcome := Returns 0;
          written := map (fun e => file (name e) 60000) staged |}.

(** A transform that cannot be launched the first time. *)
Definition esrgan_first_raises : Esrgan := fun k staged =>
  if (k =? 0)%nat then {| outcome := Raises; written := [] |}
  else {| outcome := Returns 0;
          written := map (fun e => file (name e) 60000) staged |}.

(** ** Integrity sweep *)

(** The body of the scan loop of [verify_output_integrity]; the
    accumulator is the file system and the [removed] counter. *)
Definition verify_entry (output_folder : string) (acc : FS * nat)
    (entry : DirEntry) : FS * nat :=
  if Py.endswith_any (Py.lower (name entry)) [".jpg"; ".png"] then
    match st_size entry with
    | Some size =>
        if (size <? MIN_VALID_FILE_SIZE)%Z
        then (os.remove acc.1 output_folder (name entry), S acc.2)
        else acc
    | None => acc
    end
  else acc.

(** [verify_output_integrity]: the file system afterwards and the number
    of files removed. *)
Definition verify_output_integrity (fs : FS) (output_folder : string) : FS * nat :=
  if negb (os.path_exists fs output_folder) then (fs, O)
  else foldl (verify_entry output_folder) (fs, O) (os.scandir fs output_folder).

(** An entry with an accepted extension and fewer bytes than the
    threshold. *)
Definition corrupt (e : DirEntry) : bool :=
  Py.endswith_any (Py.lower (name e)) [".jpg"; ".png"] && truncated e.

(** A directory with a finished frame, a truncated one, a file of another
    kind and a truncated frame with an upper-case extension. *)
Definition fs_swept : FS :=
  {[ "UPSCALED_zanelli_2" :=
       [file "a.png" 60000; file "b.png" 100; file "notes.txt" 10;
        file "c.JPG" 51199] ]}.

(** A source folder, and an output folder with a finished frame and a
    truncated one. *)
Definition fs_half_done : FS :=
  {[ "INPUT_AI_zanelli_2" := [file "a.png" 900; file "b.png" 900];
     "UPSCALED_zanelli_2" := [file "a.png" 60000; file "b.png" 100] ]}.

(** [world_interrupted] with its source folder on disk. *)
Definition world_interrupted_with_source : World :=
  {| disk :=
       <["INPUT_AI_zanelli_2" :=
           [file "f1.png" 900; file "f2.png" 900; file "f3.png" 900]]> fs_interrupted;
     monitor_state := monitor_state world_interrupted;
     current_process := Some Alive; launches := 1%nat; journal := [] |}.

(** No reporting tick of the run sees fewer finished frames than the tick
    before it. *)
Fixpoint never_regresses (state : MonitorState) (d : ProgressDaemon)
    (ticks : list (Q * FS)) : Prop :=
  match ticks with
  | [] => True
  | (now, fs) :: rest =>
      match check_progress fs state now d with
      | (d', Some r) =>
          (_last_count d <= current_count r)%Z /\ never_regresses state d' rest
      | (d', None) => never_regresses state d' rest
      end
  end.

(** The average, if there is one, is positive. *)
Definition positive_average (d : ProgressDaemon) : Prop :=
  match _avg_speed d with
  | Some avg => (0 < avg)%Q
  | None => True
  end.

(** The test of the two scan loops: accepted extension and enough bytes. *)
Definition is_valid (e : DirEntry) : bool :=
  Py.endswith_any (Py.lower (name e)) [".jpg"; ".png"] &&
  match st_size e with
  | Some size => (MIN_VALID_FILE_SIZE <=? size)%Z
  | None => false
  end.

(** The normalized names of the valid entries of a listing, one per entry. *)
Definition valid_names (l : list DirEntry) : list string :=
  map (fun e => normalized (name e)) (List.filter is_valid l).

(** A frame present under both accepted extensions. *)
Definition fs_both_extensions : FS :=
  {[ "UPSCALED_zanelli_2" := [file "a.png" 60000; file "a.jpg" 60000] ]}.

(** A source frame with an upper-case extension and its finished output. *)
Definition fs_upper_case : FS :=
  {[ "INPUT_AI_zanelli_2" := [file "a.PNG" 900];
     "UPSCALED_zanelli_2" := [file "a.png" 60000; file "a.PNG" 60000] ]}.

(** The state of the folder loop once a folder has been analysed: output
    folder created, shared state updated, secondary cache taken. *)
Definition analysed (input_folder : string) (w : World) : World :=
  let output_folder_local := Py.replace input_folder "INPUT_AI" "UPSCALED" in
  let w :=
    if negb (os.path_exists (disk w) output_folder_local)
    then with_disk (os.makedirs (disk w) output_folder_local) w
    else w in
  let output_folder_nas := _nas_output_for_local_output output_folder_local in
  let total_src_files :=
    Z.of_nat (length (List.filter (fun f => Py.endswith (Py.lower f) ".png")
                        (os.listdir (disk w) input_folder))) in
  let w :=
    with_state (update_folder input_folder (Some output_folder_local)
                  output_folder_nas total_src_files) w in
  let nas_cache :=
    if truthy output_folder_nas
    then get_valid_output_basenames (disk w) output_folder_nas
    else ∅ in
  let w := with_state (set_nas_cache (Some nas_cache)) w in
  log (LogAnalyzing input_folder) w.

(** The missing list of the folder just analysed. *)
Definition missing_for (input_folder : string) (wa : World) : list string :=
  get_missing_frames (disk wa) input_folder
    (_output_folder_local (monitor_state wa))
    (_output_folder_nas (monitor_state wa))
    (_nas_cache_basenames (monitor_state wa)).

(** The state in which the folder loop starts: the staging directory
    exists and holds only what could not be removed. *)
Definition prepared (w : World) : World :=
  if negb (os.path_exists (disk w) STAGING_DIR)
  then with_disk (os.makedirs (disk w) STAGING_DIR) w
  else with_disk (cleanup_staging (disk w) STAGING_DIR) w.

(** A batch as the loop forms it: at least one item, at most [BATCH_SIZE]. *)
Definition batch_ok (batch : list string) : Prop :=
  (0 < length batch <= BATCH_SIZE)%nat.

(** Between [w] and the state in which a piece of the run ends, the
    transform was launched once for every batch logged, except that a
    batch whose staging raised is logged without a launch; and the batches
    logged are well-formed if the earlier ones were. *)
Definition tally (w : World) (ended : World * bool) : Prop :=
  (launches ended.1 + length (logged_batches (journal w))
   + (if ended.2 then 1 else 0)
   = launches w + length (logged_batches (journal ended.1)))%nat
  /\ (Forall batch_ok (logged_batches (journal w)) ->
      Forall batch_ok (logged_batches (journal ended.1))).

(** The listing holds a file named [f] of at least the threshold size. *)
Definition has_finished (l : list DirEntry) (f : string) : Prop :=
  exists size : Z, file f size ∈ l /\ (MIN_VALID_FILE_SIZE <= size)%Z.

(** A transform that does its job: it can be launched and returns, it
    leaves a file for every staged input under the name of that input,
    and every file it leaves has at least the threshold size. *)
Definition does_its_job (esrgan : Esrgan) : Prop :=
  forall (k : nat) (staged : list DirEntry),
    (exists returncode, outcome (esrgan k staged) = Returns returncode)
    /\ (forall e, e ∈ staged ->
          exists size, file (name e) size ∈ written (esrgan k staged))
    /\ (forall e, e ∈ written (esrgan k staged) ->
          exists size, st_size e = Some size /\ (MIN_VALID_FILE_SIZE <= size)%Z).

(** A source folder with one frame, its empty output folder and an empty
    staging directory: the state in which the batch loop starts. *)
Definition world_ready : World :=
  world0 {[ "INPUT_AI_zanelli_2" := [file "a.png" 900];
            "UPSCALED_zanelli_2" := [];
            STAGING_DIR := [] ]}.

(** A transform that upscales every staged file. *)
Definition esrgan_good : Esrgan := fun k staged =>
  {| outcome := Returns 0;
     written := map (fun e => file (name e) 60000) staged |}.

(** What the folder loop does for one source folder that exists. *)
Definition folder_turn (esrgan : Esrgan) (input_folder : string) (w : World)
    : World * bool :=
  let wa := analysed input_folder w in
  let missing_files := missing_for input_folder wa in
  if (length missing_files =? 0)%nat then (log LogFolderComplete wa, false)
  else
    for_batches_or_raise esrgan input_folder
      (Py.replace input_folder "INPUT_AI" "UPSCALED") missing_files
      (Py.range (length missing_files) BATCH_SIZE)
      (log (LogMissing (length missing_files)) wa).

(** No frame [stem.png] of the folder would be reported missing by a fresh
    analysis (one that reads the secondary location again). *)
Definition nothing_left (fs : FS) (input_folder : string) : Prop :=
  forall stem : string, ordinary_stem stem ->
    stem +:+ ".png" ∉
      get_missing_frames fs input_folder
        (Some (Py.replace input_folder "INPUT_AI" "UPSCALED"))
        (_nas_output_for_local_output (Py.replace input_folder "INPUT_AI" "UPSCALED"))
        None.

(** The directories of a folder are distinct from the staging directory
    and from the output folder. *)
Definition apart (input_folder : string) : Prop :=
  let output_folder_local := Py.replace input_folder "INPUT_AI" "UPSCALED" in
  let output_folder_nas := _nas_output_for_local_output output_folder_local in
  input_folder <> STAGING_DIR /\ output_folder_local <> STAGING_DIR
  /\ output_folder_local <> "" /\ input_folder <> output_folder_local
  /\ output_folder_nas <> Some STAGING_DIR
  /\ output_folder_nas <> Some output_folder_local.

(** No folder of the list is, or has as its secondary location, the
    output folder of another; two folders with the same output folder are
    the same. *)
Definition separated (dirs : list string) : Prop :=
  Forall (fun d =>
    apart d /\
    Forall (fun d' =>
      d <> Py.replace d' "INPUT_AI" "UPSCALED"
      /\ _nas_output_for_local_output (Py.replace d "INPUT_AI" "UPSCALED")
         <> Some (Py.replace d' "INPUT_AI" "UPSCALED")
      /\ (Py.replace d "INPUT_AI" "UPSCALED" = Py.replace d' "INPUT_AI" "UPSCALED"
          -> d = d')) dirs) dirs.

(** The example of the specification with leftovers of an earlier run in
    the staging directory. *)
Definition fs_leftovers : FS :=
  <[STAGING_DIR := [file "x.png" 900; {| name := "y.png"; st_size := None |}]]>
    fs_example.


(** A source folder whose one frame is listed but cannot be read. *)
Definition fs_unreadable : FS :=
  {[ "INPUT_AI_zanelli_2" := [ {| name := "a.png"; st_size := None |} ] ]}.

(** Every frame of the one source folder is finished in its output folder. *)
Definition fs_complete : FS :=
  {[ "INPUT_AI_zanelli_2" := [file "a.png" 900; file "b.png" 900];
     "UPSCALED_zanelli_2" := [file "b.png" 60000; file "a.png" 70000] ]}.

(** * Properties *)

(** ** Strings *)

Example splitext_plain : Py.splitext "frame_0001.png" = ("frame_0001", ".png").
Proof. reflexivity. Qed.
Example splitext_upper : Py.splitext "a.b.JPG" = ("a.b", ".JPG").
Proof. reflexivity. Qed.
Example splitext_dotfile : Py.splitext ".png" = (".png", "").
Proof. reflexivity. Qed.
Example splitext_dots : Py.splitext "..png" = ("..png", "").
Proof. reflexivity. Qed.
Example splitext_noext : Py.splitext "README" = ("README", "").
Proof. reflexivity. Qed.
Example replace_ex : Py.replace "INPUT_AI_zanelli_2" "INPUT_AI" "UPSCALED" = "UPSCALED_zanelli_2".
Proof. reflexivity. Qed.
Example range_ex : Py.range 12 5 = [0; 5; 10]%nat.
Proof. reflexivity. Qed.
Example lower_ex : Py.lower "A_b.PnG" = "a_b.png".
Proof. reflexivity. Qed.
Example sorted_ex : Py.sorted ["b"; "a10"; "a1"; "B"] = ["B"; "a1"; "a10"; "b"].
Proof. reflexivity. Qed.

Lemma endswith_spec (s suffix : string) :
  Py.endswith s suffix = true <-> exists p, s = p +:+ suffix.
Proof.
  induction s as [|c s IH]; cbn [Py.endswith].
  - rewrite orb_false_r, String.eqb_eq. split.
    + intros <-. by exists "".
    + intros [p Hp]. destruct p; simpl in Hp; [done | discriminate].
  - rewrite orb_true_iff, String.eqb_eq, IH. split.
    + intros [<- | [p ->]]; [by exists "" | by exists (String c p)].
    + intros [p Hp]. destruct p as [|c' p]; simpl in Hp; [by left |].
      right. exists p. by injection Hp.
Qed.

Lemma lower_app (a b : string) : Py.lower (a +:+ b) = Py.lower a +:+ Py.lower b.
Proof. induction a as [|c a IH]; simpl; [done | by rewrite IH]. Qed.

Lemma lower_split (s p q : string) :
  Py.lower s = p +:+ q ->
  exists a b, s = a +:+ b /\ Py.lower a = p /\ Py.lower b = q.
Proof.
  revert s. induction p as [|c p IH]; intros s H; simpl in H.
  - by exists "", s.
  - destruct s as [|c' s]; simpl in H; [discriminate |].
    injection H as Hc Hs. destruct (IH _ Hs) as (a & b & -> & <- & <-).
    exists (String c' a), b. simpl. by rewrite Hc.
Qed.

Lemma accepted_extension_spec (n : string) :
  Py.endswith_any (Py.lower n) [".jpg"; ".png"] = true <-> has_accepted_extension n.
Proof.
  unfold Py.endswith_any, has_accepted_extension. simpl.
  rewrite orb_false_r, orb_true_iff, !endswith_spec. split.
  - intros [[p H] | [p H]]; apply lower_split in H as (a & b & -> & _ & Hb); eauto.
  - intros (stem & ext & -> & [H | H]); rewrite lower_app, H; eauto.
Qed.

(** ** Valid output basenames *)

Lemma add_if_valid_spec (valid : gset string) (e : DirEntry) (b : string) :
  b ∈ add_if_valid valid e <-> b ∈ valid \/ (valid_file e /\ b = normalized (name e)).
Proof.
  unfold add_if_valid, valid_file, normalized.
  destruct (Py.endswith_any _ _) eqn:Hext.
  - apply accepted_extension_spec in Hext.
    destruct (st_size e) as [size|] eqn:Hsz.
    + destruct (MIN_VALID_FILE_SIZE <=? size) eqn:Hle.
      * apply Z.leb_le in Hle. rewrite elem_of_union, elem_of_singleton.
        split; [|tauto]. intros [?|?]; [tauto | right; eauto 6].
      * apply Z.leb_gt in Hle. split; [tauto |].
        intros [? | [[_ (sz & [= <-] & ?)] _]]; [done | lia].
    + split; [tauto |]. intros [? | [[_ (sz & ? & ?)] _]]; [done | discriminate].
  - split; [tauto |]. intros [? | [[Ha _] _]]; [done |].
    apply accepted_extension_spec in Ha. congruence.
Qed.

Lemma foldl_add_if_valid (l : list DirEntry) (valid : gset string) (b : string) :
  b ∈ foldl add_if_valid valid l <->
  b ∈ valid \/ exists e, e ∈ l /\ valid_file e /\ b = normalized (name e).
Proof.
  revert valid. induction l as [|e l IH]; intros valid; simpl.
  - split; [tauto |]. intros [? | (e & He & _)]; [done |]. by apply elem_of_nil in He.
  - rewrite IH, add_if_valid_spec. split.
    + intros [[? | [? ?]] | (e' & ? & ? & ?)]; [tauto | right; exists e | right; exists e'];
        rewrite elem_of_cons; tauto.
    + intros [? | (e' & [-> | ?]%elem_of_cons & ? & ?)]; [tauto | tauto | right; eauto].
Qed.

Lemma elem_of_valid_basenames (fs : FS) (folder : option string) (b : string) :
  b ∈ get_valid_output_basenames fs folder <->
  exists p l e, folder = Some p /\ p <> "" /\ fs !! p = Some l /\
            e ∈ l /\ valid_file e /\ b = normalized (name e).
Proof.
  unfold get_valid_output_basenames. destruct folder as [p|].
  2:{ split; [set_solver |]. by intros (? & ? & ? & ? & _). }
  unfold truthy, os.path_exists, os.scandir.
  destruct (String.eqb_spec p "") as [-> | Hp]; simpl.
  { split; [set_solver |]. intros (? & ? & ? & [= <-] & ? & _). done. }
  destruct (fs !! p) as [l|] eqn:Hl; simpl.
  - rewrite foldl_add_if_valid. split.
    + intros [? | (e & ? & ? & ?)]; [set_solver |]. by exists p, l, e.
    + intros (p' & l' & e & [= <-] & _ & Hl' & ? & ? & ?).
      rewrite Hl in Hl'. injection Hl' as <-. right. eauto.
  - split; [set_solver |]. intros (p' & l' & e & [= <-] & _ & Hl' & _). congruence.
Qed.

(** ** [splitext] on ordinary file names *)


Lemma str_app_nil (b : string) : "" +:+ b = b.
Proof. reflexivity. Qed.
Lemma str_app_cons (x : ascii) (a b : string) : String x a +:+ b = String x (a +:+ b).
Proof. reflexivity. Qed.

Ltac str_induction a :=
  let x := fresh "x" in let IH := fresh "IH" in
  induction a as [|x a IH]; rewrite ?str_app_nil, ?str_app_cons; simpl.

Lemma rfind_from_absent (s : string) (c : ascii) (i : Z) :
  c ∉ chars s -> Py.rfind_from i s c = -1.
Proof.
  revert i. induction s as [|a s IH]; intros i H; simpl; [done |].
  simpl in H. apply not_elem_of_cons in H as [Hne Hs].
  rewrite (IH _ Hs). simpl.
  destruct (Ascii.eqb_spec a c); [congruence | done].
Qed.

Lemma rfind_from_head (rest : string) (c : ascii) (i : Z) :
  0 <= i -> c ∉ chars rest -> Py.rfind_from i (String c rest) c = i.
Proof.
  intros Hi H. simpl. rewrite (rfind_from_absent _ _ _ H). simpl.
  by rewrite Ascii.eqb_refl.
Qed.

Lemma rfind_from_app (a b : string) (c : ascii) (i : Z) :
  0 <= i ->
  Py.rfind_from (i + Z.of_nat (String.length a)) b c = i + Z.of_nat (String.length a) ->
  Py.rfind_from i (a +:+ b) c = i + Z.of_nat (String.length a).
Proof.
  revert i. induction a as [|x a IH]; intros i Hi H.
  - cbn [String.append String.length] in *. change (Z.of_nat 0) with 0 in *.
    rewrite Z.add_0_r in *. exact H.
  - rewrite str_app_cons.
    cbn [Py.rfind_from String.length] in *.
    rewrite Nat2Z.inj_succ in *.
    replace (i + Z.succ (Z.of_nat (String.length a)))
      with ((i + 1) + Z.of_nat (String.length a)) in * by lia.
    rewrite (IH (i + 1)) by (lia || done). cbv zeta.
    destruct (0 <=? i + 1 + Z.of_nat (String.length a)) eqn:E; [done |].
    apply Z.leb_gt in E. lia.
Qed.

Lemma chars_app (a b : string) : chars (a +:+ b) = chars a ++ chars b.
Proof. str_induction a; [done | by rewrite IH]. Qed.

Lemma substring_whole (b : string) : substring 0 (String.length b) b = b.
Proof. induction b as [|x b IH]; simpl; [done | by rewrite IH]. Qed.

Lemma substring_app_l (a b : string) :
  substring 0 (String.length a) (a +:+ b) = a.
Proof. str_induction a; [destruct b; reflexivity | by rewrite IH]. Qed.

Lemma substring_app_r (a b : string) :
  substring (String.length a) (String.length b) (a +:+ b) = b.
Proof. str_induction a; [apply substring_whole | done]. Qed.

Lemma length_app (a b : string) :
  String.length (a +:+ b) = (String.length a + String.length b)%nat.
Proof. str_induction a; [done | by rewrite IH]. Qed.

Lemma slices_app (a b : string) :
  Py.slice_to (a +:+ b) (Z.of_nat (String.length a)) = a /\
  Py.slice_from (a +:+ b) (Z.of_nat (String.length a)) = b.
Proof.
  unfold Py.slice_to, Py.slice_from. rewrite Nat2Z.id, length_app.
  replace (String.length a + String.length b - String.length a)%nat
    with (String.length b) by lia.
  split; [apply substring_app_l | apply substring_app_r].
Qed.

Lemma string_app_assoc (a b c : string) : (a +:+ b) +:+ c = a +:+ (b +:+ c).
Proof. str_induction a; [done | by rewrite IH]. Qed.

Lemma get_app_head (pre rest : string) (x : ascii) :
  String.get (String.length pre) (pre +:+ String x rest) = Some x.
Proof. str_induction pre; [done | exact IH]. Qed.

(** The leading-dots loop stops at the first character that is no dot. *)
Lemma splitext_loop_finds (stem pre b : string) (dot : ascii) :
  (exists c, c ∈ chars stem /\ c <> dot) ->
  Py._splitext_loop (String.length stem) (pre +:+ (stem +:+ b)) dot
    (Z.of_nat (String.length pre)) (Z.of_nat (String.length (pre +:+ stem)))
  = (pre +:+ stem, b).
Proof.
  revert pre. induction stem as [|x stem IH]; intros pre (c & Hc & Hne).
  { by apply elem_of_nil in Hc. }
  rewrite str_app_cons. cbn [String.length Py._splitext_loop]. rewrite Nat2Z.id, get_app_head.
  destruct (Ascii.eqb_spec x dot) as [-> | Hx]; cbn [negb].
  - simpl in Hc. apply elem_of_cons in Hc as [-> | Hc]; [done |].
    specialize (IH (pre +:+ String dot "")).
    rewrite !string_app_assoc, !str_app_cons, !str_app_nil in IH.
    rewrite length_app in IH. simpl in IH.
    replace (Z.of_nat (String.length pre) + 1)
      with (Z.of_nat (String.length pre + 1)) by lia.
    apply IH. eauto.
  - replace (pre +:+ String x (stem +:+ b)) with ((pre +:+ String x stem) +:+ b)
      by (by rewrite string_app_assoc).
    destruct (slices_app (pre +:+ String x stem) b) as [-> ->]. done.
Qed.

Lemma lower_char_fixes (a : ascii) :
  a = "."%char \/ a = "/"%char \/ a = "\"%char -> Py.lower_char a = a.
Proof. by intros [-> | [-> | ->]]. Qed.

Lemma lower_char_dot (a : ascii) : Py.lower_char a = "."%char -> a = "."%char.
Proof.
  unfold Py.lower_char. destruct (_ && _)%N eqn:E; [|done].
  apply andb_true_iff in E as [E1 E2]. apply N.leb_le in E1, E2.
  intros H. apply (f_equal N_of_ascii) in H.
  rewrite N_ascii_embedding in H by lia. simpl in H. lia.
Qed.

(** An accepted extension is a dot and three further characters, none of
    them a dot or a separator. *)
Lemma accepted_extension_shape (ext : string) :
  Py.lower ext = ".jpg" \/ Py.lower ext = ".png" ->
  exists rest, ext = String "."%char rest /\
    ("."%char ∉ chars rest) /\ ("/"%char ∉ chars rest) /\ ("\"%char ∉ chars rest).
Proof.
  intros H.
  destruct ext as [|c0 [|c1 [|c2 [|c3 [|c4 ext]]]]];
    try (destruct H as [H | H]; simpl in H; discriminate).
  assert (Py.lower_char c0 = "."%char) as H0 by (destruct H as [H|H]; by injection H).
  apply lower_char_dot in H0 as ->.
  exists (String c1 (String c2 (String c3 ""))). split; [done |].
  assert (forall x, x = "."%char \/ x = "/"%char \/ x = "\"%char ->
            x ∉ [c1; c2; c3]) as Hno.
  { intros x Hx Hin. rewrite !elem_of_cons in Hin.
    pose proof (lower_char_fixes x Hx) as Hfix.
    assert (Py.lower_char x ∈ ["j"; "p"; "g"; "n"]%char) as Hl.
    { rewrite !elem_of_cons.
      destruct Hin as [-> | [-> | [-> | Hin]]]; [| | | by apply elem_of_nil in Hin];
        destruct H as [H | H]; simpl in H; injection H as H1 H2 H3; auto. }
    rewrite Hfix in Hl. rewrite !elem_of_cons in Hl.
    destruct Hl as [-> | [-> | [-> | [-> | Hl]]]]; [| | | | by apply elem_of_nil in Hl];
      destruct Hx as [? | [? | ?]]; discriminate. }
  simpl. repeat split; apply Hno; auto.
Qed.

(** A separator-free stem that is not made of dots only, followed by an
    accepted extension, splits at the extension. *)
Lemma splitext_accepted (stem ext : string) :
  "/"%char ∉ chars stem -> "\"%char ∉ chars stem ->
  (exists c, c ∈ chars stem /\ c <> "."%char) ->
  Py.lower ext = ".jpg" \/ Py.lower ext = ".png" ->
  Py.splitext (stem +:+ ext) = (stem, ext).
Proof.
  intros Hs1 Hs2 Hc Hext.
  destruct (accepted_extension_shape _ Hext) as (rest & -> & Hd & Hr1 & Hr2).
  unfold Py.splitext, Py._splitext, Py.rfind.
  rewrite (rfind_from_absent _ "\"%char).
  2:{ rewrite chars_app. simpl. rewrite elem_of_app, elem_of_cons. intros [?|[?|?]]; done. }
  rewrite (rfind_from_absent _ "/"%char).
  2:{ rewrite chars_app. simpl. rewrite elem_of_app, elem_of_cons. intros [?|[?|?]]; done. }
  rewrite (rfind_from_app stem _ "."%char 0) by (lia || (apply rfind_from_head; [lia | done])).
  change ((-1) `max` (-1)) with (-1). change (-1 + 1) with 0.
  rewrite Z.add_0_l, Z.sub_0_r, Nat2Z.id.
  destruct (-1 <? Z.of_nat (String.length stem)) eqn:E; [| apply Z.ltb_ge in E; lia].
  exact (splitext_loop_finds stem "" _ "."%char Hc).
Qed.
Lemma valid_basenames_single (p : string) (e : DirEntry) (b : string) :
  p <> "" ->
  b ∈ get_valid_output_basenames {[ p := [e] ]} (Some p) <->
  valid_file e /\ b = normalized (name e).
Proof.
  intros Hp. rewrite elem_of_valid_basenames. split.
  - intros (p' & l & e' & [= <-] & _ & Hl & He & Hv & ->).
    rewrite lookup_singleton_eq in Hl. injection Hl as <-.
    apply list_elem_of_singleton in He as ->. done.
  - intros [Hv ->]. exists p, [e], e. rewrite lookup_singleton_eq.
    split; [done |]. split; [done |]. split; [done |].
    split; [by apply list_elem_of_singleton | done].
Qed.

(** C4. An output file counts as valid if and only if its extension is one
    of the two accepted ones, whatever the case of its letters, and its
    size is at least [MIN_VALID_FILE_SIZE]: the set returned by
    [get_valid_output_basenames] holds exactly the normalized names of such
    files.  A file one byte short of the threshold is not valid, a file of
    exactly the threshold is.  Every recorded name carries the canonical
    [.png] extension, and for an ordinary file name it is the stem of the
    file followed by [.png]. *)
Theorem valid_output_iff_extension_and_size :
  (forall (fs : FS) (folder : option string) (b : string),
     b ∈ get_valid_output_basenames fs folder <->
     exists p l e, folder = Some p /\ p <> "" /\ fs !! p = Some l /\
               e ∈ l /\ valid_file e /\ b = normalized (name e))
  /\ (forall p n : string, p <> "" -> has_accepted_extension n ->
        get_valid_output_basenames
          {[ p := [file n (MIN_VALID_FILE_SIZE - 1)] ]} (Some p) = ∅ /\
        get_valid_output_basenames
          {[ p := [file n MIN_VALID_FILE_SIZE] ]} (Some p) = {[ normalized n ]})
  /\ (forall (fs : FS) (folder : option string) (b : string),
        b ∈ get_valid_output_basenames fs folder -> Py.endswith b ".png" = true)
  /\ (forall stem ext : string,
        ordinary_stem stem ->
        Py.lower ext = ".jpg" \/ Py.lower ext = ".png" ->
        normalized (stem +:+ ext) = stem +:+ ".png").
Proof.
  split; [exact elem_of_valid_basenames |]. split; [| split].
  - intros p n Hp Hext. split; apply set_eq; intros b;
      rewrite (valid_basenames_single _ _ _ Hp); unfold valid_file; simpl.
    + split; [| set_solver]. intros [[_ (size & [= <-] & Hle)] _]. lia.
    + rewrite elem_of_singleton. split; [tauto |].
      intros ->. split; [| done]. split; [done |]. eexists. split; [done | lia].
  - intros fs folder b (p & l & e & _ & _ & _ & _ & _ & ->)%elem_of_valid_basenames.
    apply endswith_spec. by eexists.
  - intros stem ext (Hs1 & Hs2 & Hc) Hext. unfold normalized.
    by rewrite (splitext_accepted _ _ Hs1 Hs2 Hc Hext).
Qed.

Lemma valid_output_iff_extension_and_size_witness :
  "frame_0001.png" ∈
    get_valid_output_basenames
      {[ "UPSCALED_zanelli_2" :=
           [file "frame_0001.JPG" 51200; file "frame_0002.png" 51199] ]}
      (Some "UPSCALED_zanelli_2").
Proof.
  apply (proj1 valid_output_iff_extension_and_size).
  eexists _, _, (file "frame_0001.JPG" 51200).
  split; [reflexivity |]. split; [discriminate |].
  split; [apply lookup_singleton_eq |].
  split; [apply list_elem_of_here |].
  split; [| reflexivity].
  split.
  - exists "frame_0001", ".JPG". split; [reflexivity | left; reflexivity].
  - exists 51200. split; [reflexivity | unfold MIN_VALID_FILE_SIZE; lia].
Defined.
(** ** Outstanding work *)

Lemma elem_of_sorted (l : list string) (x : string) : x ∈ Py.sorted l <-> x ∈ l.
Proof. unfold Py.sorted. by rewrite merge_sort_Permutation. Qed.

Lemma sorted_StronglySorted (l : list string) : StronglySorted String.le (Py.sorted l).
Proof. apply StronglySorted_merge_sort; apply _. Qed.

Lemma sorted_NoDup (l : list string) : NoDup l -> NoDup (Py.sorted l).
Proof. unfold Py.sorted. by rewrite merge_sort_Permutation. Qed.

(** Sorting forgets the order in which a set was listed. *)
Lemma sorted_Permutation (l1 l2 : list string) :
  l1 ≡ₚ l2 -> Py.sorted l1 = Py.sorted l2.
Proof.
  intros H. apply (StronglySorted_unique String.le); try apply sorted_StronglySorted.
  unfold Py.sorted. by rewrite !merge_sort_Permutation.
Qed.

Lemma completed_in_code (fs : FS) (local_folder nas_folder : option string)
    (nas_cache_basenames : option (gset string)) :
  (if truthy nas_folder then
     (∅ ∪ get_valid_output_basenames fs local_folder) ∪
       match nas_cache_basenames with
       | Some cache => cache
       | None => get_valid_output_basenames fs nas_folder
       end
   else ∅ ∪ get_valid_output_basenames fs local_folder)
  = completed_set fs local_folder nas_folder nas_cache_basenames.
Proof. unfold completed_set. destruct (truthy nas_folder); set_solver. Qed.

Lemma source_basenames_missing (fs : FS) (src_folder : string) :
  os.path_exists fs src_folder = false -> source_basenames fs src_folder = ∅.
Proof.
  unfold os.path_exists, source_basenames, os.listdir, os.scandir.
  by destruct (fs !! src_folder).
Qed.

Lemma get_missing_frames_eq (fs : FS) (src_folder : string)
    (local_folder nas_folder : option string)
    (nas_cache_basenames : option (gset string)) :
  get_missing_frames fs src_folder local_folder nas_folder nas_cache_basenames
  = Py.sorted (elements (source_basenames fs src_folder ∖
        completed_set fs local_folder nas_folder nas_cache_basenames)).
Proof.
  unfold get_missing_frames.
  destruct (os.path_exists fs src_folder) eqn:E; simpl.
  - by rewrite completed_in_code.
  - rewrite (source_basenames_missing _ _ E).
    replace (∅ ∖ completed_set fs local_folder nas_folder nas_cache_basenames)
      with (∅ : gset string) by set_solver.
    by rewrite elements_empty.
Qed.

(** C3, as amended. [get_missing_frames] returns exactly the source
    basenames that are not in the completed set, each once, in ascending
    order, where the completed set is the valid basenames of the primary
    location together with, when a secondary location is given, the
    secondary cache if one is provided and the valid basenames of the
    secondary location otherwise; with no secondary location the completed
    set is that of the primary location alone. *)
Theorem missing_frames_are_source_minus_completed
    (fs : FS) (src_folder : string) (local_folder nas_folder : option string)
    (nas_cache_basenames : option (gset string)) :
  let result :=
    get_missing_frames fs src_folder local_folder nas_folder nas_cache_basenames in
  let completed :=
    get_valid_output_basenames fs local_folder ∪
    (if truthy nas_folder then
       match nas_cache_basenames with
       | Some cache => cache
       | None => get_valid_output_basenames fs nas_folder
       end
     else ∅) in
  (forall x, x ∈ result <-> x ∈ source_basenames fs src_folder /\ x ∉ completed)
  /\ NoDup result
  /\ StronglySorted String.le result
  /\ (truthy nas_folder = true ->
      completed =
      completed_as_specified fs local_folder nas_folder nas_cache_basenames).
Proof.
  intros result completed. subst result.
  rewrite get_missing_frames_eq. fold (completed_set fs local_folder nas_folder
    nas_cache_basenames) in completed. subst completed.
  split; [| split; [| split]].
  - intros x. by rewrite elem_of_sorted, elem_of_elements, elem_of_difference.
  - apply sorted_NoDup, NoDup_elements.
  - apply sorted_StronglySorted.
  - intros Ht. unfold completed_set, completed_as_specified. by rewrite Ht.
Qed.

Example missing_set_example :
  get_missing_frames fs_example "INPUT_AI_zanelli_2" (Some "UPSCALED_zanelli_2")
    (Some "Z:/zanelli\OUTPUT_zanelli_2") None = ["c.png"]
  /\ get_missing_frames fs_example "INPUT_AI_zanelli_2" (Some "UPSCALED_zanelli_2")
    (Some "Z:/zanelli\OUTPUT_zanelli_2") (Some {[ "b.png" ]}) = ["c.png"].
Proof. split; vm_compute; reflexivity. Qed.

Lemma missing_frames_are_source_minus_completed_witness :
  "c.png" ∈ get_missing_frames fs_example "INPUT_AI_zanelli_2"
    (Some "UPSCALED_zanelli_2") (Some "Z:/zanelli\OUTPUT_zanelli_2") None.
Proof.
  apply (proj1 (missing_frames_are_source_minus_completed fs_example
    "INPUT_AI_zanelli_2" (Some "UPSCALED_zanelli_2")
    (Some "Z:/zanelli\OUTPUT_zanelli_2") None)).
  split; compute_done.
Defined.

(** C3 as the specification words it fails when a cache is passed but no
    secondary location: the code leaves the cache out of the completed
    set, so [a.png] is still reported missing. *)
Lemma missing_frames_cache_without_secondary :
  get_missing_frames fs_no_secondary "INPUT_AI_zanelli_2"
    (Some "UPSCALED_zanelli_2") None (Some {[ "a.png" ]}) = ["a.png"]
  /\ "a.png" ∈ completed_as_specified fs_no_secondary
       (Some "UPSCALED_zanelli_2") None (Some {[ "a.png" ]})
  /\ ~ (forall x,
         x ∈ get_missing_frames fs_no_secondary "INPUT_AI_zanelli_2"
               (Some "UPSCALED_zanelli_2") None (Some {[ "a.png" ]}) <->
         x ∈ source_basenames fs_no_secondary "INPUT_AI_zanelli_2" /\
         x ∉ completed_as_specified fs_no_secondary
               (Some "UPSCALED_zanelli_2") None (Some {[ "a.png" ]})).
Proof.
  assert (get_missing_frames fs_no_secondary "INPUT_AI_zanelli_2"
    (Some "UPSCALED_zanelli_2") None (Some {[ "a.png" ]}) = ["a.png"]) as E
    by (vm_compute; reflexivity).
  assert ("a.png" ∈ completed_as_specified fs_no_secondary
       (Some "UPSCALED_zanelli_2") None (Some {[ "a.png" ]})) as Hin
    by compute_done.
  split; [exact E |]. split; [exact Hin |].
  intros H. destruct (proj1 (H "a.png")) as [_ Hn].
  - rewrite E. apply list_elem_of_here.
  - exact (Hn Hin).
Qed.
(** ** Determinism of the resolution *)

Lemma same_contents_exists (fs1 fs2 : FS) (p : string) :
  same_contents fs1 fs2 -> os.path_exists fs1 p = os.path_exists fs2 p.
Proof.
  intros H. specialize (H p). unfold os.path_exists.
  destruct (fs1 !! p), (fs2 !! p); tauto.
Qed.

Lemma same_contents_scandir (fs1 fs2 : FS) (p : string) :
  same_contents fs1 fs2 -> os.scandir fs1 p ≡ₚ os.scandir fs2 p.
Proof.
  intros H. specialize (H p). unfold os.scandir.
  destruct (fs1 !! p), (fs2 !! p); first [exact H | reflexivity | destruct H].
Qed.

Lemma valid_basenames_scandir (fs : FS) (folder : option string) (b : string) :
  b ∈ get_valid_output_basenames fs folder <->
  exists p e, folder = Some p /\ p <> "" /\ e ∈ os.scandir fs p /\
          valid_file e /\ b = normalized (name e).
Proof.
  rewrite elem_of_valid_basenames. unfold os.scandir. split.
  - intros (p & l & e & -> & Hp & Hl & He & Hv & ->).
    exists p, e. by rewrite Hl.
  - intros (p & e & -> & Hp & He & Hv & ->).
    destruct (fs !! p) as [l|] eqn:Hl; [| by apply elem_of_nil in He].
    by exists p, l, e.
Qed.

Lemma same_contents_valid_basenames (fs1 fs2 : FS) (folder : option string) :
  same_contents fs1 fs2 ->
  get_valid_output_basenames fs1 folder = get_valid_output_basenames fs2 folder.
Proof.
  intros H. apply set_eq. intros b. rewrite !valid_basenames_scandir.
  split; intros (p & e & ? & ? & He & ?); exists p, e;
    [rewrite <- (same_contents_scandir fs1 fs2 p H) | rewrite (same_contents_scandir fs1 fs2 p H)];
    tauto.
Qed.

Lemma same_contents_source (fs1 fs2 : FS) (src_folder : string) :
  same_contents fs1 fs2 ->
  source_basenames fs1 src_folder = source_basenames fs2 src_folder.
Proof.
  intros H. apply set_eq. intros x. unfold source_basenames, os.listdir.
  rewrite !elem_of_list_to_set, !list_elem_of_In, !filter_In, <- !list_elem_of_In.
  change (map name) with (fmap (M:=list) name).
  by rewrite (same_contents_scandir fs1 fs2 src_folder H).
Qed.

Lemma same_contents_completed (fs1 fs2 : FS) (local_folder nas_folder : option string)
    (nas_cache_basenames : option (gset string)) :
  same_contents fs1 fs2 ->
  completed_set fs1 local_folder nas_folder nas_cache_basenames
  = completed_set fs2 local_folder nas_folder nas_cache_basenames.
Proof.
  intros H. unfold completed_set.
  by rewrite (same_contents_valid_basenames fs1 fs2 local_folder H),
    (same_contents_valid_basenames fs1 fs2 nas_folder H).
Qed.

(** C9. Resolving the missing items twice on the same directory contents
    gives the same sorted list: the result of [get_missing_frames] is a
    function of the contents of the directories (and of the cache), not of
    the order in which the operating system or a Python set enumerates
    them. *)
Theorem missing_frames_deterministic
    (fs1 fs2 : FS) (src_folder : string) (local_folder nas_folder : option string)
    (nas_cache_basenames : option (gset string)) :
  same_contents fs1 fs2 ->
  get_missing_frames fs1 src_folder local_folder nas_folder nas_cache_basenames
  = get_missing_frames fs2 src_folder local_folder nas_folder nas_cache_basenames
  /\ forall listed : list string,
       listed ≡ₚ elements (source_basenames fs1 src_folder ∖
         completed_set fs1 local_folder nas_folder nas_cache_basenames) ->
       Py.sorted listed
       = get_missing_frames fs2 src_folder local_folder nas_folder nas_cache_basenames.
Proof.
  intros H. rewrite !get_missing_frames_eq.
  rewrite (same_contents_source fs1 fs2 src_folder H),
    (same_contents_completed fs1 fs2 _ _ _ H).
  split; [done |]. intros listed Hl. by apply sorted_Permutation.
Qed.

Lemma same_contents_listed : same_contents fs_listed_1 fs_listed_2.
Proof.
  intros p. unfold fs_listed_1, fs_listed_2.
  destruct (decide (p = "INPUT_AI_zanelli_2")) as [-> | H1].
  { rewrite !lookup_insert_eq.
    change ([file "c.png" 900; file "a.png" 900] ++ [file "b.png" 900]
            ≡ₚ [file "b.png" 900] ++ [file "c.png" 900; file "a.png" 900]).
    apply Permutation_app_comm. }
  rewrite !lookup_insert_ne by done.
  destruct (decide (p = "UPSCALED_zanelli_2")) as [-> | H2].
  { rewrite !lookup_singleton_eq. apply perm_swap. }
  by rewrite !lookup_singleton_ne.
Qed.

Lemma missing_frames_deterministic_witness :
  get_missing_frames fs_listed_1 "INPUT_AI_zanelli_2" (Some "UPSCALED_zanelli_2") None None
  = get_missing_frames fs_listed_2 "INPUT_AI_zanelli_2" (Some "UPSCALED_zanelli_2") None None.
Proof.
  exact (proj1 (missing_frames_deterministic fs_listed_1 fs_listed_2
    "INPUT_AI_zanelli_2" (Some "UPSCALED_zanelli_2") None None same_contents_listed)).
Defined.
(** ** The secondary cache *)

Lemma valid_basenames_local (fs1 fs2 : FS) (folder : option string) :
  (forall p, folder = Some p -> fs1 !! p = fs2 !! p) ->
  get_valid_output_basenames fs1 folder = get_valid_output_basenames fs2 folder.
Proof.
  intros H. unfold get_valid_output_basenames, os.path_exists, os.scandir.
  destruct folder as [p|]; [| reflexivity]. by rewrite (H p eq_refl).
Qed.

(** C10. With a secondary cache supplied (the empty set included), the
    union count and the missing-item list do not depend on what the
    secondary directory holds: two file systems that agree on the source
    and on the primary directory give the same results, whatever else
    they contain. *)
Theorem cached_results_ignore_secondary
    (fs1 fs2 : FS) (src_folder : string) (local_folder nas_folder : option string)
    (cache : gset string) :
  fs1 !! src_folder = fs2 !! src_folder ->
  (forall p, local_folder = Some p -> fs1 !! p = fs2 !! p) ->
  count_valid_output_files_union fs1 local_folder nas_folder (Some cache)
  = count_valid_output_files_union fs2 local_folder nas_folder (Some cache)
  /\ get_missing_frames fs1 src_folder local_folder nas_folder (Some cache)
  = get_missing_frames fs2 src_folder local_folder nas_folder (Some cache).
Proof.
  intros Hsrc Hloc. split.
  - unfold count_valid_output_files_union.
    by rewrite (valid_basenames_local fs1 fs2 local_folder Hloc).
  - unfold get_missing_frames, os.path_exists, os.listdir, os.scandir.
    by rewrite Hsrc, (valid_basenames_local fs1 fs2 local_folder Hloc).
Qed.

Lemma cached_results_ignore_secondary_witness :
  count_valid_output_files_union fs_secondary_1 (Some "UPSCALED_zanelli_2")
    (Some "Z:/zanelli\OUTPUT_zanelli_2") (Some ∅)
  = count_valid_output_files_union fs_secondary_2 (Some "UPSCALED_zanelli_2")
    (Some "Z:/zanelli\OUTPUT_zanelli_2") (Some ∅)
  /\ get_missing_frames fs_secondary_1 "INPUT_AI_zanelli_2"
       (Some "UPSCALED_zanelli_2") (Some "Z:/zanelli\OUTPUT_zanelli_2") (Some ∅)
  = get_missing_frames fs_secondary_2 "INPUT_AI_zanelli_2"
       (Some "UPSCALED_zanelli_2") (Some "Z:/zanelli\OUTPUT_zanelli_2") (Some ∅).
Proof.
  apply cached_results_ignore_secondary.
  - vm_compute. reflexivity.
  - intros p [= <-]. vm_compute. reflexivity.
Defined.

(** Without a cache the secondary directory does count. *)
Example uncached_results_read_secondary :
  get_missing_frames fs_secondary_1 "INPUT_AI_zanelli_2"
    (Some "UPSCALED_zanelli_2") (Some "Z:/zanelli\OUTPUT_zanelli_2") None = []
  /\ get_missing_frames fs_secondary_2 "INPUT_AI_zanelli_2"
    (Some "UPSCALED_zanelli_2") (Some "Z:/zanelli\OUTPUT_zanelli_2") None = ["b.png"].
Proof. split; vm_compute; reflexivity. Qed.
(** ** Batch partition *)

Section batches.
Context {A : Type}.
Implicit Types (l : list A) (n i fuel : nat).

Lemma slice_length l i n :
  length (Py.slice l i (i + n)) = (n `min` (length l - i))%nat.
Proof.
  unfold Py.slice. rewrite length_take, length_drop. f_equal. lia.
Qed.

Lemma slice_then_rest l i n :
  Py.slice l i (i + n) ++ drop (i + n) l = drop i l.
Proof.
  unfold Py.slice. replace (i + n - i)%nat with n by lia.
  rewrite <- drop_drop. apply take_drop.
Qed.

(** With enough fuel the slices taken at the indices of the range make
    up the rest of the list. *)
Lemma concat_slices l n fuel i :
  (1 <= n)%nat -> (length l - i <= fuel)%nat ->
  concat (map (fun j => Py.slice l j (j + n)) (Py.range_go fuel i (length l) n))
  = drop i l.
Proof.
  intros Hn. revert i. induction fuel as [|fuel IH]; intros i Hfuel; simpl.
  - symmetry. apply drop_ge. lia.
  - destruct (Nat.ltb_spec i (length l)) as [Hi | Hi]; simpl.
    + rewrite IH by lia. apply slice_then_rest.
    + symmetry. apply drop_ge. lia.
Qed.

Lemma batches_concat l n : (1 <= n)%nat -> concat (batches n l) = l.
Proof.
  intros Hn. unfold batches, Py.range.
  rewrite concat_slices by lia. apply drop_0.
Qed.

Lemma batches_bounded l n : Forall (fun b => (length b <= n)%nat) (batches n l).
Proof.
  unfold batches. apply Forall_forall. intros b Hb.
  apply list_elem_of_In, in_map_iff in Hb as (i & <- & _).
  rewrite slice_length. lia.
Qed.

Lemma batches_sizes l n :
  map length (batches n l)
  = map (fun i => (n `min` (length l - i))%nat) (Py.range (length l) n).
Proof.
  unfold batches. rewrite map_map. apply map_ext. intros i. apply slice_length.
Qed.
End batches.

(** ** Progress monitor *)

Local Open Scope Q_scope.

Lemma Qgtb_spec (a b : Q) : Qgtb a b = true <-> b < a.
Proof.
  unfold Qgtb. rewrite negb_true_iff. split.
  - intros H. apply Qnot_le_lt. intros Hle. apply Qle_bool_iff in Hle. congruence.
  - intros H. destruct (Qle_bool a b) eqn:E; [| done].
    apply Qle_bool_iff in E. apply Qlt_not_le in H. tauto.
Qed.

Lemma Qgtb_false (a b : Q) : Qgtb a b = false <-> a <= b.
Proof.
  unfold Qgtb. rewrite negb_false_iff. apply Qle_bool_iff.
Qed.

(** What a tick that reports has computed. *)
Lemma check_progress_inv (fs : FS) (state : MonitorState) (now : Q)
    (d d' : ProgressDaemon) (r : Report) :
  check_progress fs state now d = (d', Some r) ->
  let count :=
    count_valid_output_files_union fs (_output_folder_local state)
      (_output_folder_nas state) (_nas_cache_basenames state) in
  let instant := inject_Z (count - _last_count d) / (now - _last_check_time d) in
  let avg := ema_update (_avg_speed d) instant in
  let rest := (_total_frames state - count)%Z in
  0 < now - _last_check_time d /\
  d' = {| _avg_speed := Some avg; _last_check_time := now; _last_count := count |} /\
  r = {| current_count := count; total := _total_frames state;
         remaining := if (rest <? 0)%Z then 0%Z else rest;
         percentage :=
           if (0 <? _total_frames state)%Z
           then inject_Z count / inject_Z (_total_frames state) * 100 else 0;
         avg_speed := avg;
         eta_seconds :=
           if Qgtb avg 0.001 then Some (inject_Z (if (rest <? 0)%Z then 0%Z else rest) / avg)
           else None |}.
Proof.
  unfold check_progress. destruct (_output_folder_local state) as [p|]; [| discriminate].
  destruct (negb _ || negb _); [discriminate |].
  destruct (Qle_bool _ 0) eqn:E; [discriminate |].
  intros [= <- <-]. split; [| done].
  apply Qnot_le_lt. intros Hle. apply Qle_bool_iff in Hle. congruence.
Qed.

(** C5, as amended. On the first tick, with no prior average, the average
    is seeded with the instantaneous throughput when that is positive, and
    with the floor [0.1] exactly when it is zero or negative; on every
    later tick the average becomes
    [EMA_ALPHA * instant + (1 - EMA_ALPHA) * previous], with
    [EMA_ALPHA = 0.3]. *)
Theorem ema_seed_and_update (fs : FS) (state : MonitorState) (now : Q)
    (d d' : ProgressDaemon) (r : Report) :
  check_progress fs state now d = (d', Some r) ->
  let instant :=
    inject_Z (current_count r - _last_count d) / (now - _last_check_time d) in
  _avg_speed d' = Some (avg_speed r) /\
  match _avg_speed d with
  | None =>
      (0 < instant -> avg_speed r = instant) /\
      (instant <= 0 -> avg_speed r = 0.1)
  | Some previous =>
      avg_speed r = EMA_ALPHA * instant + (1 - EMA_ALPHA) * previous
  end /\
  EMA_ALPHA == 3 # 10.
Proof.
  intros H. apply check_progress_inv in H as (_ & -> & ->). simpl.
  split; [done |]. split; [| done].
  destruct (_avg_speed d) as [previous|]; simpl; [done |].
  match goal with |- context [Qgtb ?i 0] => set (instant := i) end.
  destruct (Qgtb instant 0) eqn:E.
  - apply Qgtb_spec in E. split; [done |].
    intros Hle. apply Qlt_not_le in E. tauto.
  - apply Qgtb_false in E. split; [| done].
    intros Hlt. apply Qlt_not_le in Hlt. tauto.
Qed.

Lemma ema_seed_and_update_witness :
  exists d' r,
    check_progress (fs_finished 40) (monitoring 100 None) 10
      {| _avg_speed := Some 2; _last_check_time := 0; _last_count := 20 |}
    = (d', Some r) /\
    avg_speed r = EMA_ALPHA * (inject_Z (current_count r - 20) / (10 - 0))
                  + (1 - EMA_ALPHA) * 2.
Proof.
  eexists _, _. split; [vm_compute; reflexivity |].
  refine (proj1 (proj2 (ema_seed_and_update (fs_finished 40) (monitoring 100 None) 10
    {| _avg_speed := Some 2; _last_check_time := 0; _last_count := 20 |} _ _ _))).
  vm_compute. reflexivity.
Defined.

(** C5 as the specification words it fails on a first tick whose
    instantaneous throughput is negative: the average is not seeded with
    it, the floor is taken although the throughput is not zero. *)
Lemma ema_seed_floor_on_negative_speed :
  exists d' r,
    check_progress fs_moved (monitoring 3 (Some ∅)) 300
      {| _avg_speed := None; _last_check_time := 0; _last_count := 3 |}
    = (d', Some r) /\
    let instant := inject_Z (current_count r - 3) / (300 - 0) in
    instant < 0 /\ ~ instant == 0 /\
    avg_speed r = 0.1 /\ ~ avg_speed r == instant.
Proof.
  eexists _, _. split; [vm_compute; reflexivity |].
  vm_compute. repeat split; intros; discriminate.
Qed.
Lemma inject_Z_nonzero (z : Z) : z <> 0%Z -> ~ inject_Z z == 0.
Proof. unfold Qeq. simpl. lia. Qed.

(** C7. On a reporting tick, [remaining = max(0, total - count)];
    the percentage is [100 * count / total], and [0] when [total] is [0];
    the ETA is [remaining / avg] when the average exceeds [0.001] and is
    not determined otherwise.  With [total = 100], [count = 40] and an
    average of [2] the ETA is [30] seconds. *)
Theorem progress_report_arithmetic (fs : FS) (state : MonitorState) (now : Q)
    (d d' : ProgressDaemon) (r : Report) :
  check_progress fs state now d = (d', Some r) ->
  total r = _total_frames state
  /\ current_count r =
       count_valid_output_files_union fs (_output_folder_local state)
         (_output_folder_nas state) (_nas_cache_basenames state)
  /\ remaining r = Z.max 0 (total r - current_count r)
  /\ ((0 < total r)%Z ->
      percentage r == 100 * inject_Z (current_count r) / inject_Z (total r))
  /\ (total r = 0%Z -> percentage r == 0)
  /\ (0.001 < avg_speed r ->
      eta_seconds r = Some (inject_Z (remaining r) / avg_speed r))
  /\ (avg_speed r <= 0.001 -> eta_seconds r = None)
  /\ (total r = 100%Z -> current_count r = 40%Z -> avg_speed r == 2 ->
      exists eta, eta_seconds r = Some eta /\ eta == 30).
Proof.
  intros H. apply check_progress_inv in H as (_ & _ & ->). simpl.
  set (count := count_valid_output_files_union _ _ _ _).
  set (avg := ema_update _ _).
  assert ((if (_total_frames state - count <? 0)%Z then 0%Z
           else (_total_frames state - count)%Z)
          = Z.max 0 (_total_frames state - count)) as ->.
  { destruct (Z.ltb_spec (_total_frames state - count) 0); lia. }
  split; [done |]. split; [done |]. split; [done |].
  split; [| split; [| split; [| split]]].
  - intros Ht. destruct (Z.ltb_spec 0 (_total_frames state)); [| lia].
    field. apply inject_Z_nonzero. lia.
  - intros Ht. rewrite Ht. reflexivity.
  - intros Ha. apply Qgtb_spec in Ha. by rewrite Ha.
  - intros Ha. apply Qgtb_false in Ha. by rewrite Ha.
  - intros Ht Hc Ha. rewrite Ht, Hc.
    assert (Qgtb avg 0.001 = true) as ->.
    { apply Qgtb_spec. rewrite Ha. reflexivity. }
    eexists. split; [reflexivity |]. rewrite Ha. reflexivity.
Qed.

Lemma progress_report_arithmetic_witness :
  exists d' r,
    check_progress (fs_finished 40) (monitoring 100 None) 10
      {| _avg_speed := Some 2; _last_check_time := 0; _last_count := 20 |}
    = (d', Some r) /\
    total r = 100%Z /\ current_count r = 40%Z /\ avg_speed r == 2 /\
    exists eta, eta_seconds r = Some eta /\ eta == 30.
Proof.
  eexists _, _. split; [vm_compute; reflexivity |].
  split; [reflexivity |]. split; [reflexivity |]. split; [reflexivity |].
  refine (proj2 (proj2 (proj2 (proj2 (proj2 (proj2 (proj2
    (progress_report_arithmetic (fs_finished 40) (monitoring 100 None) 10
       {| _avg_speed := Some 2; _last_check_time := 0; _last_count := 20 |}
       _ _ _))))))) _ _ _).
  - vm_compute. reflexivity.
  - reflexivity.
  - reflexivity.
  - reflexivity.
Defined.
Lemma decay_succ (n : nat) :
  (1 - EMA_ALPHA) ^ Z.of_nat (S n) == (1 - EMA_ALPHA) * (1 - EMA_ALPHA) ^ Z.of_nat n.
Proof.
  rewrite Nat2Z.inj_succ. unfold Z.succ.
  rewrite Qpower_plus by (unfold EMA_ALPHA; intros H; discriminate H).
  rewrite Qpower_1_r. ring.
Qed.

Lemma decay_nonneg (n : nat) : 0 <= (1 - EMA_ALPHA) ^ Z.of_nat n.
Proof. apply Qpower_0_le. unfold EMA_ALPHA. discriminate. Qed.

(** The decay is dominated by [7 / (7 + 3 n)]. *)
Lemma decay_bound (n : nat) :
  (1 - EMA_ALPHA) ^ Z.of_nat n * (7 + 3 * inject_Z (Z.of_nat n)) <= 7.
Proof.
  induction n as [|n IH].
  - simpl. discriminate.
  - rewrite decay_succ, Nat2Z.inj_succ. unfold Z.succ. rewrite inject_Z_plus.
    pose proof (decay_nonneg n) as Hp.
    assert (0 <= inject_Z (Z.of_nat n)) as Hk.
    { change 0 with (inject_Z 0). rewrite <- Zle_Qle. lia. }
    set (p := (1 - EMA_ALPHA) ^ Z.of_nat n) in *.
    set (k := inject_Z (Z.of_nat n)) in *.
    assert (0 <= p * k) as Hpk by (apply Qmult_le_0_compat; assumption).
    change (inject_Z 1) with 1. unfold EMA_ALPHA.
    clearbody p k.
    assert ((1 - 0.3) * p * (7 + 3 * (k + 1))
            == p * (7 + 3 * k) - (9 # 10) * (p * k)) as -> by ring.
    set (pk := p * k) in *. clearbody pk. lra.
Qed.

(** One reported tick at throughput [v] moves the average towards [v]. *)
Lemma ema_update_contracts (v previous instant : Q) :
  instant == v ->
  ema_update (Some previous) instant - v == (1 - EMA_ALPHA) * (previous - v).
Proof. intros H. simpl. rewrite H. ring. Qed.

Lemma ema_update_seeds (v instant : Q) :
  0 < v -> instant == v -> ema_update None instant == v.
Proof.
  intros Hv H. simpl.
  assert (Qgtb instant 0 = true) as ->; [| exact H].
  apply Qgtb_spec. by rewrite H.
Qed.

Lemma steady_cons (v : Q) (state : MonitorState) (d : ProgressDaemon)
    (now : Q) (fs : FS) (rest : list (Q * FS)) :
  steady v state d ((now, fs) :: rest) ->
  exists instant,
    instant == v /\
    _avg_speed (check_progress fs state now d).1
      = Some (ema_update (_avg_speed d) instant) /\
    steady v state (check_progress fs state now d).1 rest.
Proof.
  simpl. destruct (check_progress fs state now d) as [d' [r|]] eqn:E; [| tauto].
  intros [Hi Hrest]. apply check_progress_inv in E as (_ & -> & ->).
  simpl in *. eauto.
Qed.

Lemma run_ticks_steady (v : Q) (state : MonitorState) (ticks : list (Q * FS)) :
  forall (d : ProgressDaemon) (avg0 : Q),
    _avg_speed d = Some avg0 -> steady v state d ticks ->
    exists avg, _avg_speed (run_ticks state d ticks) = Some avg /\
      avg - v == (1 - EMA_ALPHA) ^ Z.of_nat (length ticks) * (avg0 - v).
Proof.
  induction ticks as [|[now fs] rest IH]; intros d avg0 Hd Hs.
  - exists avg0. split; [done |]. simpl. ring.
  - apply steady_cons in Hs as (instant & Hi & Havg & Hrest).
    rewrite Hd in Havg.
    destruct (IH _ _ Havg Hrest) as (avg & Hrun & Heq).
    exists avg. split; [exact Hrun |].
    rewrite Heq, (ema_update_contracts v avg0 instant Hi).
    cbn [length]. rewrite decay_succ. ring.
Qed.

Lemma initial_distance_nonneg (v : Q) (d : ProgressDaemon) :
  0 <= initial_distance v d.
Proof.
  unfold initial_distance. destruct (_avg_speed d); [apply Qabs_nonneg | discriminate].
Qed.

Lemma distance_after_ticks (v : Q) (state : MonitorState) (d : ProgressDaemon)
    (ticks : list (Q * FS)) :
  0 < v -> ticks <> [] -> steady v state d ticks ->
  exists avg, _avg_speed (run_ticks state d ticks) = Some avg /\
    Qabs (avg - v)
    == (1 - EMA_ALPHA) ^ Z.of_nat (length ticks) * initial_distance v d.
Proof.
  intros Hv Hne Hs. unfold initial_distance.
  destruct (_avg_speed d) as [avg0|] eqn:Hd.
  - destruct (run_ticks_steady v state ticks d avg0 Hd Hs) as (avg & Hrun & Heq).
    exists avg. split; [exact Hrun |].
    rewrite Heq, Qabs_Qmult, (Qabs_pos _ (decay_nonneg _)). reflexivity.
  - destruct ticks as [|[now fs] rest]; [done |].
    apply steady_cons in Hs as (instant & Hi & Havg & Hrest).
    rewrite Hd in Havg.
    destruct (run_ticks_steady v state rest _ _ Havg Hrest) as (avg & Hrun & Heq).
    exists avg. split; [exact Hrun |].
    rewrite Heq, (ema_update_seeds v instant Hv Hi).
    setoid_replace ((1 - EMA_ALPHA) ^ Z.of_nat (length rest) * (v - v)) with 0
      using relation Qeq by ring.
    rewrite Qmult_0_r. reflexivity.
Qed.

(** The decay gets below every positive bound. *)
Lemma decay_small (D eps : Q) :
  0 <= D -> 0 < eps ->
  exists N : nat, forall n : nat, (N <= n)%nat ->
    (1 - EMA_ALPHA) ^ Z.of_nat n * D < eps.
Proof.
  intros HD He. destruct (Qarchimedean (7 * D / eps)) as [P HP].
  exists (Pos.to_nat P). intros n Hn.
  pose proof (decay_bound n) as Hb. pose proof (decay_nonneg n) as Hp.
  assert (inject_Z (Z.pos P) <= inject_Z (Z.of_nat n)) as Hk.
  { rewrite <- Zle_Qle. lia. }
  assert (0 < inject_Z (Z.pos P)) as HP0.
  { change 0 with (inject_Z 0). rewrite <- Zlt_Qlt. lia. }
  set (p := (1 - EMA_ALPHA) ^ Z.of_nat n) in *. clearbody p.
  set (k := inject_Z (Z.of_nat n)) in *. clearbody k.
  change (Z.pos P # 1) with (inject_Z (Z.pos P)) in HP.
  set (c := inject_Z (Z.pos P)) in *. clearbody c.
  assert (7 * D < c * eps) as H2.
  { apply (Qmult_lt_compat_r _ _ eps He) in HP.
    assert (7 * D / eps * eps == 7 * D) as E by (field; lra).
    by rewrite E in HP. }
  assert (p * (7 + 3 * k) * D <= 7 * D) as H1
    by (apply Qmult_le_compat_r; assumption).
  assert (c * eps <= k * eps) as H3
    by (apply Qmult_le_compat_r; [assumption | lra]).
  apply (Qmult_lt_r _ _ (7 + 3 * k)); [lra |].
  assert (p * D * (7 + 3 * k) == p * (7 + 3 * k) * D) as -> by ring.
  assert (eps * (7 + 3 * k) == 7 * eps + 3 * (k * eps)) as -> by ring.
  set (x := p * (7 + 3 * k) * D) in *. clearbody x.
  set (y := k * eps) in *. clearbody y.
  set (z := c * eps) in *. clearbody z. lra.
Qed.

(** C8. Under the EMA rule, ticks that all measure the same positive
    instantaneous throughput [v] drive the average to [v]: each tick
    shrinks the distance [|avg - v|] by the factor [1 - EMA_ALPHA], after
    [n] ticks it is [(1 - EMA_ALPHA)^n] times the initial distance, and it
    gets below every positive bound. *)
Theorem ema_converges_to_constant_speed (v : Q) (state : MonitorState)
    (d : ProgressDaemon) :
  0 < v ->
  (forall (fs : FS) (now : Q) (d' : ProgressDaemon) (r : Report) (avg0 : Q),
     _avg_speed d = Some avg0 ->
     check_progress fs state now d = (d', Some r) ->
     inject_Z (current_count r - _last_count d) / (now - _last_check_time d) == v ->
     Qabs (avg_speed r - v) == (1 - EMA_ALPHA) * Qabs (avg0 - v))
  /\ (forall ticks : list (Q * FS),
        ticks <> [] -> steady v state d ticks ->
        exists avg, _avg_speed (run_ticks state d ticks) = Some avg /\
          Qabs (avg - v)
          == (1 - EMA_ALPHA) ^ Z.of_nat (length ticks) * initial_distance v d)
  /\ (forall eps : Q, 0 < eps ->
        exists N : nat, forall ticks : list (Q * FS),
          (N <= length ticks)%nat -> ticks <> [] -> steady v state d ticks ->
          exists avg, _avg_speed (run_ticks state d ticks) = Some avg /\
            Qabs (avg - v) < eps).
Proof.
  intros Hv. split; [| split].
  - intros fs now d' r avg0 Hd H Hi.
    apply check_progress_inv in H as (_ & _ & ->).
    cbn [avg_speed current_count] in *. rewrite Hd.
    rewrite (ema_update_contracts v avg0 _ Hi), Qabs_Qmult.
    rewrite (Qabs_pos (1 - EMA_ALPHA)) by (unfold EMA_ALPHA; discriminate).
    reflexivity.
  - intros ticks. apply distance_after_ticks. exact Hv.
  - intros eps He.
    destruct (decay_small (initial_distance v d) eps
                (initial_distance_nonneg v d) He) as [N HN].
    exists N. intros ticks Hlen Hne Hs.
    destruct (distance_after_ticks v state d ticks Hv Hne Hs) as (avg & Hrun & Heq).
    exists avg. split; [exact Hrun |]. rewrite Heq. by apply HN.
Qed.

Lemma ema_converges_to_constant_speed_witness :
  steady 2 (monitoring 100 None)
    {| _avg_speed := Some 12; _last_check_time := 0; _last_count := 0 |}
    [(10, fs_finished 20); (20, fs_finished 40)] /\
  exists avg,
    _avg_speed (run_ticks (monitoring 100 None)
      {| _avg_speed := Some 12; _last_check_time := 0; _last_count := 0 |}
      [(10, fs_finished 20); (20, fs_finished 40)]) = Some avg /\
    Qabs (avg - 2) == (1 - EMA_ALPHA) ^ 2 * Qabs (12 - 2).
Proof.
  assert (steady 2 (monitoring 100 None)
    {| _avg_speed := Some 12; _last_check_time := 0; _last_count := 0 |}
    [(10, fs_finished 20); (20, fs_finished 40)]) as Hs.
  { vm_compute. split; [reflexivity | split; [reflexivity | exact I]]. }
  split; [exact Hs |].
  refine (proj1 (proj2 (ema_converges_to_constant_speed 2 (monitoring 100 None)
    {| _avg_speed := Some 12; _last_check_time := 0; _last_count := 0 |} _))
    [(10, fs_finished 20); (20, fs_finished 40)] _ Hs).
  - reflexivity.
  - discriminate.
Defined.
Local Close Scope Q_scope.

(** ** Shutdown cleanup *)

Lemma find_has_name (l : list DirEntry) (n : string) (e : DirEntry) :
  NoDup (map name l) -> e ∈ l -> name e = n ->
  List.find (os.has_name n) l = Some e.
Proof.
  intros Hnd He Hn. induction l as [|x l IH]; [by apply elem_of_nil in He |].
  simpl in *. apply NoDup_cons in Hnd as [Hx Hnd].
  unfold os.has_name at 1. destruct (String.eqb_spec (name x) n) as [Hxn | Hxn].
  - apply elem_of_cons in He as [-> | He]; [done |].
    exfalso. apply Hx. rewrite Hxn, <- Hn.
    apply list_elem_of_In, in_map, list_elem_of_In, He.
  - apply elem_of_cons in He as [-> | He]; [congruence | auto].
Qed.

Lemma remove_named_length (l : list DirEntry) (n : string) (e : DirEntry) :
  NoDup (map name l) -> e ∈ l -> name e = n ->
  S (length (List.filter (fun x => negb (os.has_name n x)) l)) = length l.
Proof.
  intros Hnd He Hn. induction l as [|x l IH]; [by apply elem_of_nil in He |].
  simpl in *. apply NoDup_cons in Hnd as [Hx Hnd].
  unfold os.has_name at 1. destruct (String.eqb_spec (name x) n) as [Hxn | Hxn]; simpl.
  - f_equal. f_equal. apply forallb_filter_id, forallb_forall.
    intros y Hy. unfold os.has_name.
    destruct (String.eqb_spec (name y) n) as [Hyn | Hyn]; [| done].
    exfalso. apply Hx. rewrite Hxn, <- Hyn.
    apply list_elem_of_In, in_map, Hy.
  - apply elem_of_cons in He as [-> | He]; [congruence |]. f_equal. auto.
Qed.

Lemma incomplete_cons (n : string) (ns : list string) (e : DirEntry) :
  incomplete (n :: ns) e = incomplete [n] e || incomplete ns e.
Proof.
  unfold incomplete. destruct (truncated e); rewrite ?andb_true_r, ?andb_false_r; [| done].
  destruct (decide (name e = n)) as [E | E].
  - assert (name e ∈ n :: ns) as H1 by (rewrite E; apply list_elem_of_here).
    assert (name e ∈ [n]) as H2 by (rewrite E; apply list_elem_of_here).
    by rewrite (bool_decide_eq_true_2 _ H1), (bool_decide_eq_true_2 _ H2).
  - rewrite (bool_decide_eq_false_2 (name e ∈ [n]))
      by (rewrite list_elem_of_singleton; done).
    simpl. apply bool_decide_ext. rewrite elem_of_cons. tauto.
Qed.

Lemma incomplete_single (n : string) (e : DirEntry) :
  incomplete [n] e = os.has_name n e && truncated e.
Proof.
  unfold incomplete, os.has_name. f_equal.
  destruct (String.eqb_spec (name e) n) as [E | E].
  - apply bool_decide_eq_true_2. rewrite E. apply list_elem_of_here.
  - apply bool_decide_eq_false_2. by rewrite list_elem_of_singleton.
Qed.

(** What the removal of one candidate name does to a listing. *)
Lemma cleanup_listing_step (l : list DirEntry) (n : string) :
  NoDup (map name l) ->
  match List.find (os.has_name n) l with
  | Some e =>
      if truncated e
      then List.filter (fun x => negb (os.has_name n x)) l
           = List.filter (fun x => negb (incomplete [n] x)) l
           /\ S (length (List.filter (fun x => negb (incomplete [n] x)) l)) = length l
      else List.filter (fun x => negb (incomplete [n] x)) l = l
  | None => List.filter (fun x => negb (incomplete [n] x)) l = l
  end.
Proof.
  intros Hnd. destruct (List.find (os.has_name n) l) as [e|] eqn:Hf.
  - apply find_some in Hf as [He Hn]. apply list_elem_of_In in He.
    unfold os.has_name in Hn. apply String.eqb_eq in Hn.
    assert (forall x, x ∈ l -> os.has_name n x = true -> x = e) as Huniq.
    { intros x Hx Hxn. unfold os.has_name in Hxn. apply String.eqb_eq in Hxn.
      pose proof (find_has_name l n x Hnd Hx Hxn) as E1.
      pose proof (find_has_name l n e Hnd He Hn) as E2. congruence. }
    destruct (truncated e) eqn:Ht.
    + assert (List.filter (fun x => negb (os.has_name n x)) l
              = List.filter (fun x => negb (incomplete [n] x)) l) as E.
      { apply filter_ext_in. intros x Hx%list_elem_of_In.
        rewrite incomplete_single.
        destruct (os.has_name n x) eqn:Hxn; [| done].
        rewrite (Huniq x Hx Hxn), Ht. done. }
      split; [exact E |]. rewrite <- E. by apply (remove_named_length l n e).
    + apply forallb_filter_id, forallb_forall. intros x Hx%list_elem_of_In.
      rewrite incomplete_single.
      destruct (os.has_name n x) eqn:Hxn; [| done].
      rewrite (Huniq x Hx Hxn), Ht. done.
  - apply forallb_filter_id, forallb_forall. intros x Hx.
    rewrite incomplete_single. by rewrite (find_none _ _ Hf x Hx).
Qed.

Lemma NoDup_names_filter (f : DirEntry -> bool) (l : list DirEntry) :
  NoDup (map name l) -> NoDup (map name (List.filter f l)).
Proof.
  induction l as [|x l IH]; simpl; [done |].
  intros [Hx Hnd]%NoDup_cons. destruct (f x); simpl; [| auto].
  apply NoDup_cons. split; [| auto].
  intros Hin. apply Hx. apply list_elem_of_In, in_map_iff in Hin as (y & Hy & Hin).
  apply filter_In in Hin as [Hin _].
  apply list_elem_of_In, in_map_iff. eauto.
Qed.

Lemma filter_filter_andb {A} (f g : A -> bool) (l : list A) :
  List.filter f (List.filter g l) = List.filter (fun x => g x && f x) l.
Proof.
  induction l as [|x l IH]; simpl; [done |].
  destruct (g x); simpl; [destruct (f x) |]; by rewrite IH.
Qed.

Lemma keep_cons (n : string) (ns : list string) (l : list DirEntry) :
  List.filter (fun x => negb (incomplete ns x))
    (List.filter (fun x => negb (incomplete [n] x)) l)
  = List.filter (fun x => negb (incomplete (n :: ns) x)) l.
Proof.
  rewrite filter_filter_andb. apply filter_ext. intros x.
  by rewrite (incomplete_cons n ns x), negb_orb.
Qed.

(** One candidate name, on a file system whose output directory lists [l]. *)
Lemma cleanup_ext_step (p : string) (fs : FS) (k : nat) (l : list DirEntry)
    (n : string) :
  fs !! p = Some l -> NoDup (map name l) ->
  exists k1 : nat,
    cleanup_ext p "" (fs, k) n
    = (<[p := List.filter (fun x => negb (incomplete [n] x)) l]> fs, k1)
    /\ (k1 + length (List.filter (fun x => negb (incomplete [n] x)) l)
        = k + length l)%nat.
Proof.
  intros Hl Hnd. pose proof (cleanup_listing_step l n Hnd) as Hstep.
  unfold cleanup_ext, os.file_exists, os.getsize, os.scandir, os.remove.
  cbn [fst snd]. rewrite str_app_nil, Hl.
  destruct (List.find (os.has_name n) l) as [e|].
  - unfold truncated in Hstep. destruct (st_size e) as [size|].
    + destruct (size <? MIN_VALID_FILE_SIZE).
      * destruct Hstep as [E Hlen]. exists (S k). rewrite <- E. split; [done |].
        rewrite E. lia.
      * exists k. rewrite Hstep. split; [| done]. by rewrite insert_id.
    + exists k. rewrite Hstep. split; [| done]. by rewrite insert_id.
  - exists k. rewrite Hstep. split; [| done]. by rewrite insert_id.
Qed.

Lemma cleanup_names_spec (p : string) (ns : list string) :
  forall (fs : FS) (k : nat) (l : list DirEntry),
    fs !! p = Some l -> NoDup (map name l) ->
    (foldl (cleanup_ext p "") (fs, k) ns).1
    = <[p := List.filter (fun x => negb (incomplete ns x)) l]> fs
    /\ ((foldl (cleanup_ext p "") (fs, k) ns).2
        + length (List.filter (fun x => negb (incomplete ns x)) l)
        = k + length l)%nat.
Proof.
  induction ns as [|n ns IH]; intros fs k l Hl Hnd.
  - assert (List.filter (fun x => negb (incomplete [] x)) l = l) as ->.
    { apply forallb_filter_id, forallb_forall. intros x _. unfold incomplete.
      rewrite bool_decide_eq_false_2; [done | apply not_elem_of_nil]. }
    simpl. split; [by rewrite insert_id | done].
  - destruct (cleanup_ext_step p fs k l n Hl Hnd) as (k1 & E & Hk1).
    cbn [foldl]. rewrite E.
    destruct (IH (<[p := List.filter (fun x => negb (incomplete [n] x)) l]> fs) k1
                (List.filter (fun x => negb (incomplete [n] x)) l)
                (lookup_insert_eq _ _ _) (NoDup_names_filter _ _ Hnd)) as [E1 E2].
    rewrite keep_cons in E1, E2. rewrite E1, insert_insert_eq. split; [done | lia].
Qed.

Lemma foldl_flat_map {A B C} (f : A -> C -> A) (g : B -> list C) (l : list B) :
  forall acc, foldl f acc (flat_map g l) = foldl (fun a x => foldl f a (g x)) acc l.
Proof.
  induction l as [|x l IH]; intros acc; simpl; [done |].
  by rewrite foldl_app, IH.
Qed.

(** [cleanup_incomplete_files] removes from the listing of the output
    directory exactly the truncated files among its targets, and counts
    them. *)
Lemma cleanup_incomplete_files_spec (fs : FS) (p : string) (l : list DirEntry)
    (batch_files : list string) :
  p <> "" -> fs !! p = Some l -> NoDup (map name l) ->
  (cleanup_incomplete_files fs (Some p) batch_files).1
  = <[p := List.filter
             (fun x => negb (incomplete (cleanup_targets batch_files) x)) l]> fs
  /\ ((cleanup_incomplete_files fs (Some p) batch_files).2
      + length (List.filter
                  (fun x => negb (incomplete (cleanup_targets batch_files) x)) l)
      = length l)%nat.
Proof.
  intros Hp Hl Hnd. unfold cleanup_incomplete_files, truthy, os.path_exists.
  rewrite Hl. destruct (String.eqb_spec p "") as [? | _]; [done |]. simpl.
  assert (foldl (cleanup_file p) (fs, O) batch_files
          = foldl (cleanup_ext p "") (fs, O) (cleanup_targets batch_files)) as ->.
  { unfold cleanup_targets. by rewrite foldl_flat_map. }
  apply (cleanup_names_spec p _ fs O l Hl Hnd).
Qed.

Lemma remove_other (fs : FS) (folder n q : string) :
  q <> folder -> os.remove fs folder n !! q = fs !! q.
Proof.
  intros Hq. unfold os.remove. destruct (fs !! folder); [| done].
  by rewrite lookup_insert_ne.
Qed.

Lemma remove_listing (fs : FS) (folder n : string) (l : list DirEntry) :
  fs !! folder = Some l ->
  os.remove fs folder n !! folder
  = Some (List.filter (fun e => negb (os.has_name n e)) l).
Proof. intros Hl. unfold os.remove. by rewrite Hl, lookup_insert_eq. Qed.

Lemma remove_all_other (s q : string) (ns : list string) :
  q <> s -> forall fs : FS,
  foldl (fun fs f => os.remove fs s f) fs ns !! q = fs !! q.
Proof.
  intros Hq. induction ns as [|n ns IH]; intros fs; simpl; [done |].
  by rewrite IH, remove_other.
Qed.

Lemma remove_all_listing (s : string) (ns : list string) :
  forall (fs : FS) (l : list DirEntry),
    fs !! s = Some l ->
    foldl (fun fs f => os.remove fs s f) fs ns !! s
    = Some (List.filter (fun e => negb (bool_decide (name e ∈ ns))) l).
Proof.
  induction ns as [|n ns IH]; intros fs l Hl; cbn [foldl].
  - rewrite Hl. f_equal. symmetry. apply forallb_filter_id, forallb_forall.
    intros x _. rewrite bool_decide_eq_false_2; [done | apply not_elem_of_nil].
  - rewrite (IH _ _ (remove_listing fs s n l Hl)), filter_filter_andb.
    f_equal. apply filter_ext. intros x. unfold os.has_name.
    destruct (String.eqb_spec (name x) n) as [E | E]; cbn [negb andb].
    + symmetry. rewrite bool_decide_eq_true_2; [done |].
      rewrite E. apply list_elem_of_here.
    + f_equal. apply bool_decide_ext. rewrite elem_of_cons. tauto.
Qed.

Lemma foldl_other {A} (step : FS -> A -> FS) (q : string) (xs : list A) :
  (forall fs x, step fs x !! q = fs !! q) ->
  forall fs, foldl step fs xs !! q = fs !! q.
Proof.
  intros Hstep. induction xs as [|x xs IH]; intros fs; simpl; [done |].
  by rewrite IH, Hstep.
Qed.

Lemma cleanup_staging_other (fs : FS) (s q : string) :
  q <> s -> cleanup_staging fs s !! q = fs !! q.
Proof.
  intros Hq. unfold cleanup_staging. destruct (os.path_exists fs s); [| done].
  apply foldl_other. intros fs' f. unfold os.remove_or_raise.
  destruct (os.file_exists fs' s f); [by apply remove_other | done].
Qed.

Lemma find_filter_other (l : list DirEntry) (n m : string) :
  m <> n ->
  List.find (os.has_name m) (List.filter (fun e => negb (os.has_name n e)) l)
  = List.find (os.has_name m) l.
Proof.
  intros Hne. induction l as [|e l IH]; [done |]. cbn [List.filter List.find].
  destruct (os.has_name n e) eqn:En; cbn [negb List.find].
  - destruct (os.has_name m e) eqn:Em; [| exact IH].
    unfold os.has_name in En, Em.
    apply String.eqb_eq in En, Em. congruence.
  - destruct (os.has_name m e); [done | exact IH].
Qed.

Lemma filter_none {A} (f : A -> bool) (l : list A) :
  (forall x, x ∈ l -> f x = false) -> List.filter f l = [].
Proof.
  induction l as [|x l IH]; intros H; [done |]. cbn [List.filter].
  rewrite (H x (list_elem_of_here _ _)). apply IH.
  intros y Hy. by apply H, list_elem_of_further.
Qed.

Lemma file_exists_remove_other (fs : FS) (folder n m : string) :
  m <> n ->
  os.file_exists (os.remove fs folder n) folder m = os.file_exists fs folder m.
Proof.
  intros Hne. unfold os.file_exists, os.getsize, os.scandir, os.remove.
  destruct (fs !! folder) as [l|] eqn:Hl; [| by rewrite Hl].
  by rewrite lookup_insert_eq, find_filter_other.
Qed.

(** What the removals of [cleanup_staging] leave of a listing: the
    entries whose names are not tried, or cannot be removed. *)
Lemma remove_what_it_can (s : string) (ns : list string) :
  forall (fs : FS) (l : list DirEntry),
    fs !! s = Some l ->
    foldl (fun fs f =>
             match os.remove_or_raise fs s f with
             | Some fs' => fs'
             | None => fs
             end) fs ns !! s
    = Some (List.filter
              (fun e => negb (bool_decide (name e ∈ ns)
                              && os.file_exists fs s (name e))) l).
Proof.
  induction ns as [|n ns IH]; intros fs l Hl; cbn [foldl].
  - rewrite Hl. f_equal. symmetry. apply forallb_filter_id, forallb_forall.
    intros x _. rewrite bool_decide_eq_false_2; [done | apply not_elem_of_nil].
  - unfold os.remove_or_raise at 2.
    destruct (os.file_exists fs s n) eqn:Hex.
    + rewrite (IH _ _ (remove_listing fs s n l Hl)), filter_filter_andb.
      f_equal. apply filter_ext. intros x. unfold os.has_name.
      destruct (String.eqb_spec (name x) n) as [E | E]; cbn [negb andb].
      * symmetry. rewrite bool_decide_eq_true_2 by (rewrite E; apply list_elem_of_here).
        by rewrite E, Hex.
      * rewrite file_exists_remove_other by done.
        do 2 f_equal. apply bool_decide_ext. rewrite elem_of_cons. tauto.
    + rewrite (IH _ _ Hl). f_equal. apply filter_ext. intros x.
      destruct (decide (name x = n)) as [E | E].
      * rewrite E, Hex, !andb_false_r. done.
      * do 2 f_equal. apply bool_decide_ext. rewrite elem_of_cons. tauto.
Qed.

(** [cleanup_staging] leaves in the directory exactly the entries it
    cannot remove. *)
Lemma cleanup_staging_scandir (fs : FS) (s : string) :
  os.scandir (cleanup_staging fs s) s = List.filter (stuck fs s) (os.scandir fs s).
Proof.
  unfold cleanup_staging, os.path_exists, os.listdir, os.scandir.
  destruct (fs !! s) as [l|] eqn:Hl; [| by rewrite Hl].
  rewrite (remove_what_it_can s _ fs l Hl). apply filter_ext_in.
  intros e He. unfold stuck. rewrite bool_decide_eq_true_2; [done |].
  by apply list_elem_of_In, in_map.
Qed.

Lemma cleanup_staging_exists (fs : FS) (s : string) :
  os.path_exists (cleanup_staging fs s) s = os.path_exists fs s.
Proof.
  unfold cleanup_staging, os.path_exists, os.listdir, os.scandir.
  destruct (fs !! s) as [l|] eqn:Hl; [| by rewrite Hl].
  by rewrite (remove_what_it_can s _ fs l Hl).
Qed.

(** A listed name all of whose entries can be stat-ed exists. *)
Lemma listed_file_exists (fs : FS) (folder : string) (e : DirEntry) :
  (forall x, x ∈ os.scandir fs folder -> is_Some (st_size x)) ->
  e ∈ os.scandir fs folder -> os.file_exists fs folder (name e) = true.
Proof.
  intros Hstat He. unfold os.file_exists, os.getsize.
  destruct (List.find (os.has_name (name e)) (os.scandir fs folder)) as [x|] eqn:Hf.
  - apply find_some in Hf as [Hx _]. apply list_elem_of_In in Hx.
    by destruct (Hstat x Hx) as [size ->].
  - apply list_elem_of_In in He. apply (find_none _ _ Hf) in He.
    unfold os.has_name in He. by rewrite String.eqb_refl in He.
Qed.

(** A directory all of whose entries can be removed is emptied. *)
Lemma cleanup_staging_empty (fs : FS) (s : string) :
  (forall e, e ∈ os.scandir fs s -> is_Some (st_size e)) ->
  os.scandir (cleanup_staging fs s) s = [].
Proof.
  intros Hstat. rewrite cleanup_staging_scandir. apply filter_none.
  intros e He. unfold stuck. by rewrite listed_file_exists.
Qed.

Lemma graceful_shutdown_disk (w : World) :
  disk (graceful_shutdown w)
  = match _current_batch (monitor_state w) with
    | [] => cleanup_staging (disk w) STAGING_DIR
    | _ :: _ =>
        (cleanup_incomplete_files (cleanup_staging (disk w) STAGING_DIR)
           (_output_folder_local (monitor_state w))
           (_current_batch (monitor_state w))).1
    end.
Proof.
  unfold graceful_shutdown.
  destruct w as [fs ms [[| |]|] k j]; destruct ms as [? ? ? ? ? ? [|b bs]];
    reflexivity.
Qed.

Lemma graceful_shutdown_stops (w : World) : running (graceful_shutdown w) = false.
Proof.
  unfold graceful_shutdown, running.
  destruct w as [fs ms [[| |]|] k j]; destruct ms as [? ? ? ? ? ? [|b bs]];
    reflexivity.
Qed.

Lemma elem_of_cleanup_targets (batch_files : list string) (n : string) :
  n ∈ cleanup_targets batch_files <->
  exists filename ext,
    filename ∈ batch_files /\ (ext = ".png" \/ ext = ".jpg") /\
    n = (Py.splitext filename).1 +:+ ext.
Proof.
  unfold cleanup_targets. rewrite list_elem_of_In, in_flat_map. split.
  - intros (f & Hf & Hn). simpl in Hn. exists f.
    destruct Hn as [<- | [<- | []]]; [exists ".png" | exists ".jpg"];
      rewrite list_elem_of_In; auto.
  - intros (f & ext & Hf & Hext & ->). exists f. rewrite <- list_elem_of_In.
    split; [done |]. simpl. destruct Hext as [-> | ->]; auto.
Qed.

Lemma incomplete_spec (names : list string) (e : DirEntry) :
  incomplete names e = true <->
  name e ∈ names /\ exists size, st_size e = Some size /\ (size < MIN_VALID_FILE_SIZE)%Z.
Proof.
  unfold incomplete, truncated. rewrite andb_true_iff, bool_decide_eq_true.
  destruct (st_size e) as [size|].
  - rewrite Z.ltb_lt. split; [intros [? ?]; eauto |].
    intros [? (sz & [= <-] & ?)]. done.
  - split; [intros [_ ?]; discriminate | intros [_ (sz & ? & _)]; discriminate].
Qed.

(** C2. Shutdown cleanup with a non-empty current batch works on the
    primary output directory only.  A file of that directory is deleted
    exactly when it is the output of a batch item (the stem of the item
    under [.png] or [.jpg]) and its size is below [MIN_VALID_FILE_SIZE]:
    files of at least that size stay, files that belong to no batch item
    stay.  Every other directory except the staging area, the secondary
    location among them, is left as it was; the staging area keeps only
    the entries that could not be removed, none when all its entries can
    be stat-ed, and the running flag is cleared. *)
Theorem shutdown_cleanup_purges_primary_only (w : World) (p : string)
    (l : list DirEntry) :
  let state := monitor_state w in
  let batch := _current_batch state in
  let w' := graceful_shutdown w in
  let is_target (e : DirEntry) :=
    exists filename ext,
      filename ∈ batch /\ (ext = ".png" \/ ext = ".jpg") /\
      name e = (Py.splitext filename).1 +:+ ext in
  let is_truncated (e : DirEntry) :=
    exists size, st_size e = Some size /\ (size < MIN_VALID_FILE_SIZE)%Z in
  batch <> [] ->
  _output_folder_local state = Some p -> p <> "" -> p <> STAGING_DIR ->
  disk w !! p = Some l -> NoDup (map name l) ->
  (forall e, e ∈ os.scandir (disk w') p <->
             e ∈ l /\ ~ (is_target e /\ is_truncated e))
  /\ (forall e size, e ∈ l -> st_size e = Some size ->
        (MIN_VALID_FILE_SIZE <= size)%Z -> e ∈ os.scandir (disk w') p)
  /\ (forall e, e ∈ l -> ~ is_target e -> e ∈ os.scandir (disk w') p)
  /\ (forall q, q <> p -> q <> STAGING_DIR -> disk w' !! q = disk w !! q)
  /\ (forall nas, _output_folder_nas state = Some nas ->
        nas <> p -> nas <> STAGING_DIR -> disk w' !! nas = disk w !! nas)
  /\ os.scandir (disk w') STAGING_DIR
     = List.filter (stuck (disk w) STAGING_DIR) (os.scandir (disk w) STAGING_DIR)
  /\ ((forall e, e ∈ os.scandir (disk w) STAGING_DIR -> is_Some (st_size e)) ->
      os.scandir (disk w') STAGING_DIR = [])
  /\ running w' = false.
Proof.
  intros state batch w' is_target is_truncated Hbatch Hp Hne Hstag Hl Hnd.
  assert (disk w' =
    <[p := List.filter (fun x => negb (incomplete (cleanup_targets batch) x)) l]>
      (cleanup_staging (disk w) STAGING_DIR)) as Hdisk.
  { subst w'. rewrite graceful_shutdown_disk. fold state. fold batch.
    destruct batch as [|b bs] eqn:Eb; [done |]. rewrite <- Eb, Hp.
    apply (cleanup_incomplete_files_spec _ p l batch Hne); [| exact Hnd].
    by rewrite cleanup_staging_other. }
  assert (forall e, e ∈ os.scandir (disk w') p <->
                    e ∈ l /\ ~ (is_target e /\ is_truncated e)) as Hmain.
  { intros e. unfold os.scandir. rewrite Hdisk, lookup_insert_eq.
    rewrite list_elem_of_In, filter_In, <- list_elem_of_In, negb_true_iff.
    rewrite <- not_true_iff_false, incomplete_spec, elem_of_cleanup_targets.
    reflexivity. }
  assert (os.scandir (disk w') STAGING_DIR
          = os.scandir (cleanup_staging (disk w) STAGING_DIR) STAGING_DIR) as Hstaging.
  { unfold os.scandir. by rewrite Hdisk, lookup_insert_ne. }
  split; [exact Hmain |].
  split; [| split; [| split; [| split; [| split; [| split]]]]].
  - intros e size He Hsz Hle. apply Hmain. split; [done |].
    intros [_ (sz & Hsz' & Hlt)]. rewrite Hsz in Hsz'. injection Hsz' as <-. lia.
  - intros e He Hnt. apply Hmain. tauto.
  - intros q Hq Hqs. rewrite Hdisk, lookup_insert_ne by done.
    by apply cleanup_staging_other.
  - intros nas _ Hq Hqs. rewrite Hdisk, lookup_insert_ne by done.
    by apply cleanup_staging_other.
  - rewrite Hstaging. apply cleanup_staging_scandir.
  - intros Hstat. rewrite Hstaging. by apply cleanup_staging_empty.
  - apply graceful_shutdown_stops.
Qed.

Example crash_safety_scenario :
  map_to_list (disk (graceful_shutdown world_interrupted))
  = map_to_list
      ({[ "UPSCALED_zanelli_2" := [file "f1.png" 60000];
          "Z:/zanelli\OUTPUT_zanelli_2" := [file "f3.png" 60000];
          STAGING_DIR := [] ]} : FS)
  /\ current_process (graceful_shutdown world_interrupted) = Some Terminated.
Proof. split; vm_compute; reflexivity. Qed.

Lemma shutdown_cleanup_purges_primary_only_witness :
  (forall e, e ∈ os.scandir (disk (graceful_shutdown world_interrupted))
                 "UPSCALED_zanelli_2" <->
             e ∈ [file "f1.png" 60000; file "f2.png" 100] /\
             ~ ((exists filename ext,
                   filename ∈ ["f1.png"; "f2.png"] /\
                   (ext = ".png" \/ ext = ".jpg") /\
                   name e = (Py.splitext filename).1 +:+ ext) /\
                exists size, st_size e = Some size /\ (size < MIN_VALID_FILE_SIZE)%Z))
  /\ disk (graceful_shutdown world_interrupted) !! "Z:/zanelli\OUTPUT_zanelli_2"
     = disk world_interrupted !! "Z:/zanelli\OUTPUT_zanelli_2".
Proof.
  assert (["f1.png"; "f2.png"] <> []) as H1 by discriminate.
  assert ("UPSCALED_zanelli_2" <> "") as H2 by discriminate.
  assert ("UPSCALED_zanelli_2" <> STAGING_DIR) as H3 by (vm_compute; discriminate).
  assert (disk world_interrupted !! "UPSCALED_zanelli_2"
          = Some [file "f1.png" 60000; file "f2.png" 100]) as H4
    by (vm_compute; reflexivity).
  assert (NoDup (map name [file "f1.png" 60000; file "f2.png" 100])) as H5
    by compute_done.
  pose proof (shutdown_cleanup_purges_primary_only world_interrupted
    "UPSCALED_zanelli_2" [file "f1.png" 60000; file "f2.png" 100]
    H1 eq_refl H2 H3 H4 H5) as (Hmain & _ & _ & _ & Hnas & _).
  split; [exact Hmain |].
  apply (Hnas _ eq_refl); [discriminate | vm_compute; discriminate].
Defined.
(** ** The pipeline: failures of the external transform *)


Local Open Scope nat_scope.

Lemma logged_batches_app (j1 j2 : list Event) :
  logged_batches (j1 ++ j2) = logged_batches j1 ++ logged_batches j2.
Proof. unfold logged_batches. apply flat_map_app. Qed.

Lemma for_batches_or_raise_stopped (esrgan : Esrgan)
    (input_folder output_folder_local : string)
    (missing_files : list string) (indices : list nat) (w : World) :
  running w = false ->
  for_batches_or_raise esrgan input_folder output_folder_local missing_files
    indices w = (w, false).
Proof. intros H. destruct indices; simpl; [done | by rewrite H]. Qed.

Lemma for_batches_stopped (esrgan : Esrgan) (input_folder output_folder_local : string)
    (missing_files : list string) (indices : list nat) (w : World) :
  running w = false ->
  for_batches esrgan input_folder output_folder_local missing_files indices w = w.
Proof.
  intros H. unfold for_batches. by rewrite for_batches_or_raise_stopped.
Qed.

Lemma for_folders_or_raise_stopped (esrgan : Esrgan) (dirs : list string) (w : World) :
  running w = false -> for_folders_or_raise esrgan dirs w = (w, false).
Proof. intros H. destruct dirs; simpl; [done | by rewrite H]. Qed.

Lemma for_folders_stopped (esrgan : Esrgan) (dirs : list string) (w : World) :
  running w = false -> for_folders esrgan dirs w = w.
Proof.
  intros H. unfold for_folders. by rewrite for_folders_or_raise_stopped.
Qed.

(** One turn of the batch loop: by the outcome of the staging, then by
    the outcome of the launch. *)
Lemma for_batches_or_raise_cons (esrgan : Esrgan)
    (input_folder output_folder_local : string)
    (missing_files : list string) (i : nat) (rest : list nat) (w : World) :
  running w = true ->
  let w1 := staged_for input_folder missing_files i w in
  let r := esrgan (launches w1) (os.scandir (disk w1) STAGING_DIR) in
  for_batches_or_raise esrgan input_folder output_folder_local missing_files
    (i :: rest) w
  = if staging_raises input_folder missing_files i w then (w1, true)
    else
      match outcome r with
      | Raises =>
          (with_state (set_running false) (log LogLaunchError (launched w1)), false)
      | Returns returncode =>
          for_batches_or_raise esrgan input_folder output_folder_local
            missing_files rest
            (returned_from output_folder_local
               (Py.slice missing_files i (i + BATCH_SIZE)) r returncode w1)
      end.
Proof. intros H. cbn [for_batches_or_raise]. rewrite H. reflexivity. Qed.

(** The turn of a batch whose staging raises: the loop is left with the
    batch logged and registered and the files staged so far. *)
Lemma for_batches_or_raise_raised (esrgan : Esrgan)
    (input_folder output_folder_local : string)
    (missing_files : list string) (i : nat) (rest : list nat) (w : World) :
  running w = true -> staging_raises input_folder missing_files i w = true ->
  for_batches_or_raise esrgan input_folder output_folder_local missing_files
    (i :: rest) w
  = (staged_for input_folder missing_files i w, true).
Proof. intros H Hs. rewrite for_batches_or_raise_cons by done. by rewrite Hs. Qed.

(** The turn of a batch that is staged, by the outcome of the launch. *)
Lemma for_batches_or_raise_staged (esrgan : Esrgan)
    (input_folder output_folder_local : string)
    (missing_files : list string) (i : nat) (rest : list nat) (w : World) :
  running w = true -> staging_raises input_folder missing_files i w = false ->
  let w1 := staged_for input_folder missing_files i w in
  let r := esrgan (launches w1) (os.scandir (disk w1) STAGING_DIR) in
  for_batches_or_raise esrgan input_folder output_folder_local missing_files
    (i :: rest) w
  = match outcome r with
    | Raises =>
        (with_state (set_running false) (log LogLaunchError (launched w1)), false)
    | Returns returncode =>
        for_batches_or_raise esrgan input_folder output_folder_local
          missing_files rest
          (returned_from output_folder_local
             (Py.slice missing_files i (i + BATCH_SIZE)) r returncode w1)
    end.
Proof. intros H Hs. rewrite for_batches_or_raise_cons by done. by rewrite Hs. Qed.

Lemma for_batches_raised (esrgan : Esrgan) (input_folder output_folder_local : string)
    (missing_files : list string) (i : nat) (rest : list nat) (w : World) :
  running w = true -> staging_raises input_folder missing_files i w = true ->
  for_batches esrgan input_folder output_folder_local missing_files (i :: rest) w
  = staged_for input_folder missing_files i w.
Proof.
  intros H Hs. unfold for_batches. by rewrite for_batches_or_raise_raised.
Qed.

Lemma for_batches_cons (esrgan : Esrgan) (input_folder output_folder_local : string)
    (missing_files : list string) (i : nat) (rest : list nat) (w : World) :
  running w = true -> staging_raises input_folder missing_files i w = false ->
  let w1 := staged_for input_folder missing_files i w in
  let r := esrgan (launches w1) (os.scandir (disk w1) STAGING_DIR) in
  for_batches esrgan input_folder output_folder_local missing_files (i :: rest) w
  = match outcome r with
    | Raises => with_state (set_running false) (log LogLaunchError (launched w1))
    | Returns returncode =>
        for_batches esrgan input_folder output_folder_local missing_files rest
          (returned_from output_folder_local
             (Py.slice missing_files i (i + BATCH_SIZE)) r returncode w1)
    end.
Proof.
  intros H Hs. unfold for_batches. rewrite for_batches_or_raise_staged by done.
  cbv zeta. by destruct (outcome _).
Qed.

Lemma staged_for_facts (input_folder : string) (missing_files : list string)
    (i : nat) (w : World) :
  launches (staged_for input_folder missing_files i w) = launches w /\
  running (staged_for input_folder missing_files i w) = running w.
Proof. done. Qed.

Lemma returned_from_facts (output_folder_local : string) (batch : list string)
    (r : Response) (returncode : Z) (w : World) :
  launches (returned_from output_folder_local batch r returncode w) = S (launches w) /\
  running (returned_from output_folder_local batch r returncode w) = running w.
Proof. unfold returned_from. by destruct (negb (returncode =? 0)%Z). Qed.

(** A loop that ends by an exception ends with the running flag set:
    nothing has cleared it, and nothing will. *)
Lemma for_batches_raise_running (esrgan : Esrgan)
    (input_folder output_folder_local : string)
    (missing_files : list string) (indices : list nat) :
  forall w : World,
    (for_batches_or_raise esrgan input_folder output_folder_local missing_files
       indices w).2 = true ->
    running (for_batches esrgan input_folder output_folder_local missing_files
               indices w) = true.
Proof.
  unfold for_batches.
  induction indices as [|i rest IH]; intros w; [discriminate |].
  destruct (running w) eqn:Hrun.
  2:{ by rewrite for_batches_or_raise_stopped. }
  rewrite for_batches_or_raise_cons by done. cbv zeta.
  destruct (staging_raises input_folder missing_files i w); [done |].
  destruct (outcome _); [discriminate | apply IH].
Qed.

(** One turn of the folder loop. *)
Lemma for_folders_or_raise_cons (esrgan : Esrgan) (input_folder : string)
    (rest : list string) (w : World) :
  for_folders_or_raise esrgan (input_folder :: rest) w
  = if negb (running w) then (w, false)
    else if negb (os.path_exists (disk w) input_folder)
    then for_folders_or_raise esrgan rest w
    else
      let turn := folder_turn esrgan input_folder w in
      if turn.2 then turn else for_folders_or_raise esrgan rest turn.1.
Proof.
  assert (forall (c : bool) (x : World) (y : World * bool)
                 (f : World -> World * bool),
            (if c then f x else if y.2 then y else f y.1)
            = (let turn := if c then (x, false) else y in
               if turn.2 then turn else f turn.1)) as Hif
    by (by intros []).
  cbn [for_folders_or_raise].
  destruct (negb (running w)); [done |].
  destruct (negb (os.path_exists (disk w) input_folder)); [done |].
  exact (Hif (length (missing_for input_folder (analysed input_folder w)) =? 0)
           (log LogFolderComplete (analysed input_folder w))
           (for_batches_or_raise esrgan input_folder
              (Py.replace input_folder "INPUT_AI" "UPSCALED")
              (missing_for input_folder (analysed input_folder w))
              (Py.range (length (missing_for input_folder (analysed input_folder w)))
                 BATCH_SIZE)
              (log (LogMissing
                      (length (missing_for input_folder (analysed input_folder w))))
                 (analysed input_folder w)))
           (for_folders_or_raise esrgan rest)).
Qed.

Lemma for_folders_cons (esrgan : Esrgan) (input_folder : string)
    (rest : list string) (w : World) :
  for_folders esrgan (input_folder :: rest) w
  = if negb (running w) then w
    else if negb (os.path_exists (disk w) input_folder)
    then for_folders esrgan rest w
    else
      let turn := folder_turn esrgan input_folder w in
      if turn.2 then turn.1 else for_folders esrgan rest turn.1.
Proof.
  unfold for_folders. rewrite for_folders_or_raise_cons.
  destruct (negb (running w)); [done |].
  destruct (negb (os.path_exists (disk w) input_folder)); [done |].
  cbv zeta. by destruct (folder_turn esrgan input_folder w).2.
Qed.

(** The turn of a folder, by what the analysis finds. *)
Lemma folder_turn_eq (esrgan : Esrgan) (input_folder : string) (w : World) :
  let wa := analysed input_folder w in
  let missing_files := missing_for input_folder wa in
  folder_turn esrgan input_folder w
  = if length missing_files =? 0 then (log LogFolderComplete wa, false)
    else
      for_batches_or_raise esrgan input_folder
        (Py.replace input_folder "INPUT_AI" "UPSCALED") missing_files
        (Py.range (length missing_files) BATCH_SIZE)
        (log (LogMissing (length missing_files)) wa).
Proof. reflexivity. Qed.

Lemma analysed_facts (input_folder : string) (w : World) :
  launches (analysed input_folder w) = launches w
  /\ running (analysed input_folder w) = running w
  /\ logged_batches (journal (analysed input_folder w))
     = logged_batches (journal w)
  /\ forall q, q <> Py.replace input_folder "INPUT_AI" "UPSCALED" ->
       disk (analysed input_folder w) !! q = disk w !! q.
Proof.
  unfold analysed. cbv zeta.
  destruct (negb (os.path_exists (disk w)
                    (Py.replace input_folder "INPUT_AI" "UPSCALED")));
    cbn [launches running journal disk monitor_state log with_state with_disk
         _running set_nas_cache update_folder];
    rewrite logged_batches_app; simpl; rewrite app_nil_r;
    repeat split; try done.
  intros q Hq. unfold os.makedirs. by rewrite lookup_insert_ne.
Qed.

Lemma folder_turn_raise_running (esrgan : Esrgan) (input_folder : string) (w : World) :
  (folder_turn esrgan input_folder w).2 = true ->
  running (folder_turn esrgan input_folder w).1 = true.
Proof.
  rewrite folder_turn_eq. cbv zeta. destruct (length _ =? 0); [discriminate |].
  apply for_batches_raise_running.
Qed.

Lemma for_folders_raise_running (esrgan : Esrgan) (dirs : list string) :
  forall w : World,
    (for_folders_or_raise esrgan dirs w).2 = true ->
    running (for_folders esrgan dirs w) = true.
Proof.
  unfold for_folders.
  induction dirs as [|input_folder rest IH]; intros w; [discriminate |].
  rewrite for_folders_or_raise_cons.
  destruct (negb (running w)); [discriminate |].
  destruct (negb (os.path_exists (disk w) input_folder)); [apply IH |].
  cbv zeta. destruct (folder_turn esrgan input_folder w).2 eqn:Ht.
  - intros _. by apply folder_turn_raise_running.
  - apply IH.
Qed.

(** The run, by the way the folder loop ends. *)
Lemma run_smart_upscaling_or_raise_eq (esrgan : Esrgan) (w : World) :
  run_smart_upscaling_or_raise esrgan w
  = if (for_folders_or_raise esrgan INPUT_DIRS (prepared w)).2
    then (for_folders esrgan INPUT_DIRS (prepared w), true)
    else
      (log LogFinished
         (with_state (set_running false)
            (for_folders esrgan INPUT_DIRS (prepared w))), false).
Proof.
  unfold run_smart_upscaling_or_raise, for_folders. cbv zeta.
  change (if negb (os.path_exists (disk w) STAGING_DIR)
          then with_disk (os.makedirs (disk w) STAGING_DIR) w
          else with_disk (cleanup_staging (disk w) STAGING_DIR) w)
    with (prepared w).
  destruct (for_folders_or_raise esrgan INPUT_DIRS (prepared w)) as [w' []];
    reflexivity.
Qed.

Lemma run_smart_upscaling_eq (esrgan : Esrgan) (w : World) :
  run_smart_upscaling esrgan w
  = if (for_folders_or_raise esrgan INPUT_DIRS (prepared w)).2
    then for_folders esrgan INPUT_DIRS (prepared w)
    else
      log LogFinished
        (with_state (set_running false)
           (for_folders esrgan INPUT_DIRS (prepared w))).
Proof.
  unfold run_smart_upscaling. rewrite run_smart_upscaling_or_raise_eq.
  destruct (for_folders_or_raise esrgan INPUT_DIRS (prepared w)).2; reflexivity.
Qed.

Lemma disk_log (e : Event) (w : World) : disk (log e w) = disk w.
Proof. reflexivity. Qed.
Lemma disk_with_state (f : MonitorState -> MonitorState) (w : World) :
  disk (with_state f w) = disk w.
Proof. reflexivity. Qed.
Lemma launches_log (e : Event) (w : World) : launches (log e w) = launches w.
Proof. reflexivity. Qed.
Lemma launches_with_state (f : MonitorState -> MonitorState) (w : World) :
  launches (with_state f w) = launches w.
Proof. reflexivity. Qed.
Lemma journal_log (e : Event) (w : World) : journal (log e w) = journal w ++ [e].
Proof. reflexivity. Qed.
Lemma journal_with_state (f : MonitorState -> MonitorState) (w : World) :
  journal (with_state f w) = journal w.
Proof. reflexivity. Qed.

(** The run changes the disk and launches the transform in the folder
    loop only. *)
Lemma run_disk (esrgan : Esrgan) (w : World) :
  disk (run_smart_upscaling esrgan w)
  = disk (for_folders esrgan INPUT_DIRS (prepared w)).
Proof.
  rewrite run_smart_upscaling_eq.
  destruct (for_folders_or_raise esrgan INPUT_DIRS (prepared w)).2;
    [reflexivity |].
  rewrite disk_log, disk_with_state. reflexivity.
Qed.

Lemma run_launches (esrgan : Esrgan) (w : World) :
  launches (run_smart_upscaling esrgan w)
  = launches (for_folders esrgan INPUT_DIRS (prepared w)).
Proof.
  rewrite run_smart_upscaling_eq.
  destruct (for_folders_or_raise esrgan INPUT_DIRS (prepared w)).2;
    [reflexivity |].
  rewrite launches_log, launches_with_state. reflexivity.
Qed.

Lemma fatal_between_refl (esrgan : Esrgan) (w : World) : fatal_between esrgan w w.
Proof. split; [done |]. intros k Hk. lia. Qed.

Lemma fatal_between_trans (esrgan : Esrgan) (w1 w2 w3 : World) :
  fatal_between esrgan w1 w2 -> fatal_between esrgan w2 w3 ->
  (running w2 = false -> w3 = w2) ->
  fatal_between esrgan w1 w3.
Proof.
  intros [H12 F12] [H23 F23] Hstop. split; [lia |]. intros k Hk Hr.
  destruct (Nat.lt_ge_cases k (launches w2)) as [Hlt | Hge].
  - destruct (F12 k ltac:(lia) Hr) as (E & Hrun & Hj).
    rewrite (Hstop Hrun). auto.
  - apply F23; [lia | done].
Qed.

Lemma fatal_between_no_launch (esrgan : Esrgan) (w w' : World) :
  launches w' = launches w -> fatal_between esrgan w w'.
Proof. intros H. split; [lia |]. intros k Hk. lia. Qed.

Lemma fatal_between_same_start (esrgan : Esrgan) (w0 w w' : World) :
  launches w0 = launches w -> fatal_between esrgan w0 w' -> fatal_between esrgan w w'.
Proof. intros H [Hle F]. split; [lia |]. intros k Hk. apply F. lia. Qed.

Lemma for_batches_fatal (esrgan : Esrgan) (input_folder output_folder_local : string)
    (missing_files : list string) (indices : list nat) :
  forall w : World,
    fatal_between esrgan w
      (for_batches esrgan input_folder output_folder_local missing_files indices w).
Proof.
  induction indices as [|i rest IH]; intros w; [apply fatal_between_refl |].
  destruct (running w) eqn:Hrun.
  2:{ rewrite for_batches_stopped by done. apply fatal_between_refl. }
  destruct (staging_raises input_folder missing_files i w) eqn:Hst.
  { rewrite for_batches_raised by done. by apply fatal_between_no_launch. }
  rewrite for_batches_cons by done. cbv zeta.
  destruct (staged_for_facts input_folder missing_files i w) as [Hl1 Hr1].
  set (w1 := staged_for input_folder missing_files i w) in *.
  destruct (outcome (esrgan (launches w1) (os.scandir (disk w1) STAGING_DIR))) eqn:Hout.
  - split; [simpl; lia |]. intros k Hk _. simpl in *.
    split; [lia |]. split; [done |]. eauto.
  - match goal with |- fatal_between _ _ (for_batches _ _ _ _ _ ?w2) =>
      specialize (IH w2); destruct (returned_from_facts output_folder_local
        (Py.slice missing_files i (i + BATCH_SIZE))
        (esrgan (launches w1) (os.scandir (disk w1) STAGING_DIR)) returncode w1)
        as [Hl2 Hr2]; set (w2' := w2) in *
    end.
    destruct IH as [Hle F]. split; [lia |]. intros k Hk Hr.
    destruct (decide (k = launches w)) as [-> | Hne].
    + rewrite <- Hl1 in Hr. rewrite (Hr _) in Hout. discriminate.
    + apply F; [lia | done].
Qed.

Lemma folder_turn_fatal (esrgan : Esrgan) (input_folder : string) (w : World) :
  fatal_between esrgan w (folder_turn esrgan input_folder w).1.
Proof.
  rewrite folder_turn_eq. cbv zeta.
  destruct (analysed_facts input_folder w) as (Hl & _ & _ & _).
  destruct (length _ =? 0).
  - by apply fatal_between_no_launch.
  - apply (fatal_between_same_start esrgan
             (log (LogMissing (length (missing_for input_folder
                                         (analysed input_folder w))))
                (analysed input_folder w))); [done |].
    apply for_batches_fatal.
Qed.

Lemma for_folders_fatal (esrgan : Esrgan) (dirs : list string) :
  forall w : World, fatal_between esrgan w (for_folders esrgan dirs w).
Proof.
  induction dirs as [|input_folder rest IH]; intros w; [apply fatal_between_refl |].
  rewrite for_folders_cons.
  destruct (negb (running w)); [apply fatal_between_refl |].
  destruct (negb (os.path_exists (disk w) input_folder)); [apply IH |].
  cbv zeta. destruct (folder_turn esrgan input_folder w).2.
  - apply folder_turn_fatal.
  - eapply fatal_between_trans;
      [apply folder_turn_fatal | apply IH | apply for_folders_stopped].
Qed.

Lemma prepared_facts (w : World) :
  launches (prepared w) = launches w
  /\ journal (prepared w) = journal w
  /\ monitor_state (prepared w) = monitor_state w
  /\ forall q, q <> STAGING_DIR -> disk (prepared w) !! q = disk w !! q.
Proof.
  unfold prepared. destruct (negb (os.path_exists (disk w) STAGING_DIR));
    cbn [launches journal monitor_state disk with_disk]; repeat split; try done.
  - intros q Hq. unfold os.makedirs. by rewrite lookup_insert_ne.
  - intros q Hq. by apply cleanup_staging_other.
Qed.

(** A launch failure is fatal for the run: the failed launch is the last
    one, the running flag ends up cleared, and nothing is logged between
    the failure and the end of the run. *)
Lemma launch_failure_is_fatal (esrgan : Esrgan) (w : World) (k : nat) :
  launches w <= k < launches (run_smart_upscaling esrgan w) ->
  raises_at esrgan k ->
  launches (run_smart_upscaling esrgan w) = S k /\
  running (run_smart_upscaling esrgan w) = false /\
  exists j, journal (run_smart_upscaling esrgan w) = j ++ [LogLaunchError; LogFinished].
Proof.
  rewrite run_launches. intros Hk Hr.
  destruct (for_folders_fatal esrgan INPUT_DIRS (prepared w)) as [Hle F].
  rewrite (proj1 (prepared_facts w)) in F.
  destruct (F k Hk Hr) as (E & Hstop & j & Hj).
  rewrite run_smart_upscaling_eq.
  destruct (for_folders_or_raise esrgan INPUT_DIRS (prepared w)).2 eqn:Hraised.
  - apply for_folders_raise_running in Hraised. congruence.
  - split; [exact E |]. split; [reflexivity |]. exists j.
    rewrite journal_log, journal_with_state, Hj. rewrite <- app_assoc. reflexivity.
Qed.

(** A run that ends normally ends with the running flag cleared; a run
    that ends by an exception leaves it set. *)
Lemma run_ends_stopped (esrgan : Esrgan) (w : World) :
  running (run_smart_upscaling esrgan w)
  = (run_smart_upscaling_or_raise esrgan w).2.
Proof.
  unfold run_smart_upscaling. rewrite run_smart_upscaling_or_raise_eq.
  destruct (for_folders_or_raise esrgan INPUT_DIRS (prepared w)).2 eqn:Hraised;
    [| reflexivity].
  exact (for_folders_raise_running esrgan INPUT_DIRS (prepared w) Hraised).
Qed.

(** A launch that returns, with whatever exit code, does not stop the
    batch loop: the loop goes on with the rest of the batches, the
    running flag still set. *)
Lemma returned_launch_continues (esrgan : Esrgan)
    (input_folder output_folder_local : string) (missing_files : list string)
    (i : nat) (rest : list nat) (w : World) (returncode : Z) :
  running w = true -> staging_raises input_folder missing_files i w = false ->
  let w1 := staged_for input_folder missing_files i w in
  let r := esrgan (launches w1) (os.scandir (disk w1) STAGING_DIR) in
  outcome r = Returns returncode ->
  let w2 :=
    returned_from output_folder_local
      (Py.slice missing_files i (i + BATCH_SIZE)) r returncode w1 in
  for_batches esrgan input_folder output_folder_local missing_files (i :: rest) w
  = for_batches esrgan input_folder output_folder_local missing_files rest w2
  /\ running w2 = true
  /\ _current_batch (monitor_state w2) = [].
Proof.
  intros Hrun Hst w1 r Hout w2. split.
  - rewrite for_batches_cons by done. cbv zeta. fold w1. fold r. by rewrite Hout.
  - subst w2. unfold returned_from. destruct (negb (returncode =? 0)%Z); by simpl.
Qed.

Lemma returned_from_logged (output_folder_local : string) (batch : list string)
    (r : Response) (returncode : Z) (w : World) :
  logged_batches (journal (returned_from output_folder_local batch r returncode w))
  = logged_batches (journal w).
Proof.
  unfold returned_from. destruct (negb (returncode =? 0)%Z); simpl; [| done].
  rewrite logged_batches_app. simpl. apply app_nil_r.
Qed.

(** When the loop is not stopped, no launch fails and no staging raises,
    the loop goes through the slices at its indices one after the other. *)
Lemma for_batches_logs (esrgan : Esrgan) (input_folder output_folder_local : string)
    (missing_files : list string) (indices : list nat) :
  (forall k staged, outcome (esrgan k staged) <> Raises) ->
  forall w : World, running w = true ->
    (for_batches_or_raise esrgan input_folder output_folder_local missing_files
       indices w).2 = false ->
    logged_batches
      (journal (for_batches esrgan input_folder output_folder_local
                  missing_files indices w))
    = logged_batches (journal w)
      ++ map (fun i => Py.slice missing_files i (i + BATCH_SIZE)) indices.
Proof.
  intros Hok. induction indices as [|i rest IH]; intros w Hrun Hnormal.
  - simpl. by rewrite app_nil_r.
  - destruct (staging_raises input_folder missing_files i w) eqn:Hst.
    { by rewrite for_batches_or_raise_raised in Hnormal. }
    rewrite for_batches_or_raise_staged in Hnormal by done.
    rewrite for_batches_cons by done. cbv zeta in Hnormal |- *.
    set (w1 := staged_for input_folder missing_files i w) in *.
    destruct (outcome (esrgan (launches w1) (os.scandir (disk w1) STAGING_DIR)))
      as [|returncode] eqn:Hout; [by apply Hok in Hout |].
    rewrite IH; [| by rewrite (proj2 (returned_from_facts _ _ _ _ _)) | done].
    rewrite returned_from_logged. subst w1. unfold staged_for. simpl.
    rewrite logged_batches_app. simpl. by rewrite <- app_assoc.
Qed.

(** The batches of the partition are the batches the pipeline processes. *)
Lemma for_batches_processes_batches (esrgan : Esrgan)
    (input_folder output_folder_local : string) (missing_files : list string)
    (w : World) :
  (forall k staged, outcome (esrgan k staged) <> Raises) ->
  running w = true ->
  (for_batches_or_raise esrgan input_folder output_folder_local missing_files
     (Py.range (length missing_files) BATCH_SIZE) w).2 = false ->
  logged_batches
    (journal (for_batches esrgan input_folder output_folder_local missing_files
                (Py.range (length missing_files) BATCH_SIZE) w))
  = logged_batches (journal w) ++ batches BATCH_SIZE missing_files.
Proof. intros Hok Hrun Hn. by apply for_batches_logs. Qed.

(** C1 (the code departs from the claim). The transform exits with code 1
    on the only batch of the first folder: the run logs the exit code and
    goes on, clears the batch as if it had succeeded, and processes the
    batch of the next folder; the transform is launched a second time.
    The running flag is cleared only at the very end of the run. *)
Theorem nonzero_exit_does_not_stop_run :
  let w' := run_smart_upscaling esrgan_first_exits_1 (world0 fs_two_folders) in
  journal w'
  = [ LogAnalyzing "INPUT_AI_video_rene_zanelli"; LogMissing 1;
      LogBatch "INPUT_AI_video_rene_zanelli" 1 1 ["a.png"];
      LogReturnCode 1;
      LogAnalyzing "INPUT_AI_zanelli_2"; LogMissing 1;
      LogBatch "INPUT_AI_zanelli_2" 1 1 ["b.png"];
      LogFinished ]
  /\ launches w' = 2
  /\ disk w' !! "UPSCALED_video_rene_zanelli" = Some []
  /\ disk w' !! "UPSCALED_zanelli_2" = Some [file "b.png" 60000].
Proof. repeat split; vm_compute; reflexivity. Qed.

(** The sibling path: when the launch itself fails, the same run stops at
    once and the second folder is never looked at. *)
Example launch_failure_stops_run :
  let w' := run_smart_upscaling esrgan_first_raises (world0 fs_two_folders) in
  journal w'
  = [ LogAnalyzing "INPUT_AI_video_rene_zanelli"; LogMissing 1;
      LogBatch "INPUT_AI_video_rene_zanelli" 1 1 ["a.png"];
      LogLaunchError; LogFinished ]
  /\ launches w' = 1
  /\ _current_batch (monitor_state w') = ["a.png"].
Proof. repeat split; vm_compute; reflexivity. Qed.
(** ** The integrity sweep *)

Lemma names_unique (l : list DirEntry) (x y : DirEntry) :
  NoDup (map name l) -> x ∈ l -> y ∈ l -> name x = name y -> x = y.
Proof.
  intros Hnd Hx Hy E.
  pose proof (find_has_name l (name y) x Hnd Hx E) as E1.
  pose proof (find_has_name l (name y) y Hnd Hy eq_refl) as E2. congruence.
Qed.

Lemma verify_entry_eq (p : string) (fs : FS) (k : nat) (e : DirEntry) :
  verify_entry p (fs, k) e
  = if corrupt e then (os.remove fs p (name e), S k) else (fs, k).
Proof.
  unfold verify_entry, corrupt, truncated.
  destruct (Py.endswith_any _ _); [| done].
  destruct (st_size e) as [size|]; [| done]. by destruct (size <? MIN_VALID_FILE_SIZE)%Z.
Qed.

Lemma verify_fold (p : string) (es : list DirEntry) :
  forall (fs : FS) (k : nat),
    foldl (verify_entry p) (fs, k) es
    = (foldl (fun fs f => os.remove fs p f) fs (map name (List.filter corrupt es)),
       k + length (List.filter corrupt es)).
Proof.
  induction es as [|e es IH]; intros fs k; cbn [foldl List.filter].
  - simpl. f_equal. lia.
  - rewrite verify_entry_eq. destruct (corrupt e); rewrite IH; [| done].
    cbn [map foldl length]. f_equal. lia.
Qed.

Lemma filter_by_corrupt_names (l : list DirEntry) :
  NoDup (map name l) ->
  List.filter (fun e => negb (bool_decide (name e ∈ map name (List.filter corrupt l)))) l
  = List.filter (fun e => negb (corrupt e)) l.
Proof.
  intros Hnd. apply filter_ext_in. intros x Hx%list_elem_of_In. f_equal.
  destruct (corrupt x) eqn:Hc.
  - apply bool_decide_eq_true_2, list_elem_of_In, in_map, filter_In.
    split; [by apply list_elem_of_In | done].
  - apply bool_decide_eq_false_2. intros Hin.
    apply list_elem_of_In, in_map_iff in Hin as (y & Hn & Hy).
    apply filter_In in Hy as [Hy Hcy]. apply list_elem_of_In in Hy.
    rewrite (names_unique l y x Hnd Hy Hx Hn) in Hcy. congruence.
Qed.

Lemma verify_output_integrity_listing (fs : FS) (p : string) (l : list DirEntry) :
  fs !! p = Some l -> NoDup (map name l) ->
  (verify_output_integrity fs p).1 !! p
    = Some (List.filter (fun e => negb (corrupt e)) l)
  /\ (verify_output_integrity fs p).2 = length (List.filter corrupt l)
  /\ forall q, q <> p -> (verify_output_integrity fs p).1 !! q = fs !! q.
Proof.
  intros Hl Hnd. unfold verify_output_integrity, os.path_exists, os.scandir.
  rewrite Hl. cbn [negb]. rewrite verify_fold. cbn [fst snd].
  split; [| split; [done |]].
  - rewrite (remove_all_listing p _ fs l Hl). f_equal. by apply filter_by_corrupt_names.
  - intros q Hq. by apply remove_all_other.
Qed.

Lemma verify_output_integrity_eq (fs : FS) (p : string) (l : list DirEntry) :
  fs !! p = Some l -> NoDup (map name l) ->
  verify_output_integrity fs p
  = (<[p := List.filter (fun e => negb (corrupt e)) l]> fs,
     length (List.filter corrupt l)).
Proof.
  intros Hl Hnd.
  destruct (verify_output_integrity_listing fs p l Hl Hnd) as (H1 & H2 & H3).
  destruct (verify_output_integrity fs p) as [fs' k] eqn:E. cbn [fst snd] in *.
  f_equal; [| done]. apply map_eq. intros q.
  destruct (decide (q = p)) as [-> | Hq].
  - by rewrite lookup_insert_eq.
  - rewrite lookup_insert_ne by done. by apply H3.
Qed.

Lemma corrupt_spec (e : DirEntry) :
  corrupt e = true <->
  has_accepted_extension (name e) /\
  exists size, st_size e = Some size /\ (size < MIN_VALID_FILE_SIZE)%Z.
Proof.
  unfold corrupt, truncated. rewrite andb_true_iff, accepted_extension_spec.
  destruct (st_size e) as [size|].
  - rewrite Z.ltb_lt. split; [intros [? ?]; eauto |].
    intros [? (sz & [= <-] & ?)]. done.
  - split; [intros [_ ?]; discriminate | intros [_ (sz & ? & _)]; discriminate].
Qed.

(** X1. The integrity sweep removes from a directory exactly the files
    with an accepted extension whose size is below the threshold, returns
    how many it removed, and touches no other directory; on a directory
    that does not exist it removes nothing. *)
Theorem verify_output_integrity_sweeps (fs : FS) (p : string) :
  (fs !! p = None -> verify_output_integrity fs p = (fs, 0))
  /\ (forall l, fs !! p = Some l -> NoDup (map name l) ->
        let fs' := (verify_output_integrity fs p).1 in
        (forall e, e ∈ os.scandir fs' p <->
           e ∈ l /\
           ~ (has_accepted_extension (name e) /\
              exists size, st_size e = Some size /\ (size < MIN_VALID_FILE_SIZE)%Z))
        /\ ((verify_output_integrity fs p).2 + length (os.scandir fs' p) = length l)
        /\ (forall q, q <> p -> fs' !! q = fs !! q)).
Proof.
  split.
  - intros Hl. unfold verify_output_integrity, os.path_exists. by rewrite Hl.
  - intros l Hl Hnd fs'. subst fs'.
    rewrite (verify_output_integrity_eq fs p l Hl Hnd). cbn [fst snd].
    unfold os.scandir. rewrite lookup_insert_eq. split; [| split].
    + intros e. rewrite list_elem_of_In, filter_In, <- list_elem_of_In, negb_true_iff.
      by rewrite <- not_true_iff_false, corrupt_spec.
    + clear. induction l as [|x l IH]; simpl; [done |].
      destruct (corrupt x); simpl; lia.
    + intros q Hq. by rewrite lookup_insert_ne.
Qed.

Lemma verify_output_integrity_sweeps_witness :
  (verify_output_integrity fs_swept "UPSCALED_zanelli_2").2
  + length (os.scandir (verify_output_integrity fs_swept "UPSCALED_zanelli_2").1
              "UPSCALED_zanelli_2")
  = 4.
Proof.
  refine (proj1 (proj2 (proj2 (verify_output_integrity_sweeps fs_swept
    "UPSCALED_zanelli_2")
    [file "a.png" 60000; file "b.png" 100; file "notes.txt" 10; file "c.JPG" 51199]
    _ _))).
  - vm_compute. reflexivity.
  - compute_done.
Defined.

Example verify_output_integrity_example :
  map_to_list (verify_output_integrity fs_swept "UPSCALED_zanelli_2").1
  = [("UPSCALED_zanelli_2", [file "a.png" 60000; file "notes.txt" 10])]
  /\ (verify_output_integrity fs_swept "UPSCALED_zanelli_2").2 = 2.
Proof. split; vm_compute; reflexivity. Qed.

(** ** What the deletions keep *)

Lemma valid_not_truncated (e : DirEntry) : valid_file e -> truncated e = false.
Proof.
  intros [_ (size & Hs & Hle)]. unfold truncated. rewrite Hs.
  apply Z.ltb_ge. exact Hle.
Qed.

(** Filtering a listing without dropping a valid file changes no set of
    valid basenames. *)
Lemma valid_basenames_filter (fs : FS) (p : string) (l : list DirEntry)
    (f : DirEntry -> bool) (folder : option string) :
  fs !! p = Some l ->
  (forall e, e ∈ l -> valid_file e -> f e = true) ->
  get_valid_output_basenames (<[p := List.filter f l]> fs) folder
  = get_valid_output_basenames fs folder.
Proof.
  intros Hl Hkeep. apply set_eq. intros b. rewrite !elem_of_valid_basenames. split.
  - intros (p0 & l0 & e & -> & Hp0 & Hl0 & He & Hv & ->).
    destruct (decide (p0 = p)) as [-> | Hne].
    + rewrite lookup_insert_eq in Hl0. injection Hl0 as <-.
      apply list_elem_of_In, filter_In in He as [He _]. apply list_elem_of_In in He.
      by exists p, l, e.
    + rewrite lookup_insert_ne in Hl0 by done. by exists p0, l0, e.
  - intros (p0 & l0 & e & -> & Hp0 & Hl0 & He & Hv & ->).
    destruct (decide (p0 = p)) as [-> | Hne].
    + rewrite Hl in Hl0. injection Hl0 as <-.
      exists p, (List.filter f l), e. rewrite lookup_insert_eq.
      repeat (split; [done |]). split; [| done].
      apply list_elem_of_In, filter_In. split; [by apply list_elem_of_In | auto].
    + exists p0, l0, e. by rewrite lookup_insert_ne.
Qed.

(** The missing list reads the source listing and the valid basenames. *)
Lemma missing_frames_ext (fs1 fs2 : FS) (src_folder : string)
    (local_folder nas_folder : option string)
    (nas_cache_basenames : option (gset string)) :
  fs1 !! src_folder = fs2 !! src_folder ->
  get_valid_output_basenames fs1 local_folder
    = get_valid_output_basenames fs2 local_folder ->
  get_valid_output_basenames fs1 nas_folder
    = get_valid_output_basenames fs2 nas_folder ->
  get_missing_frames fs1 src_folder local_folder nas_folder nas_cache_basenames
  = get_missing_frames fs2 src_folder local_folder nas_folder nas_cache_basenames.
Proof.
  intros Hsrc Hloc Hnas.
  unfold get_missing_frames, os.path_exists, os.listdir, os.scandir.
  by rewrite Hsrc, Hloc, Hnas.
Qed.

Lemma count_union_ext (fs1 fs2 : FS) (local_folder nas_folder : option string)
    (nas_cache_basenames : option (gset string)) :
  get_valid_output_basenames fs1 local_folder
    = get_valid_output_basenames fs2 local_folder ->
  get_valid_output_basenames fs1 nas_folder
    = get_valid_output_basenames fs2 nas_folder ->
  count_valid_output_files_union fs1 local_folder nas_folder nas_cache_basenames
  = count_valid_output_files_union fs2 local_folder nas_folder nas_cache_basenames.
Proof.
  intros Hloc Hnas. unfold count_valid_output_files_union. by rewrite Hloc, Hnas.
Qed.

Lemma verify_keeps_valid (fs : FS) (p : string) (folder : option string) :
  (forall l, fs !! p = Some l -> NoDup (map name l)) ->
  get_valid_output_basenames (verify_output_integrity fs p).1 folder
  = get_valid_output_basenames fs folder.
Proof.
  intros Hnd. destruct (fs !! p) as [l|] eqn:Hl.
  - rewrite (verify_output_integrity_eq fs p l Hl (Hnd l eq_refl)). cbn [fst].
    apply valid_basenames_filter; [done |]. intros e _ Hv.
    unfold corrupt. rewrite (valid_not_truncated e Hv). by rewrite andb_false_r.
  - unfold verify_output_integrity, os.path_exists. by rewrite Hl.
Qed.

Lemma verify_other (fs : FS) (p q : string) :
  q <> p -> (verify_output_integrity fs p).1 !! q = fs !! q.
Proof.
  intros Hq. unfold verify_output_integrity, os.path_exists, os.scandir.
  destruct (fs !! p) as [l|]; [| done]. cbn [negb].
  rewrite verify_fold. cbn [fst]. by apply remove_all_other.
Qed.

(** X2. The integrity sweep never takes away a completed frame: the valid
    basenames of every directory, the union count and the list of missing
    frames of every source folder other than the swept one are the same
    after the sweep as before. *)
Theorem verify_output_integrity_keeps_progress (fs : FS) (p : string) :
  (forall l, fs !! p = Some l -> NoDup (map name l)) ->
  let fs' := (verify_output_integrity fs p).1 in
  (forall folder,
     get_valid_output_basenames fs' folder = get_valid_output_basenames fs folder)
  /\ (forall local_folder nas_folder cache,
        count_valid_output_files_union fs' local_folder nas_folder cache
        = count_valid_output_files_union fs local_folder nas_folder cache)
  /\ (forall src_folder local_folder nas_folder cache,
        src_folder <> p ->
        get_missing_frames fs' src_folder local_folder nas_folder cache
        = get_missing_frames fs src_folder local_folder nas_folder cache).
Proof.
  intros Hnd fs'. subst fs'.
  assert (forall folder,
    get_valid_output_basenames (verify_output_integrity fs p).1 folder
    = get_valid_output_basenames fs folder) as Hv
    by (intros folder; by apply verify_keeps_valid).
  split; [exact Hv |]. split.
  - intros. by apply count_union_ext.
  - intros src_folder local_folder nas_folder cache Hsrc.
    apply missing_frames_ext; [by apply verify_other | apply Hv | apply Hv].
Qed.

Lemma verify_output_integrity_keeps_progress_witness :
  get_missing_frames (verify_output_integrity fs_half_done "UPSCALED_zanelli_2").1
    "INPUT_AI_zanelli_2" (Some "UPSCALED_zanelli_2") None None
  = get_missing_frames fs_half_done
    "INPUT_AI_zanelli_2" (Some "UPSCALED_zanelli_2") None None.
Proof.
  refine (proj2 (proj2 (verify_output_integrity_keeps_progress fs_half_done
    "UPSCALED_zanelli_2" _)) _ _ _ _ _).
  - intros l Hl. vm_compute in Hl. injection Hl as <-. compute_done.
  - discriminate.
Defined.

(** X3. A second integrity sweep of the same directory removes nothing. *)
Theorem verify_output_integrity_idempotent (fs : FS) (p : string) :
  (forall l, fs !! p = Some l -> NoDup (map name l)) ->
  verify_output_integrity (verify_output_integrity fs p).1 p
  = ((verify_output_integrity fs p).1, 0).
Proof.
  intros Hnd. destruct (fs !! p) as [l|] eqn:Hl.
  - rewrite (verify_output_integrity_eq fs p l Hl (Hnd l eq_refl)). cbn [fst].
    set (l1 := List.filter (fun e => negb (corrupt e)) l).
    assert (forall e, e ∈ l1 -> corrupt e = false) as Hclean.
    { intros e He. apply list_elem_of_In, filter_In in He as [_ He].
      by apply negb_true_iff. }
    rewrite (verify_output_integrity_eq _ p l1 (lookup_insert_eq _ _ _)
               (NoDup_names_filter _ _ (Hnd l eq_refl))).
    rewrite insert_insert_eq.
    assert (List.filter (fun e => negb (corrupt e)) l1 = l1) as ->.
    { apply forallb_filter_id, forallb_forall. intros e He%list_elem_of_In.
      by rewrite (Hclean e He). }
    assert (List.filter corrupt l1 = []) as ->; [| done].
    clear -Hclean. induction l1 as [|x l1 IH]; [done |]. simpl.
    rewrite (Hclean x (list_elem_of_here _ _)). apply IH.
    intros e He. apply Hclean. by apply list_elem_of_further.
  - assert (verify_output_integrity fs p = (fs, 0)) as E
      by (unfold verify_output_integrity, os.path_exists; by rewrite Hl).
    rewrite E. cbn [fst]. exact E.
Qed.

Lemma verify_output_integrity_idempotent_witness :
  verify_output_integrity
    (verify_output_integrity fs_swept "UPSCALED_zanelli_2").1 "UPSCALED_zanelli_2"
  = ((verify_output_integrity fs_swept "UPSCALED_zanelli_2").1, 0).
Proof.
  apply verify_output_integrity_idempotent.
  intros l Hl. vm_compute in Hl. injection Hl as <-. compute_done.
Defined.

(** ** Shutdown cleanup and restart *)

Lemma cleanup_incomplete_files_unchanged (fs : FS) (output_folder : option string)
    (batch_files : list string) :
  (forall p, output_folder = Some p -> p = "" \/ fs !! p = None) ->
  cleanup_incomplete_files fs output_folder batch_files = (fs, 0).
Proof.
  intros H. unfold cleanup_incomplete_files, truthy, os.path_exists.
  destruct output_folder as [p|]; [| done].
  destruct (H p eq_refl) as [-> | Hl]; [done |]. rewrite Hl.
  by destruct (String.eqb p "").
Qed.

Lemma cleanup_keeps_valid (fs : FS) (output_folder : option string)
    (batch_files : list string) (folder : option string) :
  (forall p l, output_folder = Some p -> fs !! p = Some l -> NoDup (map name l)) ->
  get_valid_output_basenames
    (cleanup_incomplete_files fs output_folder batch_files).1 folder
  = get_valid_output_basenames fs folder.
Proof.
  intros Hnd. destruct output_folder as [p|].
  2:{ by rewrite cleanup_incomplete_files_unchanged. }
  destruct (decide (p = "")) as [-> | Hp].
  { rewrite cleanup_incomplete_files_unchanged; [done |]. intros ? [= <-]. auto. }
  destruct (fs !! p) as [l|] eqn:Hl.
  - rewrite (proj1 (cleanup_incomplete_files_spec fs p l batch_files Hp Hl
                      (Hnd p l eq_refl Hl))).
    apply valid_basenames_filter; [done |]. intros e _ Hv.
    unfold incomplete. rewrite (valid_not_truncated e Hv). by rewrite andb_false_r.
  - rewrite cleanup_incomplete_files_unchanged; [done |]. intros ? [= <-]. auto.
Qed.

Lemma cleanup_incomplete_files_other (fs : FS) (output_folder : option string)
    (batch_files : list string) (q : string) :
  (forall p l, output_folder = Some p -> fs !! p = Some l -> NoDup (map name l)) ->
  output_folder <> Some q ->
  (cleanup_incomplete_files fs output_folder batch_files).1 !! q = fs !! q.
Proof.
  intros Hnd Hq. destruct output_folder as [p|].
  2:{ by rewrite cleanup_incomplete_files_unchanged. }
  destruct (decide (p = "")) as [-> | Hp].
  { rewrite cleanup_incomplete_files_unchanged; [done |]. intros ? [= <-]. auto. }
  destruct (fs !! p) as [l|] eqn:Hl.
  - rewrite (proj1 (cleanup_incomplete_files_spec fs p l batch_files Hp Hl
                      (Hnd p l eq_refl Hl))).
    apply lookup_insert_ne. congruence.
  - rewrite cleanup_incomplete_files_unchanged; [done |]. intros ? [= <-]. auto.
Qed.

Lemma cleanup_staging_keeps_valid (fs : FS) (s : string) (folder : option string) :
  folder <> Some s ->
  get_valid_output_basenames (cleanup_staging fs s) folder
  = get_valid_output_basenames fs folder.
Proof.
  intros Hs. apply valid_basenames_local. intros p ->.
  apply cleanup_staging_other. congruence.
Qed.

(** X4. A shutdown loses no progress: as long as the staging directory is
    none of the directories read, and the primary output directory is not
    the source folder, the list of missing frames and the union count right
    after [graceful_shutdown] are what they were before it.  What the
    cleanup deletes was never counted as completed. *)
Theorem shutdown_keeps_missing_frames (w : World) (src_folder : string)
    (local_folder nas_folder : option string) (cache : option (gset string)) :
  let state := monitor_state w in
  (forall p l, _output_folder_local state = Some p -> disk w !! p = Some l ->
               NoDup (map name l)) ->
  _output_folder_local state <> Some src_folder ->
  src_folder <> STAGING_DIR ->
  local_folder <> Some STAGING_DIR ->
  nas_folder <> Some STAGING_DIR ->
  get_missing_frames (disk (graceful_shutdown w)) src_folder local_folder
    nas_folder cache
  = get_missing_frames (disk w) src_folder local_folder nas_folder cache
  /\ count_valid_output_files_union (disk (graceful_shutdown w)) local_folder
       nas_folder cache
     = count_valid_output_files_union (disk w) local_folder nas_folder cache.
Proof.
  intros state Hnd Hsrc Hs1 Hs2 Hs3. subst state.
  set (fs1 := cleanup_staging (disk w) STAGING_DIR).
  assert (forall p l, _output_folder_local (monitor_state w) = Some p ->
            fs1 !! p = Some l -> NoDup (map name l)) as Hnd1.
  { intros p l Hp Hl. destruct (decide (p = STAGING_DIR)) as [-> | Hne].
    - pose proof (cleanup_staging_scandir (disk w) STAGING_DIR) as He.
      pose proof (cleanup_staging_exists (disk w) STAGING_DIR) as Hex.
      unfold os.scandir, os.path_exists in He, Hex. fold fs1 in He, Hex.
      rewrite Hl in He, Hex.
      destruct (disk w !! STAGING_DIR) as [l0|] eqn:Hl0; [| discriminate].
      rewrite He. apply NoDup_names_filter. by apply (Hnd STAGING_DIR).
    - subst fs1. rewrite cleanup_staging_other in Hl by done. eauto. }
  assert (forall folder, folder <> Some STAGING_DIR ->
    get_valid_output_basenames (disk (graceful_shutdown w)) folder
    = get_valid_output_basenames (disk w) folder) as Hv.
  { intros folder Hf. rewrite graceful_shutdown_disk. fold fs1.
    destruct (_current_batch (monitor_state w)) as [|b bs].
    - by apply cleanup_staging_keeps_valid.
    - rewrite (cleanup_keeps_valid fs1 _ _ folder Hnd1).
      by apply cleanup_staging_keeps_valid. }
  split.
  - apply missing_frames_ext; [| by apply Hv | by apply Hv].
    rewrite graceful_shutdown_disk. fold fs1.
    destruct (_current_batch (monitor_state w)) as [|b bs].
    + by apply cleanup_staging_other.
    + rewrite (cleanup_incomplete_files_other fs1 _ _ src_folder Hnd1 Hsrc).
      by apply cleanup_staging_other.
  - apply count_union_ext; by apply Hv.
Qed.

Lemma shutdown_keeps_missing_frames_witness :
  get_missing_frames (disk (graceful_shutdown world_interrupted_with_source))
    "INPUT_AI_zanelli_2" (Some "UPSCALED_zanelli_2")
    (Some "Z:/zanelli\OUTPUT_zanelli_2") None
  = get_missing_frames (disk world_interrupted_with_source)
    "INPUT_AI_zanelli_2" (Some "UPSCALED_zanelli_2")
    (Some "Z:/zanelli\OUTPUT_zanelli_2") None.
Proof.
  refine (proj1 (shutdown_keeps_missing_frames world_interrupted_with_source
    "INPUT_AI_zanelli_2" (Some "UPSCALED_zanelli_2")
    (Some "Z:/zanelli\OUTPUT_zanelli_2") None _ _ _ _ _)).
  - intros p l [= <-] Hl. vm_compute in Hl. injection Hl as <-. compute_done.
  - discriminate.
  - vm_compute. discriminate.
  - vm_compute. discriminate.
  - vm_compute. discriminate.
Defined.

Example shutdown_then_resume :
  get_missing_frames (disk (graceful_shutdown world_interrupted_with_source))
    "INPUT_AI_zanelli_2" (Some "UPSCALED_zanelli_2")
    (Some "Z:/zanelli\OUTPUT_zanelli_2") None
  = ["f2.png"].
Proof. vm_compute. reflexivity. Qed.

Lemma incomplete_is_corrupt (batch_files : list string) (e : DirEntry) :
  incomplete (cleanup_targets batch_files) e = true -> corrupt e = true.
Proof.
  rewrite incomplete_spec, corrupt_spec, elem_of_cleanup_targets.
  intros [(f & ext & _ & Hext & Hn) Hsz]. split; [| done].
  exists (Py.splitext f).1, ext. split; [done |].
  destruct Hext as [-> | ->]; auto.
Qed.

(** X5. The integrity sweep subsumes the shutdown cleanup: sweeping the
    output directory after [cleanup_incomplete_files] leaves the same file
    system as sweeping it straight away. *)
Theorem verify_after_cleanup (fs : FS) (p : string) (batch_files : list string) :
  (forall l, fs !! p = Some l -> NoDup (map name l)) ->
  (verify_output_integrity
     (cleanup_incomplete_files fs (Some p) batch_files).1 p).1
  = (verify_output_integrity fs p).1.
Proof.
  intros Hnd. destruct (decide (p = "")) as [-> | Hp].
  { rewrite cleanup_incomplete_files_unchanged; [done |]. intros ? [= <-]. auto. }
  destruct (fs !! p) as [l|] eqn:Hl.
  2:{ rewrite cleanup_incomplete_files_unchanged; [done |]. intros ? [= <-]. auto. }
  pose proof (Hnd l eq_refl) as Hl_nd.
  rewrite (proj1 (cleanup_incomplete_files_spec fs p l batch_files Hp Hl Hl_nd)).
  rewrite (verify_output_integrity_eq _ p _ (lookup_insert_eq _ _ _)
             (NoDup_names_filter _ _ Hl_nd)).
  rewrite (verify_output_integrity_eq fs p l Hl Hl_nd). cbn [fst].
  rewrite insert_insert_eq, filter_filter_andb. f_equal.
  apply filter_ext. intros e.
  destruct (incomplete (cleanup_targets batch_files) e) eqn:Hi; [| done].
  by rewrite (incomplete_is_corrupt _ _ Hi).
Qed.

Lemma verify_after_cleanup_witness :
  (verify_output_integrity
     (cleanup_incomplete_files fs_interrupted (Some "UPSCALED_zanelli_2")
        ["f1.png"; "f2.png"]).1 "UPSCALED_zanelli_2").1
  = (verify_output_integrity fs_interrupted "UPSCALED_zanelli_2").1.
Proof.
  apply verify_after_cleanup.
  intros l Hl. vm_compute in Hl. injection Hl as <-. compute_done.
Defined.


(** ** More on the progress monitor *)

Local Open Scope Q_scope.

Lemma check_progress_skipped (fs : FS) (state : MonitorState) (now : Q)
    (d d' : ProgressDaemon) :
  check_progress fs state now d = (d', None) -> d' = d.
Proof.
  unfold check_progress.
  destruct (_output_folder_local state) as [p|]; [| by intros [= <-]].
  destruct (negb _ || negb _); [by intros [= <-] |].
  destruct (Qle_bool _ 0); [by intros [= <-] | discriminate].
Qed.

(** X7. A tick reports exactly when the primary output directory is set,
    non-empty as a path and present on disk, and time has advanced since
    the last check.  A tick that does not report leaves the monitor's
    counters as they were; a tick that reports records the time and the
    count it has seen. *)
Theorem check_progress_reports_iff (fs : FS) (state : MonitorState) (now : Q)
    (d : ProgressDaemon) :
  ((exists d' r, check_progress fs state now d = (d', Some r)) <->
   (exists p, _output_folder_local state = Some p /\ p <> "" /\
              os.path_exists fs p = true) /\
   _last_check_time d < now)
  /\ (forall d', check_progress fs state now d = (d', None) -> d' = d)
  /\ (forall d' r, check_progress fs state now d = (d', Some r) ->
        _last_check_time d' = now /\ _last_count d' = current_count r /\
        _avg_speed d' = Some (avg_speed r)).
Proof.
  split; [| split].
  - unfold check_progress, truthy.
    destruct (_output_folder_local state) as [p|].
    2:{ split; [intros (? & ? & ?); discriminate | intros [(p & ? & _) _]; discriminate]. }
    destruct (String.eqb_spec p "") as [-> | Hp]; cbn [negb orb].
    { split; [intros (? & ? & ?); discriminate |].
      intros [(p & [= <-] & Hp & _) _]. done. }
    destruct (os.path_exists fs p) eqn:Hex; cbn [negb].
    2:{ split; [intros (? & ? & ?); discriminate |].
        intros [(p' & [= <-] & _ & Hex') _]. congruence. }
    destruct (Qle_bool (now - _last_check_time d) 0) eqn:E.
    + apply Qle_bool_iff in E. split; [intros (? & ? & ?); discriminate |].
      intros [_ Hlt]. lra.
    + split; [| intros _; eauto]. intros _. split; [eauto |].
      apply Qnot_le_lt. intros Hle.
      assert (Qle_bool (now - _last_check_time d) 0 = true) as E'
        by (apply Qle_bool_iff; lra). congruence.
  - intros d'. apply check_progress_skipped.
  - intros d' r H. by apply check_progress_inv in H as (_ & -> & ->).
Qed.

(** Ten finished frames fewer after ten seconds, on an average of 0.1
    frames per second: the next average is -0.23. *)
Example drop_gives_negative_speed :
  exists d' r,
    check_progress (fs_finished 0) (monitoring 30 None) 10
      {| _avg_speed := Some 0.1; _last_check_time := 0; _last_count := 10 |}
    = (d', Some r)
    /\ (current_count r < 10)%Z
    /\ avg_speed r == -0.23.
Proof.
  eexists _, _. split; [vm_compute; reflexivity |].
  split; vm_compute; reflexivity.
Qed.

(** X8. In a report the remaining count, the count, the percentage and
    the ETA, when one is given, are never negative, and an ETA rests on an
    average above 0.001; once the count has reached the total, nothing
    remains and the ETA, if given, is zero.  The average speed is the one
    figure of the report that can be negative: it is not when the count
    has not dropped since the last check and the average before, if there
    was one, was not negative; after a drop of the count it can be (a
    drop of 10 frames in 10 seconds on an average of 0.1 gives -0.23). *)
Theorem report_figures_but_speed_never_negative (fs : FS) (state : MonitorState)
    (now : Q) (d d' : ProgressDaemon) (r : Report) :
  check_progress fs state now d = (d', Some r) ->
  (0 <= remaining r)%Z
  /\ (0 <= current_count r)%Z
  /\ 0 <= percentage r
  /\ (forall eta, eta_seconds r = Some eta -> 0 <= eta /\ 0.001 < avg_speed r)
  /\ ((total r <= current_count r)%Z ->
      remaining r = 0%Z /\ forall eta, eta_seconds r = Some eta -> eta == 0)
  /\ ((_last_count d <= current_count r)%Z ->
      match _avg_speed d with Some a => 0 <= a | None => True end ->
      0 <= avg_speed r)
  /\ (exists fs0 state0 now0 d0 d0' r0,
        check_progress fs0 state0 now0 d0 = (d0', Some r0)
        /\ (current_count r0 < _last_count d0)%Z
        /\ avg_speed r0 == -0.23).
Proof.
  intros H.
  pose proof H as Hinv. apply check_progress_inv in Hinv as (Hdelta & _ & _).
  cbv zeta in Hdelta.
  apply check_progress_inv in H as (_ & _ & ->). cbn.
  set (count := count_valid_output_files_union _ _ _ _).
  set (avg := ema_update _ _).
  assert (0 <= count)%Z as Hc by (subst count; unfold count_valid_output_files_union; lia).
  assert (0 <= inject_Z count) as Hcq.
  { change 0 with (inject_Z 0). by rewrite <- Zle_Qle. }
  set (rem := if (_total_frames state - count <? 0)%Z then 0%Z
              else (_total_frames state - count)%Z).
  assert (0 <= rem)%Z as Hrem
    by (subst rem; destruct (Z.ltb_spec (_total_frames state - count) 0); lia).
  assert (0 <= inject_Z rem) as Hremq.
  { change 0 with (inject_Z 0). by rewrite <- Zle_Qle. }
  split; [exact Hrem |]. split; [exact Hc |]. split; [| split].
  - destruct (Z.ltb_spec 0 (_total_frames state)) as [Ht | Ht]; [| discriminate].
    apply Qmult_le_0_compat; [| discriminate].
    apply Qle_shift_div_l; [| lra].
    change 0 with (inject_Z 0). rewrite <- Zlt_Qlt. lia.
  - intros eta. destruct (Qgtb avg 0.001) eqn:E; [| discriminate].
    apply Qgtb_spec in E. intros [= <-]. split; [| exact E].
    apply Qle_shift_div_l; lra.
  - split; [| split].
    + intros Hle.
      assert (rem = 0%Z) as Hz
        by (subst rem; destruct (Z.ltb_spec (_total_frames state - count) 0); lia).
      split; [exact Hz |]. intros eta. rewrite Hz.
      destruct (Qgtb avg 0.001) eqn:E; [| discriminate].
      apply Qgtb_spec in E. intros [= <-]. field. lra.
    + intros Hup Hprev. subst avg. unfold ema_update.
      set (instant := inject_Z (count - _last_count d) / (now - _last_check_time d)).
      assert (0 <= instant) as Hi.
      { subst instant. apply Qle_shift_div_l; [exact Hdelta |].
        rewrite Qmult_0_l. change 0 with (inject_Z 0). rewrite <- Zle_Qle. lia. }
      destruct (_avg_speed d) as [a|].
      * unfold EMA_ALPHA. lra.
      * destruct (Qgtb instant 0) eqn:E; [exact Hi | discriminate].
    + exists (fs_finished 0), (monitoring 30 None), 10,
        {| _avg_speed := Some 0.1; _last_check_time := 0; _last_count := 10 |}.
      exact drop_gives_negative_speed.
Qed.

Lemma report_figures_but_speed_never_negative_witness :
  exists d' r,
    check_progress (fs_finished 40) (monitoring 30 None) 10
      {| _avg_speed := Some 2; _last_check_time := 0; _last_count := 20 |}
    = (d', Some r) /\ remaining r = 0%Z.
Proof.
  eexists _, _. split; [vm_compute; reflexivity |].
  refine (proj1 (proj1 (proj2 (proj2 (proj2 (proj2
    (report_figures_but_speed_never_negative (fs_finished 40)
       (monitoring 30 None) 10
       {| _avg_speed := Some 2; _last_check_time := 0; _last_count := 20 |}
       _ _ _))))) _)).
  - vm_compute. reflexivity.
  - vm_compute. discriminate.
Defined.

Lemma ema_update_positive (avg : option Q) (instant : Q) :
  match avg with Some a => 0 < a | None => True end ->
  0 <= instant -> 0 < ema_update avg instant.
Proof.
  intros Ha Hi. unfold ema_update, EMA_ALPHA. destruct avg as [a|].
  - lra.
  - destruct (Qgtb instant 0) eqn:E; [by apply Qgtb_spec in E | reflexivity].
Qed.

(** X9. As long as the count of finished frames never goes down between
    reporting ticks, the smoothed throughput stays strictly positive from
    the first report on, whatever the sequence of ticks. *)
Theorem average_stays_positive (state : MonitorState) (ticks : list (Q * FS)) :
  forall d : ProgressDaemon,
    positive_average d -> never_regresses state d ticks ->
    positive_average (run_ticks state d ticks).
Proof.
  induction ticks as [|[now fs] rest IH]; intros d Hd Hn; [exact Hd |].
  cbn [run_ticks never_regresses] in *.
  destruct (check_progress fs state now d) as [d' [r|]] eqn:E; cbn [fst].
  - destruct Hn as [Hle Hn]. apply IH; [| exact Hn].
    apply check_progress_inv in E as (Hdt & -> & Er).
    unfold positive_average. cbn [_avg_speed].
    apply ema_update_positive; [exact Hd |].
    rewrite Er in Hle. cbn [current_count] in Hle.
    apply Qle_shift_div_l; [exact Hdt |]. rewrite Qmult_0_l.
    change 0 with (inject_Z 0). rewrite <- Zle_Qle. lia.
  - apply IH; [| exact Hn].
    by rewrite (check_progress_skipped fs state now d d' E).
Qed.

Lemma average_stays_positive_witness :
  positive_average
    (run_ticks (monitoring 100 None)
       {| _avg_speed := None; _last_check_time := 0; _last_count := 20 |}
       [(10, fs_finished 20); (20, fs_finished 40)]).
Proof.
  apply average_stays_positive.
  - exact I.
  - vm_compute. split; [discriminate | split; [discriminate | exact I]].
Defined.

Lemma check_progress_reports_iff_witness :
  exists d' r,
    check_progress (fs_finished 40) (monitoring 100 None) 10
      {| _avg_speed := Some 2; _last_check_time := 0; _last_count := 20 |}
    = (d', Some r).
Proof.
  apply (proj1 (check_progress_reports_iff (fs_finished 40) (monitoring 100 None) 10
    {| _avg_speed := Some 2; _last_check_time := 0; _last_count := 20 |})).
  split.
  - exists "UPSCALED_zanelli_2". split; [reflexivity |]. split; [discriminate |].
    vm_compute. reflexivity.
  - reflexivity.
Defined.

Local Close Scope Q_scope.


(** ** Counting valid outputs *)

Lemma count_if_valid_eq (count : Z) (e : DirEntry) :
  count_if_valid count e = (if is_valid e then count + 1 else count)%Z.
Proof.
  unfold count_if_valid, is_valid. destruct (Py.endswith_any _ _); [| done].
  destruct (st_size e) as [size|]; [| done]. by destruct (MIN_VALID_FILE_SIZE <=? size)%Z.
Qed.

Lemma add_if_valid_eq (valid : gset string) (e : DirEntry) :
  add_if_valid valid e
  = if is_valid e then valid ∪ {[ normalized (name e) ]} else valid.
Proof.
  unfold add_if_valid, is_valid, normalized. destruct (Py.endswith_any _ _); [| done].
  destruct (st_size e) as [size|]; [| done]. by destruct (MIN_VALID_FILE_SIZE <=? size)%Z.
Qed.

Lemma foldl_count_if_valid (l : list DirEntry) (count : Z) :
  foldl count_if_valid count l = (count + Z.of_nat (length (valid_names l)))%Z.
Proof.
  unfold valid_names. rewrite length_map. revert count.
  induction l as [|e l IH]; intros count; cbn [foldl List.filter].
  - simpl. lia.
  - rewrite IH, count_if_valid_eq. destruct (is_valid e); cbn [length]; lia.
Qed.

Lemma foldl_add_if_valid_eq (l : list DirEntry) (valid : gset string) :
  foldl add_if_valid valid l = valid ∪ list_to_set (valid_names l).
Proof.
  unfold valid_names. revert valid.
  induction l as [|e l IH]; intros valid; cbn [foldl List.filter].
  - simpl. set_solver.
  - rewrite IH, add_if_valid_eq. destruct (is_valid e); cbn [map list_to_set]; set_solver.
Qed.

Lemma size_list_to_set_le (l : list string) :
  size (list_to_set l : gset string) <= length l.
Proof.
  induction l as [|x l IH]; cbn [list_to_set length].
  - by rewrite size_empty.
  - rewrite size_union_alt, size_singleton.
    pose proof (subseteq_size (list_to_set l ∖ {[x]}) (list_to_set l : gset string)
                  ltac:(set_solver)). lia.
Qed.

Lemma valid_basenames_count (fs : FS) (folder : option string) :
  exists l : list DirEntry,
    get_valid_output_basenames fs folder = list_to_set (valid_names l) /\
    count_valid_output_files fs folder = Z.of_nat (length (valid_names l)).
Proof.
  unfold get_valid_output_basenames, count_valid_output_files.
  destruct folder as [p|]; [| by exists []].
  destruct (negb (truthy (Some p)) || negb (os.path_exists fs p)); [by exists [] |].
  exists (os.scandir fs p). rewrite foldl_add_if_valid_eq, foldl_count_if_valid.
  split; [set_solver | lia].
Qed.

(** A cache that has gone stale: it names two frames, the secondary
    location holds one file; the union count exceeds the two single
    counts together. *)
Example stale_cache_exceeds_single_counts :
  (count_valid_output_files fs_secondary_1 (Some "UPSCALED_zanelli_2")
   + count_valid_output_files fs_secondary_1 (Some "Z:/zanelli\OUTPUT_zanelli_2")
   < count_valid_output_files_union fs_secondary_1 (Some "UPSCALED_zanelli_2")
       (Some "Z:/zanelli\OUTPUT_zanelli_2") (Some {[ "x.png"; "y.png" ]}))%Z.
Proof. vm_compute. reflexivity. Qed.

(** X10. [count_valid_output_files] is never below the number of valid
    basenames of the directory, and equals it when no two valid files
    share a normalized name.  The union count is never above the local
    count plus the size of what stands for the secondary location: the
    cache when one is passed, as every call of the program does, and the
    secondary count otherwise.  With no cache, or a cache that is what the
    secondary location holds now, the LOCAL+NAS figure of the monitor's
    report thus never exceeds Local plus NAS; with a stale cache it can. *)
Theorem union_count_within_single_counts (fs : FS)
    (local_folder nas_folder : option string) (cache : option (gset string)) :
  (Z.of_nat (size (get_valid_output_basenames fs local_folder))
   <= count_valid_output_files fs local_folder)%Z
  /\ (forall p l, local_folder = Some p -> p <> "" -> fs !! p = Some l ->
        NoDup (valid_names l) ->
        count_valid_output_files fs local_folder
        = Z.of_nat (size (get_valid_output_basenames fs local_folder)))
  /\ (0 <= count_valid_output_files_union fs local_folder nas_folder cache
      <= count_valid_output_files fs local_folder
         + (if truthy nas_folder
            then match cache with
                 | Some c => Z.of_nat (size c)
                 | None => count_valid_output_files fs nas_folder
                 end
            else 0))%Z
  /\ (cache = None \/ cache = Some (get_valid_output_basenames fs nas_folder) ->
      (count_valid_output_files_union fs local_folder nas_folder cache
       <= count_valid_output_files fs local_folder
          + count_valid_output_files fs nas_folder)%Z)
  /\ (exists fs0 local0 nas0 cache0,
        (count_valid_output_files fs0 local0 + count_valid_output_files fs0 nas0
         < count_valid_output_files_union fs0 local0 nas0 (Some cache0))%Z).
Proof.
  destruct (valid_basenames_count fs local_folder) as (l1 & E1 & C1).
  destruct (valid_basenames_count fs nas_folder) as (l2 & E2 & C2).
  pose proof (size_list_to_set_le (valid_names l1)) as H1.
  pose proof (size_list_to_set_le (valid_names l2)) as H2.
  assert (forall c : gset string,
            size ((∅ ∪ get_valid_output_basenames fs local_folder) ∪ c)
            <= length (valid_names l1) + size c) as Hunion.
  { intros c. rewrite E1.
    pose proof (size_union_alt (∅ ∪ list_to_set (valid_names l1)) c) as Hu.
    pose proof (subseteq_size (c ∖ (∅ ∪ list_to_set (valid_names l1))) c
                  ltac:(set_solver)).
    pose proof (subseteq_size (∅ ∪ list_to_set (valid_names l1))
                  (list_to_set (valid_names l1) : gset string) ltac:(set_solver)).
    lia. }
  assert (size (∅ ∪ get_valid_output_basenames fs local_folder : gset string)
          <= length (valid_names l1)) as Hlocal.
  { rewrite E1.
    pose proof (subseteq_size (∅ ∪ list_to_set (valid_names l1))
                  (list_to_set (valid_names l1) : gset string) ltac:(set_solver)).
    lia. }
  split; [rewrite E1, C1; lia |]. split; [| split; [| split]].
  - intros p l -> Hp Hl Hnd.
    unfold get_valid_output_basenames, count_valid_output_files, truthy,
      os.path_exists, os.scandir.
    rewrite Hl. destruct (String.eqb_spec p ""); [done |]. cbn [negb orb].
    rewrite foldl_add_if_valid_eq, foldl_count_if_valid.
    replace (∅ ∪ list_to_set (valid_names l)) with
      (list_to_set (valid_names l) : gset string) by set_solver.
    rewrite (size_list_to_set _ Hnd). lia.
  - unfold count_valid_output_files_union. split; [lia |].
    rewrite C1, C2.
    destruct (truthy nas_folder); [| lia].
    destruct cache as [c|].
    + pose proof (Hunion c). lia.
    + pose proof (Hunion (get_valid_output_basenames fs nas_folder)) as Hu.
      rewrite E2 in Hu at 2. lia.
  - intros Hcache. unfold count_valid_output_files_union.
    rewrite C1, C2.
    destruct (truthy nas_folder); [| lia].
    pose proof (Hunion (get_valid_output_basenames fs nas_folder)) as Hu.
    rewrite E2 in Hu at 2.
    destruct Hcache as [-> | ->]; lia.
  - exists fs_secondary_1, (Some "UPSCALED_zanelli_2"),
      (Some "Z:/zanelli\OUTPUT_zanelli_2"), {[ "x.png"; "y.png" ]}.
    exact stale_cache_exceeds_single_counts.
Qed.

Lemma union_count_within_single_counts_witness :
  count_valid_output_files fs_example (Some "UPSCALED_zanelli_2")
  = Z.of_nat (size (get_valid_output_basenames fs_example (Some "UPSCALED_zanelli_2"))).
Proof.
  refine (proj1 (proj2 (union_count_within_single_counts fs_example
    (Some "UPSCALED_zanelli_2") None None)) "UPSCALED_zanelli_2" [file "a.png" 60000]
    eq_refl _ _ _).
  - discriminate.
  - vm_compute. reflexivity.
  - compute_done.
Defined.

Example both_extensions_counted_twice :
  count_valid_output_files fs_both_extensions (Some "UPSCALED_zanelli_2") = 2%Z
  /\ count_valid_output_files_union fs_both_extensions
       (Some "UPSCALED_zanelli_2") None None = 1%Z.
Proof. split; vm_compute; reflexivity. Qed.

(** ** More on the missing list *)

Lemma valid_basenames_end_png (fs : FS) (folder : option string) (b : string) :
  b ∈ get_valid_output_basenames fs folder -> Py.endswith b ".png" = true.
Proof.
  intros (p & l & e & _ & _ & _ & _ & _ & ->)%elem_of_valid_basenames.
  apply endswith_spec. by eexists.
Qed.

Lemma elem_of_source_basenames (fs : FS) (src_folder f : string) :
  f ∈ source_basenames fs src_folder <->
  f ∈ os.listdir fs src_folder /\ Py.endswith (Py.lower f) ".png" = true.
Proof.
  unfold source_basenames.
  by rewrite elem_of_list_to_set, list_elem_of_In, filter_In, <- list_elem_of_In.
Qed.

Lemma elem_of_missing_frames (fs : FS) (src_folder : string)
    (local_folder nas_folder : option string) (cache : option (gset string))
    (f : string) :
  f ∈ get_missing_frames fs src_folder local_folder nas_folder cache <->
  f ∈ source_basenames fs src_folder /\
  f ∉ completed_set fs local_folder nas_folder cache.
Proof.
  by rewrite get_missing_frames_eq, elem_of_sorted, elem_of_elements,
    elem_of_difference.
Qed.

(** X11. The missing list stays within the source folder: every item is a
    file of the source folder with the source extension (whatever the case
    of its letters), the list is no longer than the number of source
    frames the pipeline counts for the folder, and a source folder that
    does not exist gives the empty list. *)
Theorem missing_frames_within_source (fs : FS) (src_folder : string)
    (local_folder nas_folder : option string) (cache : option (gset string)) :
  (forall f, f ∈ get_missing_frames fs src_folder local_folder nas_folder cache ->
     f ∈ os.listdir fs src_folder /\ Py.endswith (Py.lower f) ".png" = true)
  /\ length (get_missing_frames fs src_folder local_folder nas_folder cache)
     <= length (List.filter (fun f => Py.endswith (Py.lower f) ".png")
                  (os.listdir fs src_folder))
  /\ (fs !! src_folder = None ->
      get_missing_frames fs src_folder local_folder nas_folder cache = []).
Proof.
  split; [| split].
  - intros f [Hf _]%elem_of_missing_frames. by apply elem_of_source_basenames.
  - rewrite get_missing_frames_eq. unfold Py.sorted.
    rewrite merge_sort_Permutation.
    change (length (elements ?X)) with (size X).
    etrans; [apply (subseteq_size _ (source_basenames fs src_folder)); set_solver |].
    unfold source_basenames. apply size_list_to_set_le.
  - intros H. unfold get_missing_frames, os.path_exists. by rewrite H.
Qed.

Lemma missing_frames_within_source_witness :
  get_missing_frames fs_example "INPUT_AI_video_rene_zanelli"
    (Some "UPSCALED_video_rene_zanelli") None None = [].
Proof.
  apply (proj2 (proj2 (missing_frames_within_source fs_example
    "INPUT_AI_video_rene_zanelli" (Some "UPSCALED_video_rene_zanelli") None None))).
  vm_compute. reflexivity.
Defined.

(** X12. A source frame whose extension is [.png] only up to the case of
    its letters ([frame.PNG]) is reported missing whatever the output
    locations hold: completed names are recorded with a lower-case [.png],
    so nothing can ever complete it.  The cache, if one is passed, is
    taken to hold recorded names only. *)
Theorem upper_case_source_never_completes (fs : FS) (src_folder : string)
    (local_folder nas_folder : option string) (cache : option (gset string))
    (f : string) :
  f ∈ os.listdir fs src_folder ->
  Py.endswith (Py.lower f) ".png" = true ->
  Py.endswith f ".png" = false ->
  (forall c b, cache = Some c -> b ∈ c -> Py.endswith b ".png" = true) ->
  f ∈ get_missing_frames fs src_folder local_folder nas_folder cache.
Proof.
  intros Hin Hlow Hup Hcache. apply elem_of_missing_frames.
  split; [by apply elem_of_source_basenames |].
  assert (forall b, b ∈ completed_set fs local_folder nas_folder cache ->
            Py.endswith b ".png" = true) as Hall.
  { intros b. unfold completed_set. rewrite elem_of_union.
    intros [Hb | Hb]; [by apply valid_basenames_end_png in Hb |].
    destruct (truthy nas_folder); [| by apply not_elem_of_empty in Hb].
    destruct cache as [c|]; [by apply (Hcache c) | by apply valid_basenames_end_png in Hb]. }
  intros Hc. apply Hall in Hc. congruence.
Qed.

Lemma upper_case_source_never_completes_witness :
  "a.PNG" ∈ get_missing_frames fs_upper_case "INPUT_AI_zanelli_2"
              (Some "UPSCALED_zanelli_2") None None.
Proof.
  apply upper_case_source_never_completes.
  - compute_done.
  - vm_compute. reflexivity.
  - vm_compute. reflexivity.
  - intros c b H. discriminate H.
Defined.



(** ** What the pipeline writes *)

Lemma link_other (fs fs' : FS) (src_folder dst_folder n q : string) :
  os.link fs src_folder dst_folder n = Some fs' ->
  q <> dst_folder -> fs' !! q = fs !! q.
Proof.
  unfold os.link.
  destruct (os.getsize fs src_folder n), (fs !! dst_folder); try discriminate.
  intros [= <-] Hq. by rewrite lookup_insert_ne.
Qed.

(** [stage_file], by the outcome of the link. *)
Lemma stage_file_eq (input_folder staging_dir : string) (fs : FS) (f : string) :
  let fs0 :=
    if os.file_exists fs staging_dir f then os.remove fs staging_dir f else fs in
  stage_file input_folder staging_dir fs f
  = match os.link fs0 input_folder staging_dir f with
    | Some fs' => (fs', false)
    | None => (fs0, true)
    end.
Proof. unfold stage_file. cbv zeta. by destruct (os.link _ _ _ _). Qed.

Lemma stage_file_other (input_folder staging_dir : string) (fs : FS) (f q : string) :
  q <> staging_dir -> (stage_file input_folder staging_dir fs f).1 !! q = fs !! q.
Proof.
  intros Hq. rewrite stage_file_eq. cbv zeta.
  assert ((if os.file_exists fs staging_dir f
           then os.remove fs staging_dir f else fs) !! q = fs !! q) as H0
    by (destruct (os.file_exists fs staging_dir f); [by apply remove_other | done]).
  destruct (os.link _ _ _ _) as [fs'|] eqn:E; cbn [fst]; [| done].
  by rewrite (link_other _ _ _ _ _ _ E Hq).
Qed.

Lemma stage_batch_other (input_folder staging_dir : string) (batch : list string)
    (q : string) :
  q <> staging_dir ->
  forall fs : FS, (stage_batch input_folder staging_dir fs batch).1 !! q = fs !! q.
Proof.
  intros Hq. induction batch as [|f batch IH]; intros fs; cbn [stage_batch]; [done |].
  destruct (stage_file input_folder staging_dir fs f).2.
  - by apply stage_file_other.
  - rewrite IH. by apply stage_file_other.
Qed.

Lemma unstage_file_other (staging_dir : string) (fs : FS) (f q : string) :
  q <> staging_dir -> unstage_file staging_dir fs f !! q = fs !! q.
Proof.
  intros Hq. unfold unstage_file.
  destruct (os.file_exists fs staging_dir f); [by apply remove_other | done].
Qed.

Lemma write_file_other (folder : string) (fs : FS) (e : DirEntry) (q : string) :
  q <> folder -> write_file folder fs e !! q = fs !! q.
Proof.
  intros Hq. unfold write_file. destruct (fs !! folder); [| done].
  by rewrite lookup_insert_ne.
Qed.

Lemma staged_for_other (input_folder : string) (missing_files : list string)
    (i : nat) (w : World) (q : string) :
  q <> STAGING_DIR ->
  disk (staged_for input_folder missing_files i w) !! q = disk w !! q.
Proof.
  intros Hq. unfold staged_for. cbn [disk with_disk].
  by rewrite stage_batch_other.
Qed.

Lemma returned_from_other (output_folder_local : string) (batch : list string)
    (r : Response) (returncode : Z) (w : World) (q : string) :
  q <> STAGING_DIR -> q <> output_folder_local ->
  disk (returned_from output_folder_local batch r returncode w) !! q = disk w !! q.
Proof.
  intros Hq1 Hq2. unfold returned_from.
  destruct (negb (returncode =? 0)%Z); cbn [disk with_disk with_state with_process log launched];
    (rewrite foldl_other; [| intros fs f; by apply unstage_file_other]);
    (rewrite foldl_other; [done | intros fs e; by apply write_file_other]).
Qed.

Lemma for_batches_other (esrgan : Esrgan) (input_folder output_folder_local : string)
    (missing_files : list string) (indices : list nat) (q : string) :
  q <> STAGING_DIR -> q <> output_folder_local ->
  forall w : World,
    disk (for_batches esrgan input_folder output_folder_local missing_files
            indices w) !! q
    = disk w !! q.
Proof.
  intros Hq1 Hq2. induction indices as [|i rest IH]; intros w; [done |].
  destruct (running w) eqn:Hrun; [| by rewrite for_batches_stopped].
  destruct (staging_raises input_folder missing_files i w) eqn:Hst.
  { rewrite for_batches_raised by done. by apply staged_for_other. }
  rewrite for_batches_cons by done. cbv zeta.
  destruct (outcome _).
  - cbn [disk with_state log launched]. by apply staged_for_other.
  - rewrite IH, returned_from_other by done. by apply staged_for_other.
Qed.

Lemma folder_turn_other (esrgan : Esrgan) (input_folder : string) (w : World)
    (q : string) :
  q <> STAGING_DIR -> q <> Py.replace input_folder "INPUT_AI" "UPSCALED" ->
  disk (folder_turn esrgan input_folder w).1 !! q = disk w !! q.
Proof.
  intros Hq1 Hq2. rewrite folder_turn_eq. cbv zeta.
  destruct (analysed_facts input_folder w) as (_ & _ & _ & Hd).
  destruct (length _ =? 0).
  - cbn [fst]. rewrite disk_log. by apply Hd.
  - fold (for_batches esrgan input_folder
            (Py.replace input_folder "INPUT_AI" "UPSCALED")
            (missing_for input_folder (analysed input_folder w))
            (Py.range (length (missing_for input_folder (analysed input_folder w)))
               BATCH_SIZE)
            (log (LogMissing
                    (length (missing_for input_folder (analysed input_folder w))))
               (analysed input_folder w))).
    rewrite for_batches_other by done. rewrite disk_log. by apply Hd.
Qed.

Lemma for_folders_other (esrgan : Esrgan) (dirs : list string) (q : string) :
  q <> STAGING_DIR ->
  (forall d, d ∈ dirs -> q <> Py.replace d "INPUT_AI" "UPSCALED") ->
  forall w : World, disk (for_folders esrgan dirs w) !! q = disk w !! q.
Proof.
  intros Hq1. induction dirs as [|input_folder rest IH]; intros Hq2 w; [done |].
  assert (q <> Py.replace input_folder "INPUT_AI" "UPSCALED") as Hout
    by (apply Hq2, list_elem_of_here).
  assert (forall w, disk (for_folders esrgan rest w) !! q = disk w !! q) as IH'
    by (apply IH; intros d Hd; apply Hq2; by apply list_elem_of_further).
  rewrite for_folders_cons.
  destruct (negb (running w)); [done |].
  destruct (negb (os.path_exists (disk w) input_folder)); [apply IH' |].
  cbv zeta. destruct (folder_turn esrgan input_folder w).2.
  - by apply folder_turn_other.
  - rewrite IH'. by apply folder_turn_other.
Qed.

Lemma run_other (esrgan : Esrgan) (w : World) (q : string) :
  q <> STAGING_DIR ->
  (forall d, d ∈ INPUT_DIRS -> q <> Py.replace d "INPUT_AI" "UPSCALED") ->
  disk (run_smart_upscaling esrgan w) !! q = disk w !! q.
Proof.
  intros Hq1 Hq2. rewrite run_disk.
  rewrite (for_folders_other esrgan INPUT_DIRS q Hq1 Hq2).
  by apply prepared_facts.
Qed.

(** X14. The run writes to the staging directory and to the local output
    folders of its input folders only (the external transform writing into
    the output directory it is given): every other directory is at the end
    of the run what it was at the start.  In particular no secondary
    location and no source folder is ever modified. *)
Theorem run_writes_only_staging_and_outputs (esrgan : Esrgan) (w : World) :
  (forall q, q <> STAGING_DIR ->
     (forall d, d ∈ INPUT_DIRS -> q <> Py.replace d "INPUT_AI" "UPSCALED") ->
     disk (run_smart_upscaling esrgan w) !! q = disk w !! q)
  /\ (forall local_output nas,
        _nas_output_for_local_output local_output = Some nas ->
        disk (run_smart_upscaling esrgan w) !! nas = disk w !! nas)
  /\ (forall d, d ∈ INPUT_DIRS ->
        disk (run_smart_upscaling esrgan w) !! d = disk w !! d).
Proof.
  split; [intros q; apply run_other |]. split.
  - intros local_output nas Hnas. unfold _nas_output_for_local_output in Hnas.
    cbn in Hnas. injection Hnas as <-.
    apply run_other; [discriminate |].
    intros d Hd. unfold INPUT_DIRS in Hd. rewrite !elem_of_cons in Hd.
    destruct Hd as [-> | [-> | [-> | Hd]]]; [| | | by apply elem_of_nil in Hd];
      discriminate.
  - intros d Hd. unfold INPUT_DIRS in Hd. rewrite !elem_of_cons in Hd.
    apply run_other.
    + destruct Hd as [-> | [-> | [-> | Hd]]]; [| | | by apply elem_of_nil in Hd];
        discriminate.
    + intros d' Hd'. unfold INPUT_DIRS in Hd'. rewrite !elem_of_cons in Hd'.
      destruct Hd as [-> | [-> | [-> | Hd]]]; [| | | by apply elem_of_nil in Hd];
        destruct Hd' as [-> | [-> | [-> | Hd']]]; try (by apply elem_of_nil in Hd');
        vm_compute; discriminate.
Qed.

Lemma run_writes_only_staging_and_outputs_witness :
  disk (run_smart_upscaling esrgan_first_exits_1 (world0 fs_example))
    !! "Z:/zanelli\OUTPUT_zanelli_2"
  = disk (world0 fs_example) !! "Z:/zanelli\OUTPUT_zanelli_2".
Proof.
  apply (proj1 (proj2 (run_writes_only_staging_and_outputs esrgan_first_exits_1
    (world0 fs_example))) "UPSCALED_zanelli_2").
  vm_compute. reflexivity.
Defined.

(** ** Launches and batches *)

Lemma tally_refl (w : World) : tally w (w, false).
Proof. split; [cbn [fst snd]; lia | done]. Qed.

Lemma tally_trans (w1 w2 : World) (ended : World * bool) :
  tally w1 (w2, false) -> tally w2 ended -> tally w1 ended.
Proof. intros [E1 F1] [E2 F2]. cbn [fst snd] in *. split; [lia | auto]. Qed.

(** A step that launches nothing and logs no batch. *)
Lemma tally_quiet (w w' : World) :
  launches w' = launches w ->
  logged_batches (journal w') = logged_batches (journal w) ->
  tally w (w', false).
Proof.
  intros E1 E2. split; cbn [fst snd]; [rewrite E1, E2; lia | by rewrite E2].
Qed.

Lemma range_go_bound (fuel i stop step : nat) (j : nat) :
  j ∈ Py.range_go fuel i stop step -> j < stop.
Proof.
  revert i. induction fuel as [|fuel IH]; intros i; simpl.
  - intros H. by apply elem_of_nil in H.
  - destruct (Nat.ltb_spec i stop) as [Hi | Hi].
    + intros [-> | H]%elem_of_cons; [done | eauto].
    + intros H. by apply elem_of_nil in H.
Qed.

Lemma slice_batch_ok (missing_files : list string) (i : nat) :
  i < length missing_files ->
  batch_ok (Py.slice missing_files i (i + BATCH_SIZE)).
Proof.
  intros Hi. unfold batch_ok. rewrite slice_length. unfold BATCH_SIZE. lia.
Qed.

Lemma staged_for_logged (input_folder : string) (missing_files : list string)
    (i : nat) (w : World) :
  logged_batches (journal (staged_for input_folder missing_files i w))
  = logged_batches (journal w) ++ [Py.slice missing_files i (i + BATCH_SIZE)].
Proof.
  unfold staged_for. cbv zeta.
  change (journal (with_disk ?fs ?w0)) with (journal w0).
  rewrite journal_with_state, journal_log, logged_batches_app. reflexivity.
Qed.

Lemma launches_launched (w : World) : launches (launched w) = S (launches w).
Proof. reflexivity. Qed.
Lemma journal_launched (w : World) : journal (launched w) = journal w.
Proof. reflexivity. Qed.

Lemma for_batches_tally (esrgan : Esrgan) (input_folder output_folder_local : string)
    (missing_files : list string) (indices : list nat) :
  (forall i, i ∈ indices -> i < length missing_files) ->
  forall w : World,
    tally w (for_batches_or_raise esrgan input_folder output_folder_local
               missing_files indices w).
Proof.
  induction indices as [|i rest IH]; intros Hidx w; [apply tally_refl |].
  destruct (running w) eqn:Hrun.
  2:{ rewrite for_batches_or_raise_stopped by done. apply tally_refl. }
  rewrite for_batches_or_raise_cons by done. cbv zeta.
  pose proof (proj1 (staged_for_facts input_folder missing_files i w)) as Hl1.
  pose proof (staged_for_logged input_folder missing_files i w) as Hj1.
  set (w1 := staged_for input_folder missing_files i w) in *. clearbody w1.
  pose proof (slice_batch_ok missing_files i (Hidx i (list_elem_of_here _ _))) as Hok.
  set (batch := Py.slice missing_files i (i + BATCH_SIZE)) in *. clearbody batch.
  assert (Forall batch_ok (logged_batches (journal w)) ->
          Forall batch_ok (logged_batches (journal w1))) as Hwf.
  { intros HF. rewrite Hj1. apply Forall_app. split; [done |].
    by apply Forall_singleton. }
  assert (forall w2 : World,
    launches w2 = S (launches w1) ->
    logged_batches (journal w2) = logged_batches (journal w1) ->
    tally w (w2, false)) as Hstep.
  { intros w2 E1 E2. split; cbn [fst snd].
    - rewrite E1, E2, Hl1, Hj1, List.length_app. simpl. lia.
    - by rewrite E2. }
  destruct (staging_raises input_folder missing_files i w).
  { split; cbn [fst snd]; [| done].
    rewrite Hl1, Hj1, List.length_app. simpl. lia. }
  destruct (outcome _).
  - apply Hstep.
    + by rewrite launches_with_state, launches_log, launches_launched.
    + rewrite journal_with_state, journal_log, journal_launched, logged_batches_app.
      simpl. apply app_nil_r.
  - eapply tally_trans; [| apply IH].
    + apply Hstep; [apply returned_from_facts | apply returned_from_logged].
    + intros j Hj. apply Hidx. by apply list_elem_of_further.
Qed.

Lemma folder_turn_tally (esrgan : Esrgan) (input_folder : string) (w : World) :
  tally w (folder_turn esrgan input_folder w).
Proof.
  rewrite folder_turn_eq. cbv zeta.
  destruct (analysed_facts input_folder w) as (Hl & _ & Hj & _).
  set (wa := analysed input_folder w) in *.
  assert (forall e, (forall fo nb tb b, e <> LogBatch fo nb tb b) ->
            tally w (log e wa, false)) as Hlog.
  { intros e He. apply tally_quiet; [done |].
    cbn [journal log]. rewrite logged_batches_app, Hj.
    destruct e; simpl; try apply app_nil_r.
    exfalso. exact (He folder batch_num total_batches batch eq_refl). }
  destruct (length (missing_for input_folder wa) =? 0).
  - apply Hlog. discriminate.
  - eapply tally_trans; [| apply for_batches_tally].
    + apply Hlog. discriminate.
    + intros i Hi. unfold Py.range in Hi. exact (range_go_bound _ _ _ _ _ Hi).
Qed.

Lemma for_folders_tally (esrgan : Esrgan) (dirs : list string) :
  forall w : World, tally w (for_folders_or_raise esrgan dirs w).
Proof.
  induction dirs as [|input_folder rest IH]; intros w; [apply tally_refl |].
  rewrite for_folders_or_raise_cons.
  destruct (negb (running w)); [apply tally_refl |].
  destruct (negb (os.path_exists (disk w) input_folder)); [apply IH |].
  cbv zeta. pose proof (folder_turn_tally esrgan input_folder w) as Ht.
  destruct (folder_turn esrgan input_folder w) as [w1 []]; cbn [fst snd]; [done |].
  eapply tally_trans; [exact Ht | apply IH].
Qed.

Lemma run_tally (esrgan : Esrgan) (w : World) :
  tally w (run_smart_upscaling_or_raise esrgan w).
Proof.
  destruct (prepared_facts w) as (Hl & Hj & _ & _).
  assert (tally w (prepared w, false)) as H1
    by (apply tally_quiet; [done | by rewrite Hj]).
  pose proof (tally_trans _ _ _ H1 (for_folders_tally esrgan INPUT_DIRS (prepared w)))
    as [E F].
  rewrite run_smart_upscaling_or_raise_eq. unfold for_folders.
  destruct (for_folders_or_raise esrgan INPUT_DIRS (prepared w)) as [w' []];
    cbn [fst snd] in *; split; cbn [fst snd].
  - exact E.
  - exact F.
  - rewrite launches_log, launches_with_state, journal_log, journal_with_state.
    rewrite logged_batches_app.
    change (logged_batches [LogFinished]) with (@nil (list string)).
    rewrite app_nil_r. exact E.
  - rewrite journal_log, journal_with_state, logged_batches_app.
    change (logged_batches [LogFinished]) with (@nil (list string)).
    rewrite app_nil_r. exact F.
Qed.

(** ** Staging and the transform *)

Lemma getsize_ext (fs1 fs2 : FS) (folder n : string) :
  fs1 !! folder = fs2 !! folder -> os.getsize fs1 folder n = os.getsize fs2 folder n.
Proof. intros H. unfold os.getsize, os.scandir. by rewrite H. Qed.

Lemma link_listing (fs : FS) (src_folder dst_folder n : string) (l : list DirEntry)
    (size : Z) :
  os.getsize fs src_folder n = Some size -> fs !! dst_folder = Some l ->
  os.link fs src_folder dst_folder n
  = Some (<[dst_folder := l ++ [file n size]]> fs).
Proof. intros Hs Hl. unfold os.link. by rewrite Hs, Hl. Qed.

Lemma file_exists_false (fs : FS) (folder f : string) (l : list DirEntry) :
  fs !! folder = Some l -> (forall e, e ∈ l -> is_Some (st_size e)) ->
  os.file_exists fs folder f = false -> forall e, e ∈ l -> name e <> f.
Proof.
  intros Hl Hst Hex e He Hn.
  unfold os.file_exists, os.getsize, os.scandir in Hex. rewrite Hl in Hex.
  destruct (List.find (os.has_name f) l) as [x|] eqn:Hf.
  - apply find_some in Hf as [Hx _]. apply list_elem_of_In in Hx.
    destruct (Hst x Hx) as [sz Hsz]. by rewrite Hsz in Hex.
  - apply list_elem_of_In in He. pose proof (find_none _ _ Hf e He) as Hh.
    unfold os.has_name in Hh. apply String.eqb_neq in Hh. done.
Qed.

(** Staging one file that can be read into a directory that is there
    does not raise: an entry for the file is there afterwards, entries of
    other names stay, and nothing else is added. *)
Lemma stage_file_listing (input_folder staging_dir : string) (fs : FS)
    (l : list DirEntry) (f : string) :
  input_folder <> staging_dir -> fs !! staging_dir = Some l ->
  is_Some (os.getsize fs input_folder f) ->
  exists l',
    (stage_file input_folder staging_dir fs f).2 = false
    /\ (stage_file input_folder staging_dir fs f).1 !! staging_dir = Some l'
    /\ (forall e, e ∈ l' -> e ∈ l \/ name e = f)
    /\ (exists e, e ∈ l' /\ name e = f)
    /\ (forall e, e ∈ l -> name e <> f -> e ∈ l')
    /\ ((forall e, e ∈ l -> is_Some (st_size e)) ->
        forall e, e ∈ l' -> is_Some (st_size e)).
Proof.
  intros Hne Hl [size Hsrc]. rewrite stage_file_eq. cbv zeta.
  destruct (os.file_exists fs staging_dir f) eqn:Hex.
  - rewrite (link_listing _ _ _ _ _ size
               ltac:(by rewrite (getsize_ext _ fs input_folder f)
                          by (by apply remove_other))
               (remove_listing fs staging_dir f l Hl)).
    cbn [fst snd]. rewrite lookup_insert_eq.
    eexists. split; [done |]. split; [done |]. split; [| split; [| split]].
    + intros e [He | He]%elem_of_app.
      * apply list_elem_of_In, filter_In in He as [He _]. left. by apply list_elem_of_In.
      * apply list_elem_of_singleton in He. right. by subst e.
    + eexists. split; [apply elem_of_app; right; apply list_elem_of_here | done].
    + intros e He Hn. apply elem_of_app. left.
      apply list_elem_of_In, filter_In. split; [by apply list_elem_of_In |].
      unfold os.has_name. apply negb_true_iff. by apply String.eqb_neq.
    + intros Hst e [He | He]%elem_of_app.
      * apply list_elem_of_In, filter_In in He as [He _]. by apply Hst, list_elem_of_In.
      * apply list_elem_of_singleton in He. by subst e.
  - rewrite (link_listing _ _ _ _ _ size Hsrc Hl).
    cbn [fst snd]. rewrite lookup_insert_eq.
    eexists. split; [done |]. split; [done |]. split; [| split; [| split]].
    + intros e [He | He]%elem_of_app; [by left |].
      apply list_elem_of_singleton in He. right. by subst e.
    + eexists. split; [apply elem_of_app; right; apply list_elem_of_here | done].
    + intros e He Hn. apply elem_of_app. by left.
    + intros Hst e [He | He]%elem_of_app; [by apply Hst |].
      apply list_elem_of_singleton in He. by subst e.
Qed.

(** Staging a batch of files that can be read does not raise, and leaves
    an entry for every file of the batch. *)
Lemma stage_batch_listing (input_folder staging_dir : string) (batch : list string) :
  input_folder <> staging_dir ->
  forall (fs : FS) (l : list DirEntry),
    fs !! staging_dir = Some l ->
    (forall f, f ∈ batch -> is_Some (os.getsize fs input_folder f)) ->
    exists l',
      (stage_batch input_folder staging_dir fs batch).2 = false
      /\ (stage_batch input_folder staging_dir fs batch).1 !! staging_dir = Some l'
      /\ (forall e, e ∈ l' -> e ∈ l \/ name e ∈ batch)
      /\ (forall f, f ∈ batch -> exists e, e ∈ l' /\ name e = f)
      /\ (forall e, e ∈ l -> name e ∉ batch -> e ∈ l')
      /\ ((forall e, e ∈ l -> is_Some (st_size e)) ->
          forall e, e ∈ l' -> is_Some (st_size e)).
Proof.
  intros Hne. induction batch as [|f batch IH]; intros fs l Hl Hsrc.
  - exists l. cbn [stage_batch fst snd]. split; [done |]. split; [done |].
    split; [by left |]. split; [| done]. intros f Hf. by apply elem_of_nil in Hf.
  - cbn [stage_batch].
    destruct (stage_file_listing input_folder staging_dir fs l f Hne Hl
                (Hsrc f (list_elem_of_here _ _)))
      as (l1 & Hok1 & Hl1 & Hfrom1 & (e1 & He1 & Hn1) & Hkeep1 & Hst1).
    rewrite Hok1.
    destruct (IH _ l1 Hl1) as (l' & Hok' & Hl' & Hfrom' & Hall' & Hkeep' & Hst').
    { intros f' Hf'.
      rewrite (getsize_ext _ fs input_folder f') by (by apply stage_file_other).
      apply Hsrc. by apply list_elem_of_further. }
    exists l'. split; [done |]. split; [done |]. split; [| split; [| split]].
    + intros e He. destruct (Hfrom' e He) as [H1 | H1].
      * destruct (Hfrom1 e H1) as [H0 | H0]; [by left |].
        right. rewrite H0. apply list_elem_of_here.
      * right. by apply list_elem_of_further.
    + intros f' [-> | Hf']%elem_of_cons; [| by apply Hall'].
      destruct (decide (f ∈ batch)) as [Hin | Hnin]; [by apply Hall' |].
      exists e1. split; [| done]. apply Hkeep'; [done |]. by rewrite Hn1.
    + intros e He Hn. apply not_elem_of_cons in Hn as [Hn1' Hn2].
      apply Hkeep'; [| done]. by apply Hkeep1.
    + intros Hst. by apply Hst', Hst1.
Qed.

Lemma unstage_files_listing (staging_dir : string) (batch : list string) :
  forall (fs : FS) (l : list DirEntry),
    fs !! staging_dir = Some l ->
    (forall e, e ∈ l -> is_Some (st_size e)) ->
    exists l',
      foldl (unstage_file staging_dir) fs batch !! staging_dir = Some l'
      /\ forall e, e ∈ l' -> e ∈ l /\ name e ∉ batch.
Proof.
  induction batch as [|f batch IH]; intros fs l Hl Hst.
  - exists l. split; [done |]. intros e He. split; [done | apply not_elem_of_nil].
  - cbn [foldl]. unfold unstage_file at 2.
    destruct (os.file_exists fs staging_dir f) eqn:Hex.
    + destruct (IH _ _ (remove_listing fs staging_dir f l Hl)) as (l' & Hl' & H').
      { intros e He. apply list_elem_of_In, filter_In in He as [He _].
        by apply Hst, list_elem_of_In. }
      exists l'. split; [done |]. intros e He. destruct (H' e He) as [H1 H2].
      apply list_elem_of_In, filter_In in H1 as [H1 Hn].
      split; [by apply list_elem_of_In |].
      apply not_elem_of_cons. split; [| done].
      unfold os.has_name in Hn. apply negb_true_iff in Hn.
      by apply String.eqb_neq in Hn.
    + destruct (IH _ _ Hl Hst) as (l' & Hl' & H').
      exists l'. split; [done |]. intros e He. destruct (H' e He) as [H1 H2].
      split; [done |]. apply not_elem_of_cons. split; [| done].
      by apply (file_exists_false fs staging_dir f l Hl Hst Hex).
Qed.

(** A loop whose steps keep a directory in place keeps it in place. *)
Lemma foldl_keeps {A} (step : FS -> A -> FS) (q : string) (xs : list A) :
  (forall fs x, is_Some (fs !! q) -> is_Some (step fs x !! q)) ->
  forall fs, is_Some (fs !! q) -> is_Some (foldl step fs xs !! q).
Proof.
  intros Hstep. induction xs as [|x xs IH]; intros fs H; simpl; [done |].
  by apply IH, Hstep.
Qed.

Lemma unstage_file_keeps (staging_dir : string) (fs : FS) (f q : string) :
  is_Some (fs !! q) -> is_Some (unstage_file staging_dir fs f !! q).
Proof.
  intros H. unfold unstage_file, os.remove.
  destruct (os.file_exists fs staging_dir f); [| done].
  destruct (fs !! staging_dir) as [l|] eqn:Hl; [| done].
  destruct (decide (q = staging_dir)) as [-> | Hq].
  - by rewrite lookup_insert_eq.
  - by rewrite lookup_insert_ne.
Qed.

Lemma write_file_keeps (folder : string) (fs : FS) (e : DirEntry) (q : string) :
  is_Some (fs !! q) -> is_Some (write_file folder fs e !! q).
Proof.
  intros H. unfold write_file.
  destruct (fs !! folder) as [l|] eqn:Hl; [| done].
  destruct (decide (q = folder)) as [-> | Hq].
  - by rewrite lookup_insert_eq.
  - by rewrite lookup_insert_ne.
Qed.

Lemma write_file_listing (folder : string) (fs : FS) (e : DirEntry)
    (l : list DirEntry) :
  fs !! folder = Some l ->
  write_file folder fs e !! folder
  = Some (List.filter (fun x => negb (os.has_name (name e) x)) l ++ [e]).
Proof. intros Hl. unfold write_file. by rewrite Hl, lookup_insert_eq. Qed.

Lemma has_finished_write (l : list DirEntry) (e : DirEntry) (f : string) :
  (exists size, st_size e = Some size /\ (MIN_VALID_FILE_SIZE <= size)%Z) ->
  has_finished l f \/ f = name e ->
  has_finished (List.filter (fun x => negb (os.has_name (name e) x)) l ++ [e]) f.
Proof.
  intros (sz & Hsz & Hle) Hf.
  destruct (decide (f = name e)) as [-> | Hne].
  - exists sz. split; [| done]. apply elem_of_app. right.
    destruct e as [n s]. cbn in *. subst s. apply list_elem_of_here.
  - destruct Hf as [(size & Hin & Hsize) | ?]; [| done].
    exists size. split; [| done]. apply elem_of_app. left.
    apply list_elem_of_In, filter_In. split; [by apply list_elem_of_In |].
    unfold os.has_name. cbn [name file]. apply negb_true_iff.
    by apply String.eqb_neq.
Qed.

Lemma write_files_listing (folder : string) (ws : list DirEntry) :
  forall (fs : FS) (l : list DirEntry),
    fs !! folder = Some l ->
    exists l',
      foldl (write_file folder) fs ws !! folder = Some l'
      /\ ((forall e, e ∈ ws ->
             exists size, st_size e = Some size /\ (MIN_VALID_FILE_SIZE <= size)%Z) ->
          (forall f, has_finished l f -> has_finished l' f)
          /\ (forall e, e ∈ ws -> has_finished l' (name e))).
Proof.
  induction ws as [|e ws IH]; intros fs l Hl.
  - exists l. split; [done |]. intros _. split; [done |].
    intros e He. by apply elem_of_nil in He.
  - cbn [foldl].
    destruct (IH _ _ (write_file_listing folder fs e l Hl)) as (l' & Hl' & H').
    exists l'. split; [done |]. intros Hok.
    destruct H' as [Hkeep Hnew].
    { intros x Hx. apply Hok. by apply list_elem_of_further. }
    pose proof (Hok e (list_elem_of_here _ _)) as He.
    split.
    + intros f Hf. apply Hkeep. apply has_finished_write; auto.
    + intros x [-> | Hx]%elem_of_cons; [| by apply Hnew].
      apply Hkeep. apply has_finished_write; auto.
Qed.

Lemma staged_for_disk (input_folder : string) (missing_files : list string)
    (i : nat) (w : World) :
  disk (staged_for input_folder missing_files i w)
  = (stage_batch input_folder STAGING_DIR (disk w)
       (Py.slice missing_files i (i + BATCH_SIZE))).1.
Proof. reflexivity. Qed.

Lemma returned_from_disk (output_folder_local : string) (batch : list string)
    (r : Response) (returncode : Z) (w : World) :
  disk (returned_from output_folder_local batch r returncode w)
  = foldl (unstage_file STAGING_DIR)
      (foldl (write_file output_folder_local) (disk w) (written r)) batch.
Proof. unfold returned_from. by destruct (negb (returncode =? 0)%Z). Qed.

(** The staging of a batch whose files can all be read: it does not
    raise, every file of the batch has an entry in the staging directory
    when the transform is launched, and the source folder is as it was. *)
Lemma batch_staged (input_folder : string) (missing_files : list string)
    (i : nat) (w : World) (l0 : list DirEntry) :
  input_folder <> STAGING_DIR ->
  disk w !! STAGING_DIR = Some l0 ->
  (forall f, f ∈ Py.slice missing_files i (i + BATCH_SIZE) ->
     is_Some (os.getsize (disk w) input_folder f)) ->
  let w1 := staged_for input_folder missing_files i w in
  staging_raises input_folder missing_files i w = false
  /\ (forall q, q <> STAGING_DIR -> disk w1 !! q = disk w !! q)
  /\ exists l1,
       disk w1 !! STAGING_DIR = Some l1
       /\ (forall f, f ∈ Py.slice missing_files i (i + BATCH_SIZE) ->
             exists e, e ∈ l1 /\ name e = f)
       /\ (forall e, e ∈ l1 ->
             e ∈ l0 \/ name e ∈ Py.slice missing_files i (i + BATCH_SIZE))
       /\ ((forall e, e ∈ l0 -> is_Some (st_size e)) ->
           forall e, e ∈ l1 -> is_Some (st_size e)).
Proof.
  intros Hin Hst Hsrc w1.
  destruct (stage_batch_listing input_folder STAGING_DIR
              (Py.slice missing_files i (i + BATCH_SIZE)) Hin (disk w) l0 Hst Hsrc)
    as (l1 & Hok & Hl1 & Hfrom & Hall & _ & Hstat).
  split; [exact Hok |]. split.
  - intros q Hq. by apply staged_for_other.
  - exists l1. subst w1. rewrite staged_for_disk. by repeat split.
Qed.

(** What a launch that returns leaves: the staging directory in place,
    empty again if the batch was staged into an empty directory; the
    source folder as it was; in the output folder what the transform
    wrote. *)
Lemma batch_returned (input_folder output_folder_local : string)
    (batch : list string) (w1 : World) (r : Response) (returncode : Z)
    (l1 lo : list DirEntry) :
  output_folder_local <> STAGING_DIR ->
  disk w1 !! STAGING_DIR = Some l1 ->
  disk w1 !! output_folder_local = Some lo ->
  let w2 := returned_from output_folder_local batch r returncode w1 in
  is_Some (disk w2 !! STAGING_DIR)
  /\ (forall q, q <> STAGING_DIR -> q <> output_folder_local ->
        disk w2 !! q = disk w1 !! q)
  /\ ((forall e, e ∈ l1 -> is_Some (st_size e) /\ name e ∈ batch) ->
      disk w2 !! STAGING_DIR = Some [])
  /\ exists lo',
       disk w2 !! output_folder_local = Some lo'
       /\ ((forall e, e ∈ written r ->
              exists size, st_size e = Some size /\ (MIN_VALID_FILE_SIZE <= size)%Z) ->
           (forall f, has_finished lo f -> has_finished lo' f)
           /\ (forall e, e ∈ written r -> has_finished lo' (name e))).
Proof.
  intros Hout Hl1 Hlo w2.
  assert (disk w2 = foldl (unstage_file STAGING_DIR)
            (foldl (write_file output_folder_local) (disk w1) (written r)) batch)
    as Hd2 by apply returned_from_disk.
  clearbody w2.
  set (fsw := foldl (write_file output_folder_local) (disk w1) (written r)) in *.
  assert (forall q, q <> output_folder_local -> fsw !! q = disk w1 !! q) as Hotherw.
  { intros q Hq. subst fsw. apply foldl_other. intros fs e. by apply write_file_other. }
  assert (forall q, q <> STAGING_DIR -> disk w2 !! q = fsw !! q) as Hother2.
  { intros q Hq. rewrite Hd2. apply foldl_other. intros fs f. by apply unstage_file_other. }
  assert (fsw !! STAGING_DIR = Some l1) as Hlw
    by (rewrite Hotherw; [done | by apply not_eq_sym]).
  split; [| split; [| split]].
  - rewrite Hd2. apply foldl_keeps; [| by rewrite Hlw].
    intros fs f. apply unstage_file_keeps.
  - intros q Hq1 Hq2. by rewrite Hother2, Hotherw.
  - intros Hl.
    destruct (unstage_files_listing STAGING_DIR batch fsw l1 Hlw) as (l2 & Hl2 & H2).
    { intros e He. by apply Hl. }
    rewrite Hd2, Hl2. f_equal. destruct l2 as [|e l2]; [done |].
    destruct (H2 e (list_elem_of_here _ _)) as [He Hn].
    by destruct (Hl e He).
  - destruct (write_files_listing output_folder_local (written r) (disk w1) lo Hlo)
      as (lo' & Hlo' & H').
    exists lo'. split; [| exact H']. by rewrite Hother2.
Qed.

Lemma slice_subset {A} (l : list A) (i j : nat) (x : A) :
  x ∈ Py.slice l i j -> x ∈ l.
Proof.
  unfold Py.slice. intros H. by apply subseteq_take, subseteq_drop in H.
Qed.

(** Every item of the list lies in the slice of one index of the range. *)
Lemma in_some_batch (missing_files : list string) (f : string) :
  f ∈ missing_files ->
  exists i, i ∈ Py.range (length missing_files) BATCH_SIZE /\
            f ∈ Py.slice missing_files i (i + BATCH_SIZE).
Proof.
  intros Hf.
  rewrite <- (batches_concat missing_files BATCH_SIZE) in Hf at 1
    by (unfold BATCH_SIZE; lia).
  apply list_elem_of_In, in_concat in Hf as (batch & Hb & Hin).
  unfold batches in Hb. apply in_map_iff in Hb as (i & <- & Hi).
  exists i. by rewrite !list_elem_of_In.
Qed.

(** The batch loop over source files that can be read never ends by an
    exception; it leaves the staging directory in place and the source
    folder as it was. *)
Lemma for_batches_no_raise (esrgan : Esrgan)
    (input_folder output_folder_local : string) (missing_files : list string) :
  input_folder <> STAGING_DIR -> input_folder <> output_folder_local ->
  forall (indices : list nat) (w : World),
    is_Some (disk w !! STAGING_DIR) ->
    (forall f, f ∈ missing_files -> is_Some (os.getsize (disk w) input_folder f)) ->
    (for_batches_or_raise esrgan input_folder output_folder_local missing_files
       indices w).2 = false
    /\ is_Some (disk (for_batches esrgan input_folder output_folder_local
                        missing_files indices w) !! STAGING_DIR)
    /\ disk (for_batches esrgan input_folder output_folder_local
               missing_files indices w) !! input_folder
       = disk w !! input_folder.
Proof.
  intros Hin Hio. unfold for_batches.
  induction indices as [|i rest IH]; intros w Hst Hsrc; [done |].
  destruct (running w) eqn:Hrun.
  2:{ by rewrite for_batches_or_raise_stopped. }
  destruct Hst as [l0 Hst].
  destruct (batch_staged input_folder missing_files i w l0 Hin Hst)
    as (Hok & Hother1 & l1 & Hl1 & _).
  { intros f Hf. apply Hsrc. by apply slice_subset in Hf. }
  rewrite for_batches_or_raise_staged by done. cbv zeta.
  set (w1 := staged_for input_folder missing_files i w) in *.
  destruct (outcome _) as [|returncode].
  - cbn [fst snd disk with_state log launched]. rewrite Hl1, Hother1 by done. eauto.
  - match goal with
    | |- context [returned_from ?o ?b ?r ?c w1] =>
        set (w2 := returned_from o b r c w1);
        assert (w2 = returned_from o b r c w1) as Hw2 by reflexivity
    end.
    assert (is_Some (disk w2 !! STAGING_DIR)) as Hst2.
    { rewrite Hw2, returned_from_disk. apply foldl_keeps.
      - intros fs f. apply unstage_file_keeps.
      - apply foldl_keeps; [intros fs e; apply write_file_keeps | by rewrite Hl1]. }
    assert (disk w2 !! input_folder = disk w !! input_folder) as Hin2.
    { rewrite Hw2, returned_from_disk.
      rewrite foldl_other by (intros fs f; by apply unstage_file_other).
      rewrite foldl_other by (intros fs e; by apply write_file_other).
      by apply Hother1. }
    destruct (IH w2 Hst2) as (H1 & H2 & H3).
    { intros f Hf. rewrite (getsize_ext _ (disk w) input_folder f) by done.
      by apply Hsrc. }
    split; [exact H1 |]. split; [exact H2 |]. by rewrite H3.
Qed.

(** The batch loop over source files that can be read: with launches
    that all return, the running flag is left as it was and a staging
    directory that was empty is empty again after every batch; with a
    transform that does its job every batch item ends up finished. *)
Lemma for_batches_returns (esrgan : Esrgan)
    (input_folder output_folder_local : string) (missing_files : list string) :
  input_folder <> STAGING_DIR -> output_folder_local <> STAGING_DIR ->
  input_folder <> output_folder_local ->
  forall (indices : list nat) (w : World) (lo : list DirEntry),
    is_Some (disk w !! STAGING_DIR) ->
    disk w !! output_folder_local = Some lo ->
    (forall f, f ∈ missing_files -> is_Some (os.getsize (disk w) input_folder f)) ->
    let w' := for_batches esrgan input_folder output_folder_local missing_files indices w in
    ((forall k staged, outcome (esrgan k staged) <> Raises) ->
     running w' = running w
     /\ (disk w !! STAGING_DIR = Some [] -> disk w' !! STAGING_DIR = Some []))
    /\ exists lo',
         disk w' !! output_folder_local = Some lo'
         /\ (does_its_job esrgan ->
             (forall f, has_finished lo f -> has_finished lo' f)
             /\ (running w = true ->
                 forall i f, i ∈ indices ->
                   f ∈ Py.slice missing_files i (i + BATCH_SIZE) ->
                   has_finished lo' f)).
Proof.
  intros Hin Hout Hio. induction indices as [|i rest IH]; intros w lo Hst Hlo Hsrc w'.
  - subst w'. cbn. split; [done |].
    exists lo. split; [done |]. intros _. split; [done |].
    intros _ i f Hi. by apply elem_of_nil in Hi.
  - destruct (running w) eqn:Hrun.
    2:{ subst w'. rewrite for_batches_stopped by done. split; [done |].
        exists lo. split; [done |]. intros _. split; [done | discriminate]. }
    destruct Hst as [l0 Hst].
    destruct (batch_staged input_folder missing_files i w l0 Hin Hst)
      as (Hok & Hother1 & l1 & Hl1 & Hstaged & Hfrom1 & Hstat1).
    { intros f Hf. apply Hsrc. by apply slice_subset in Hf. }
    subst w'. rewrite for_batches_cons by done. cbv zeta.
    set (w1 := staged_for input_folder missing_files i w) in *.
    assert (disk w1 !! output_folder_local = Some lo) as Hlo1
      by (by rewrite Hother1).
    set (r := esrgan (launches w1) (os.scandir (disk w1) STAGING_DIR)).
    destruct (outcome r) as [|returncode] eqn:Hout_r.
    { split; [intros Hok'; by apply Hok' in Hout_r |].
      exists lo. split; [exact Hlo1 |]. intros Hjob.
      destruct (Hjob (launches w1) (os.scandir (disk w1) STAGING_DIR))
        as ((code & Hcode) & _).
      fold r in Hcode. congruence. }
    destruct (batch_returned input_folder output_folder_local
                (Py.slice missing_files i (i + BATCH_SIZE)) w1 r returncode l1 lo
                Hout Hl1 Hlo1)
      as (Hst2 & Hother2 & Hempty2 & lo2 & Hlo2 & Hjob2).
    set (w2 := returned_from output_folder_local
                 (Py.slice missing_files i (i + BATCH_SIZE)) r returncode w1) in *.
    assert (running w2 = true) as Hrun2.
    { subst w2. rewrite (proj2 (returned_from_facts _ _ _ _ _)).
      subst w1. by rewrite (proj2 (staged_for_facts _ _ _ _)). }
    destruct (IH w2 lo2 Hst2 Hlo2) as (Hret' & lo' & Hlo' & Hjob').
    { intros f Hf. rewrite (getsize_ext _ (disk w) input_folder f); [by apply Hsrc |].
      rewrite Hother2, Hother1 by done. done. }
    split.
    + intros Hok'. destruct (Hret' Hok') as [Hrun' Hempty'].
      split; [by rewrite Hrun' |]. intros Hempty0. apply Hempty', Hempty2.
      assert (l0 = []) as -> by congruence.
      intros e He. destruct (Hfrom1 e He) as [H | H]; [by apply elem_of_nil in H |].
      split; [| done]. apply Hstat1; [| done].
      intros x Hx. by apply elem_of_nil in Hx.
    + exists lo'. split; [done |]. intros Hjob.
      destruct (Hjob (launches w1) (os.scandir (disk w1) STAGING_DIR))
        as (_ & Hcover & Hvalid).
      fold r in Hcover, Hvalid.
      destruct (Hjob2 Hvalid) as [Hkeep2 Hnew2].
      destruct (Hjob' Hjob) as [Hkeep' Hnew'].
      split; [auto |]. intros _ j f [-> | Hj]%elem_of_cons Hf.
      * apply Hkeep'. destruct (Hstaged f Hf) as (e & He & <-).
        destruct (Hcover e) as (size & Hw);
          [unfold os.scandir; by rewrite Hl1 |].
        apply (Hnew2 _ Hw).
      * by apply (Hnew' Hrun2 j).
Qed.

Lemma finished_is_valid (fs : FS) (p : string) (l : list DirEntry) (stem : string) :
  p <> "" -> fs !! p = Some l -> ordinary_stem stem ->
  has_finished l (stem +:+ ".png") ->
  stem +:+ ".png" ∈ get_valid_output_basenames fs (Some p).
Proof.
  intros Hp Hl (Hs1 & Hs2 & Hc) (size & Hin & Hsize).
  apply elem_of_valid_basenames. exists p, l, (file (stem +:+ ".png") size).
  repeat (split; [done |]). split.
  - split; [exists stem, ".png"; auto | by exists size].
  - unfold normalized. cbn [name file].
    by rewrite (splitext_accepted stem ".png" Hs1 Hs2 Hc (or_intror eq_refl)).
Qed.

(** X16. As long as no launch fails, the batch loop hands the staging
    directory back empty: whatever it staged for a batch it has removed
    again when the batch is over, and it never touches the source folder.
    (Source files are taken to be readable, the three directories to be
    distinct.) *)
Theorem batch_loop_leaves_staging_empty (esrgan : Esrgan)
    (input_folder output_folder_local : string) (missing_files : list string)
    (indices : list nat) (w : World) :
  input_folder <> STAGING_DIR -> output_folder_local <> STAGING_DIR ->
  input_folder <> output_folder_local ->
  (forall k staged, outcome (esrgan k staged) <> Raises) ->
  disk w !! STAGING_DIR = Some [] ->
  is_Some (disk w !! output_folder_local) ->
  (forall f, f ∈ missing_files -> is_Some (os.getsize (disk w) input_folder f)) ->
  let w' :=
    for_batches esrgan input_folder output_folder_local missing_files indices w in
  disk w' !! STAGING_DIR = Some []
  /\ disk w' !! input_folder = disk w !! input_folder
  /\ running w' = running w.
Proof.
  intros Hin Hout Hio Hok Hst [lo Hlo] Hsrc w'.
  assert (is_Some (disk w !! STAGING_DIR)) as Hex by (by rewrite Hst).
  destruct (for_batches_returns esrgan input_folder output_folder_local
              missing_files Hin Hout Hio indices w lo Hex Hlo Hsrc)
    as (Hret & _).
  destruct (Hret Hok) as [Hrun Hempty].
  destruct (for_batches_no_raise esrgan input_folder output_folder_local
              missing_files Hin Hio indices w Hex Hsrc) as (_ & _ & Hsame).
  split; [by apply Hempty |]. by split.
Qed.

Lemma esrgan_good_does_its_job : does_its_job esrgan_good.
Proof.
  intros k staged. unfold esrgan_good. cbn [outcome written].
  split; [by exists 0%Z |]. split.
  - intros e He. exists 60000%Z.
    apply list_elem_of_In, in_map_iff. exists e. by rewrite <- list_elem_of_In.
  - intros e He. apply list_elem_of_In, in_map_iff in He as (x & <- & _).
    exists 60000%Z. split; [done |]. unfold MIN_VALID_FILE_SIZE. lia.
Qed.

Lemma batch_loop_leaves_staging_empty_witness :
  disk (for_batches esrgan_first_exits_1 "INPUT_AI_zanelli_2" "UPSCALED_zanelli_2"
          ["a.png"] [0] world_ready) !! STAGING_DIR = Some [].
Proof.
  refine (proj1 (batch_loop_leaves_staging_empty esrgan_first_exits_1
    "INPUT_AI_zanelli_2" "UPSCALED_zanelli_2" ["a.png"] [0] world_ready
    _ _ _ _ _ _ _)).
  - vm_compute. discriminate.
  - vm_compute. discriminate.
  - discriminate.
  - intros k staged. unfold esrgan_first_exits_1. by destruct (k =? 0).
  - vm_compute. reflexivity.
  - vm_compute. eexists. reflexivity.
  - intros f Hf. apply list_elem_of_singleton in Hf as ->. vm_compute. eexists. reflexivity.
Defined.

(** X17. With a transform that does its job, the batch loop of a folder
    finishes every missing frame: afterwards the output folder holds, for
    every item of the missing list, a file of that name of at least the
    threshold size; files that were finished before still are; and a frame
    [stem.png] of the list is no longer reported missing.  The loop ends
    with the running flag still set.  (Source files are taken to be
    readable.) *)
Theorem batch_loop_finishes_every_frame (esrgan : Esrgan)
    (input_folder output_folder_local : string) (missing_files : list string)
    (w : World) (lo : list DirEntry) :
  does_its_job esrgan -> running w = true ->
  input_folder <> STAGING_DIR -> output_folder_local <> STAGING_DIR ->
  input_folder <> output_folder_local -> output_folder_local <> "" ->
  disk w !! STAGING_DIR = Some [] ->
  disk w !! output_folder_local = Some lo ->
  (forall f, f ∈ missing_files -> is_Some (os.getsize (disk w) input_folder f)) ->
  let w' :=
    for_batches esrgan input_folder output_folder_local missing_files
      (Py.range (length missing_files) BATCH_SIZE) w in
  (forall f, f ∈ missing_files ->
     has_finished (os.scandir (disk w') output_folder_local) f)
  /\ (forall f, has_finished lo f ->
        has_finished (os.scandir (disk w') output_folder_local) f)
  /\ (forall stem nas_folder cache,
        ordinary_stem stem -> stem +:+ ".png" ∈ missing_files ->
        stem +:+ ".png" ∉
          get_missing_frames (disk w') input_folder (Some output_folder_local)
            nas_folder cache)
  /\ running w' = true.
Proof.
  intros Hjob Hrun Hin Hout Hio Hne Hst Hlo Hsrc w'.
  assert (forall k staged, outcome (esrgan k staged) <> Raises) as Hok.
  { intros k staged. destruct (Hjob k staged) as ((code & ->) & _). discriminate. }
  assert (is_Some (disk w !! STAGING_DIR)) as Hex by (by rewrite Hst).
  destruct (for_batches_returns esrgan input_folder output_folder_local
              missing_files Hin Hout Hio
              (Py.range (length missing_files) BATCH_SIZE) w lo Hex Hlo Hsrc)
    as (Hret & lo' & Hlo' & H').
  destruct (Hret Hok) as [Hrun' _].
  fold w' in Hrun', Hlo'. destruct (H' Hjob) as [Hkeep Hnew].
  assert (os.scandir (disk w') output_folder_local = lo') as ->
    by (unfold os.scandir; by rewrite Hlo').
  assert (forall f, f ∈ missing_files -> has_finished lo' f) as Hall.
  { intros f Hf. destruct (in_some_batch missing_files f Hf) as (i & Hi & Hfi).
    by apply (Hnew Hrun i). }
  split; [exact Hall |]. split; [exact Hkeep |]. split; [| by rewrite Hrun'].
  intros stem nas_folder cache Hstem Hf.
  rewrite elem_of_missing_frames. intros [_ Hn]. apply Hn.
  unfold completed_set. apply elem_of_union. left.
  by apply (finished_is_valid (disk w') output_folder_local lo' stem Hne Hlo' Hstem), Hall.
Qed.

Lemma batch_loop_finishes_every_frame_witness :
  has_finished
    (os.scandir
       (disk (for_batches esrgan_good "INPUT_AI_zanelli_2" "UPSCALED_zanelli_2"
                ["a.png"] (Py.range (length ["a.png"]) BATCH_SIZE) world_ready))
       "UPSCALED_zanelli_2")
    "a.png".
Proof.
  refine (proj1 (batch_loop_finishes_every_frame esrgan_good
    "INPUT_AI_zanelli_2" "UPSCALED_zanelli_2" ["a.png"] world_ready []
    esrgan_good_does_its_job _ _ _ _ _ _ _ _) "a.png" _).
  - reflexivity.
  - vm_compute. discriminate.
  - vm_compute. discriminate.
  - discriminate.
  - discriminate.
  - vm_compute. reflexivity.
  - vm_compute. reflexivity.
  - intros f Hf. apply list_elem_of_singleton in Hf as ->. vm_compute. eexists. reflexivity.
  - apply list_elem_of_here.
Defined.

(** C6. The batch loop, while it is not stopped, no launch fails and the
    files of the batches can be staged, takes from the sorted missing list
    exactly the batches of its partition, in order: the batches have at
    most [BATCH_SIZE] items each and, put one after the other, are the
    missing list again; 1200 missing items give batches of 500, 500 and
    200 items. *)
Theorem batches_partition_missing (esrgan : Esrgan)
    (input_folder output_folder_local : string) (missing_files : list string)
    (w : World) :
  running w = true ->
  (forall k staged, outcome (esrgan k staged) <> Raises) ->
  input_folder <> STAGING_DIR -> input_folder <> output_folder_local ->
  is_Some (disk w !! STAGING_DIR) ->
  (forall f, f ∈ missing_files -> is_Some (os.getsize (disk w) input_folder f)) ->
  let w' :=
    for_batches esrgan input_folder output_folder_local missing_files
      (Py.range (length missing_files) BATCH_SIZE) w in
  logged_batches (journal w')
  = logged_batches (journal w) ++ batches BATCH_SIZE missing_files
  /\ concat (batches BATCH_SIZE missing_files) = missing_files
  /\ Forall (fun batch => (length batch <= BATCH_SIZE)%nat)
       (batches BATCH_SIZE missing_files)
  /\ (length missing_files = 1200%nat ->
      map length (batches BATCH_SIZE missing_files) = [500; 500; 200]%nat).
Proof.
  intros Hrun Hok Hin Hio Hst Hsrc w'. split.
  { apply for_batches_processes_batches; [done | done |].
    by apply for_batches_no_raise. }
  split; [apply batches_concat; unfold BATCH_SIZE; lia |].
  split; [apply batches_bounded |].
  intros H. rewrite batches_sizes, H. vm_compute. reflexivity.
Qed.

Lemma batches_partition_missing_witness :
  map length (batches BATCH_SIZE (replicate 1200 "a.png")) = [500; 500; 200]%nat.
Proof.
  refine (proj2 (proj2 (proj2
    (batches_partition_missing esrgan_good "INPUT_AI_zanelli_2"
       "UPSCALED_zanelli_2" (replicate 1200 "a.png") world_ready
       _ _ _ _ _ _))) _).
  - reflexivity.
  - intros k staged. discriminate.
  - vm_compute. discriminate.
  - discriminate.
  - vm_compute. eexists. reflexivity.
  - intros f Hf. apply elem_of_replicate in Hf as [-> _].
    vm_compute. eexists. reflexivity.
  - vm_compute. reflexivity.
Defined.

(** ** The folder loop and the whole run *)

Lemma analysed_state (input_folder : string) (w : World) :
  let output_folder_local := Py.replace input_folder "INPUT_AI" "UPSCALED" in
  let output_folder_nas := _nas_output_for_local_output output_folder_local in
  let wa := analysed input_folder w in
  is_Some (disk wa !! output_folder_local)
  /\ (forall lo, disk w !! output_folder_local = Some lo ->
                 disk wa !! output_folder_local = Some lo)
  /\ missing_for input_folder wa
     = get_missing_frames (disk wa) input_folder (Some output_folder_local)
         output_folder_nas
         (Some (if truthy output_folder_nas
                then get_valid_output_basenames (disk wa) output_folder_nas
                else ∅)).
Proof.
  cbv zeta. unfold missing_for, analysed, os.path_exists. cbv zeta.
  destruct (disk w !! Py.replace input_folder "INPUT_AI" "UPSCALED") as [lo|] eqn:Hlo;
    cbn [negb disk monitor_state log with_state with_disk set_nas_cache update_folder
         _output_folder_local _output_folder_nas _nas_cache_basenames].
  - rewrite Hlo. by repeat split.
  - unfold os.makedirs. rewrite lookup_insert_eq. repeat split; [done | done..].
Qed.

Lemma source_basenames_ext (fs1 fs2 : FS) (src_folder : string) :
  fs1 !! src_folder = fs2 !! src_folder ->
  source_basenames fs1 src_folder = source_basenames fs2 src_folder.
Proof.
  intros H. unfold source_basenames, os.listdir, os.scandir. by rewrite H.
Qed.

(** A listed name whose entries can all be stat-ed has a size. *)
Lemma listed_getsize (fs : FS) (folder f : string) :
  (forall e, e ∈ os.scandir fs folder -> is_Some (st_size e)) ->
  f ∈ os.listdir fs folder -> is_Some (os.getsize fs folder f).
Proof.
  intros Hstat Hf. unfold os.listdir in Hf.
  apply list_elem_of_In, in_map_iff in Hf as (e & <- & He).
  unfold os.getsize.
  destruct (List.find (os.has_name (name e)) (os.scandir fs folder)) as [e'|] eqn:Hfind.
  - apply find_some in Hfind as [He' _]. apply Hstat. by apply list_elem_of_In.
  - exfalso. apply (find_none _ _ Hfind) in He.
    unfold os.has_name in He. by rewrite String.eqb_refl in He.
Qed.

(** Valid basenames only grow while finished files stay finished. *)
Lemma valid_basenames_grow (fs1 fs2 : FS) (p : string) (l1 l2 : list DirEntry) :
  fs1 !! p = Some l1 -> fs2 !! p = Some l2 ->
  (forall f, has_finished l1 f -> has_finished l2 f) ->
  get_valid_output_basenames fs1 (Some p) ⊆ get_valid_output_basenames fs2 (Some p).
Proof.
  intros H1 H2 Hkeep b Hb.
  apply elem_of_valid_basenames in Hb as (p' & l & e & [= <-] & Hp & Hl & He & Hv & ->).
  rewrite H1 in Hl. injection Hl as <-.
  destruct Hv as [Hext (size & Hsize & Hmin)].
  destruct (Hkeep (name e)) as (size' & He' & Hmin').
  { exists size. split; [| done]. destruct e as [n s]. cbn in *. by subst s. }
  apply elem_of_valid_basenames. exists p, l2, (file (name e) size').
  repeat (split; [done |]). split; [| done].
  split; [done | by exists size'].
Qed.

Lemma nothing_left_ext (fs1 fs2 : FS) (input_folder : string) :
  let output_folder_local := Py.replace input_folder "INPUT_AI" "UPSCALED" in
  fs1 !! input_folder = fs2 !! input_folder ->
  fs1 !! output_folder_local = fs2 !! output_folder_local ->
  (forall p, _nas_output_for_local_output output_folder_local = Some p ->
             fs1 !! p = fs2 !! p) ->
  nothing_left fs1 input_folder -> nothing_left fs2 input_folder.
Proof.
  cbv zeta. intros Hin Hout Hnas H stem Hstem.
  rewrite <- (missing_frames_ext fs1 fs2); [by apply H | done | |].
  - apply valid_basenames_local. by intros p [= <-].
  - by apply valid_basenames_local.
Qed.

(** One turn of the folder loop over a source folder whose files can be
    read: it does not end by an exception; with launches that all return
    it leaves the running flag as it was and an empty staging directory
    empty; with a transform that does its job it leaves nothing of the
    folder missing. *)
Lemma folder_turn_returns (esrgan : Esrgan) (input_folder : string) (w : World) :
  apart input_folder ->
  is_Some (disk w !! STAGING_DIR) ->
  (forall e, e ∈ os.scandir (disk w) input_folder -> is_Some (st_size e)) ->
  (folder_turn esrgan input_folder w).2 = false
  /\ is_Some (disk (folder_turn esrgan input_folder w).1 !! STAGING_DIR)
  /\ ((forall k staged, outcome (esrgan k staged) <> Raises) ->
      running (folder_turn esrgan input_folder w).1 = running w
      /\ (disk w !! STAGING_DIR = Some [] ->
          disk (folder_turn esrgan input_folder w).1 !! STAGING_DIR = Some []))
  /\ (does_its_job esrgan -> running w = true ->
      nothing_left (disk (folder_turn esrgan input_folder w).1) input_folder).
Proof.
  intros (Hin & Hout & Hne & Hio & Hnas1 & Hnas2) Hst Hstat.
  set (out := Py.replace input_folder "INPUT_AI" "UPSCALED") in *.
  set (nas := _nas_output_for_local_output out) in *.
  destruct (analysed_facts input_folder w) as (_ & Hrun_a & _ & Hdisk_a).
  destruct (analysed_state input_folder w) as ([lo Hlo] & _ & Hmiss).
  fold out nas in Hdisk_a, Hlo, Hmiss.
  rewrite folder_turn_eq. cbv zeta. fold out.
  set (wa := analysed input_folder w) in *.
  assert (disk wa !! STAGING_DIR = disk w !! STAGING_DIR) as Hst_a
    by (apply Hdisk_a; by apply not_eq_sym).
  assert (disk wa !! input_folder = disk w !! input_folder) as Hin_a
    by (by apply Hdisk_a).
  set (cache := if truthy nas then get_valid_output_basenames (disk wa) nas else ∅) in *.
  assert (forall f, f ∈ missing_for input_folder wa ->
            is_Some (os.getsize (disk wa) input_folder f)) as Hsrc.
  { intros f Hf. rewrite (getsize_ext _ (disk w) input_folder f) by done.
    apply listed_getsize; [done |].
    rewrite Hmiss in Hf. apply elem_of_missing_frames in Hf as [Hf _].
    apply elem_of_source_basenames in Hf as [Hf _].
    unfold os.listdir, os.scandir in *. by rewrite <- Hin_a. }
  (* what is complete at analysis time stays complete *)
  assert (forall fs' lo',
            fs' !! out = Some lo' ->
            (forall f, has_finished lo f -> has_finished lo' f) ->
            (forall p, nas = Some p -> fs' !! p = disk wa !! p) ->
            forall f, f ∈ completed_set (disk wa) (Some out) nas (Some cache) ->
                      f ∈ completed_set fs' (Some out) nas None) as Hstay.
  { intros fs' lo' Hlo' Hkeep Hsame f Hf. unfold completed_set in *.
    apply elem_of_union in Hf as [Hf | Hf]; apply elem_of_union.
    - left. by apply (valid_basenames_grow (disk wa) fs' out lo lo').
    - right. subst cache. destruct (truthy nas); [| done].
      by rewrite (valid_basenames_local fs' (disk wa) nas). }
  destruct (length (missing_for input_folder wa) =? 0) eqn:Hlen.
  - cbn [fst snd]. rewrite !disk_log, Hst_a.
    split; [done |]. split; [done |]. split; [done |].
    intros _ _ stem Hstem Hmissing.
    apply elem_of_missing_frames in Hmissing as [Hs Hnc]. apply Hnc.
    apply (Hstay (disk wa) lo Hlo); [done | done |].
    destruct (decide (stem +:+ ".png" ∈
                completed_set (disk wa) (Some out) nas (Some cache))) as [|Hn]; [done |].
    exfalso.
    assert (stem +:+ ".png" ∈ missing_for input_folder wa) as Hm
      by (rewrite Hmiss; by apply elem_of_missing_frames).
    apply Nat.eqb_eq in Hlen. destruct (missing_for input_folder wa); [| done].
    by apply elem_of_nil in Hm.
  - set (wm := log (LogMissing (length (missing_for input_folder wa))) wa).
    assert (is_Some (disk wm !! STAGING_DIR)) as Hst_m
      by (subst wm; by rewrite disk_log, Hst_a).
    destruct (for_batches_no_raise esrgan input_folder out
                (missing_for input_folder wa) Hin Hio
                (Py.range (length (missing_for input_folder wa)) BATCH_SIZE)
                wm Hst_m Hsrc) as (Hnormal & Hst' & Hin').
    destruct (for_batches_returns esrgan input_folder out
                (missing_for input_folder wa) Hin Hout Hio
                (Py.range (length (missing_for input_folder wa)) BATCH_SIZE)
                wm lo Hst_m Hlo Hsrc)
      as (Hret & lo' & Hlo' & Hjob').
    change ((for_batches_or_raise esrgan input_folder out
               (missing_for input_folder wa)
               (Py.range (length (missing_for input_folder wa)) BATCH_SIZE) wm).1)
      with (for_batches esrgan input_folder out (missing_for input_folder wa)
              (Py.range (length (missing_for input_folder wa)) BATCH_SIZE) wm).
    split; [done |]. split; [done |]. split.
    { intros Hok. destruct (Hret Hok) as [Hrun' Hempty].
      split; [by rewrite Hrun' |]. intros H0. apply Hempty.
      subst wm. by rewrite disk_log, Hst_a. }
    intros Hjob Hrun stem Hstem Hmissing.
    destruct (Hjob' Hjob) as [Hkeep Hnew].
    apply elem_of_missing_frames in Hmissing as [Hs Hnc]. apply Hnc.
    destruct (decide (stem +:+ ".png" ∈
                completed_set (disk wa) (Some out) nas (Some cache))) as [Hc|Hn].
    + apply (Hstay _ lo' Hlo' Hkeep); [| done].
      intros p Hp. rewrite for_batches_other; [done | |]; intros ->; congruence.
    + assert (stem +:+ ".png" ∈ missing_for input_folder wa) as Hm.
      { rewrite Hmiss. apply elem_of_missing_frames. split; [| done].
        erewrite source_basenames_ext; [exact Hs |]. by rewrite Hin'. }
      destruct (in_some_batch _ _ Hm) as (i & Hi & Hfi).
      unfold completed_set. apply elem_of_union. left.
      apply (finished_is_valid _ out lo' stem Hne Hlo' Hstem).
      apply (Hnew (eq_trans Hrun_a Hrun) i); done.
Qed.

Lemma missing_frames_no_folder (fs : FS) (src_folder : string)
    (local_folder nas_folder : option string) (cache : option (gset string)) :
  fs !! src_folder = None ->
  get_missing_frames fs src_folder local_folder nas_folder cache = [].
Proof.
  intros H. unfold get_missing_frames, os.path_exists. by rewrite H.
Qed.

(** The folder loop over source folders whose files can be read. *)
Lemma for_folders_returns (esrgan : Esrgan) (all : list string) :
  separated all ->
  forall (dirs : list string) (w : World),
    dirs ⊆ all ->
    is_Some (disk w !! STAGING_DIR) ->
    (forall d e, d ∈ dirs -> e ∈ os.scandir (disk w) d -> is_Some (st_size e)) ->
    (for_folders_or_raise esrgan dirs w).2 = false
    /\ is_Some (disk (for_folders esrgan dirs w) !! STAGING_DIR)
    /\ ((forall k staged, outcome (esrgan k staged) <> Raises) ->
        running (for_folders esrgan dirs w) = running w
        /\ (disk w !! STAGING_DIR = Some [] ->
            disk (for_folders esrgan dirs w) !! STAGING_DIR = Some []))
    /\ (does_its_job esrgan -> running w = true ->
        forall d, d ∈ dirs -> nothing_left (disk (for_folders esrgan dirs w)) d).
Proof.
  intros Hsep.
  assert (forall d, d ∈ all -> apart d) as Hapart.
  { intros d Hd. unfold separated in Hsep. rewrite Forall_forall in Hsep.
    by destruct (Hsep d Hd). }
  assert (forall d d', d ∈ all -> d' ∈ all ->
            d <> Py.replace d' "INPUT_AI" "UPSCALED"
            /\ _nas_output_for_local_output (Py.replace d "INPUT_AI" "UPSCALED")
               <> Some (Py.replace d' "INPUT_AI" "UPSCALED")
            /\ (Py.replace d "INPUT_AI" "UPSCALED" = Py.replace d' "INPUT_AI" "UPSCALED"
                -> d = d')) as Hpair.
  { intros d d' Hd Hd'. unfold separated in Hsep. rewrite Forall_forall in Hsep.
    destruct (Hsep d Hd) as [_ H]. rewrite Forall_forall in H. by apply H. }
  clear Hsep. unfold for_folders.
  induction dirs as [|d rest IH]; intros w Hsub Hst Hstat.
  - cbn [for_folders_or_raise fst snd]. repeat (split; [done |]).
    intros _ _ d Hd. by apply elem_of_nil in Hd.
  - assert (d ∈ all) as Hd by (apply Hsub, list_elem_of_here).
    assert (rest ⊆ all) as Hrest
      by (intros x Hx; by apply Hsub, list_elem_of_further).
    destruct (Hapart d Hd) as (Hin & Hout & Hne & Hio & Hnas1 & Hnas2).
    rewrite for_folders_or_raise_cons.
    destruct (running w) eqn:Hrun; cbn [negb].
    2:{ cbn [fst snd]. repeat (split; [done |]). intros _ [=]. }
    (* what the rest of the loop leaves alone *)
    assert (forall w1 q, q <> STAGING_DIR ->
              (forall d', d' ∈ rest -> q <> Py.replace d' "INPUT_AI" "UPSCALED") ->
              disk (for_folders_or_raise esrgan rest w1).1 !! q = disk w1 !! q)
      as Hother
      by (intros w1 q Hq1 Hq2; by apply for_folders_other).
    assert (forall w1, d ∉ rest -> nothing_left (disk w1) d ->
              nothing_left (disk (for_folders_or_raise esrgan rest w1).1) d)
      as Hlater.
    { intros w1 Hnot Hleft. apply (nothing_left_ext (disk w1)); [| | | done].
      - symmetry. apply Hother; [done |]. intros d' Hd'.
        apply (Hpair d d'); [done | by apply Hrest].
      - symmetry. apply Hother; [done |]. intros d' Hd' Heq.
        apply Hnot. by rewrite (proj2 (proj2 (Hpair d d' Hd (Hrest _ Hd'))) Heq).
      - intros p Hp. symmetry. apply Hother.
        + intros ->. by apply Hnas1.
        + intros d' Hd' ->.
          by apply (proj1 (proj2 (Hpair d d' Hd (Hrest _ Hd')))). }
    destruct (os.path_exists (disk w) d) eqn:Hex; cbn [negb].
    + cbv zeta.
      destruct (folder_turn_returns esrgan d w (Hapart d Hd) Hst)
        as (Hnormal1 & Hst1 & Hret1 & Hleft1).
      { intros e. apply Hstat, list_elem_of_here. }
      pose proof (fun q => folder_turn_other esrgan d w q) as Hdisk1.
      rewrite Hnormal1.
      set (w1 := (folder_turn esrgan d w).1) in *.
      destruct (IH w1 Hrest Hst1) as (Hnormal' & Hst' & Hret' & Hleft').
      { intros d' e Hd' He. apply (Hstat d' e); [by apply list_elem_of_further |].
        unfold os.scandir in *. rewrite Hdisk1 in He; [done | |].
        - by destruct (Hapart d' (Hrest _ Hd')).
        - apply (Hpair d' d); [by apply Hrest | done]. }
      split; [done |]. split; [done |]. split.
      { intros Hok. destruct (Hret1 Hok) as [Hrun1 Hempty1].
        destruct (Hret' Hok) as [Hrun' Hempty'].
        split; [by rewrite Hrun', Hrun1 | auto]. }
      intros Hjob _ d0 Hd0.
      assert (forall k staged, outcome (esrgan k staged) <> Raises) as Hok.
      { intros k staged. destruct (Hjob k staged) as ((code & ->) & _).
        discriminate. }
      assert (running w1 = true) as Hrun_1 by (by rewrite (proj1 (Hret1 Hok))).
      destruct (decide (d0 ∈ rest)) as [Hr | Hr]; [by apply Hleft' |].
      apply elem_of_cons in Hd0 as [-> | Hd0]; [| done].
      apply Hlater; [done |]. by apply Hleft1.
    + destruct (IH w Hrest Hst) as (Hnormal' & Hst' & Hret' & Hleft').
      { intros d' e Hd'. apply Hstat. by apply list_elem_of_further. }
      split; [done |]. split; [done |]. split.
      { intros Hok. destruct (Hret' Hok) as [Hrun' Hempty'].
        split; [by rewrite Hrun' | done]. }
      intros Hjob _ d0 Hd0.
      destruct (decide (d0 ∈ rest)) as [Hr | Hr]; [by apply Hleft' |].
      apply elem_of_cons in Hd0 as [-> | Hd0]; [| done].
      apply Hlater; [done |]. intros stem _.
      rewrite missing_frames_no_folder; [apply not_elem_of_nil |].
      unfold os.path_exists in Hex. by destruct (disk w !! d).
Qed.

Lemma INPUT_DIRS_separated : separated INPUT_DIRS.
Proof.
  unfold separated, INPUT_DIRS, apart.
  repeat (constructor || split); vm_compute; congruence.
Qed.

(** The run starts its folder loop with the staging directory in place,
    and empty when everything in it could be removed. *)
Lemma prepared_staging (w : World) :
  is_Some (disk (prepared w) !! STAGING_DIR)
  /\ ((forall e, e ∈ os.scandir (disk w) STAGING_DIR -> is_Some (st_size e)) ->
      disk (prepared w) !! STAGING_DIR = Some []).
Proof.
  unfold prepared.
  pose proof (cleanup_staging_exists (disk w) STAGING_DIR) as Hex.
  pose proof (cleanup_staging_empty (disk w) STAGING_DIR) as Hempty.
  unfold os.path_exists, os.scandir in *.
  destruct (disk w !! STAGING_DIR) as [l|] eqn:Hl; cbn [negb disk with_disk].
  - destruct (cleanup_staging (disk w) STAGING_DIR !! STAGING_DIR) as [l'|];
      [| discriminate].
    split; [done |]. intros Hstat. by rewrite (Hempty Hstat).
  - unfold os.makedirs. by rewrite lookup_insert_eq.
Qed.

Lemma prepared_sources (w : World) (d : string) :
  d ∈ INPUT_DIRS -> os.scandir (disk (prepared w)) d = os.scandir (disk w) d.
Proof.
  intros Hd. unfold os.scandir.
  rewrite (proj2 (proj2 (proj2 (prepared_facts w)))); [done |].
  pose proof INPUT_DIRS_separated as Hsep. unfold separated in Hsep.
  rewrite Forall_forall in Hsep. by destruct (Hsep d Hd) as [(H & _) _].
Qed.

(** The folder loop of a run over source folders whose files can be
    read. *)
Lemma run_returns (esrgan : Esrgan) (w : World) :
  (forall d e, d ∈ INPUT_DIRS -> e ∈ os.scandir (disk w) d -> is_Some (st_size e)) ->
  (for_folders_or_raise esrgan INPUT_DIRS (prepared w)).2 = false
  /\ ((forall k staged, outcome (esrgan k staged) <> Raises) ->
      (forall e, e ∈ os.scandir (disk w) STAGING_DIR -> is_Some (st_size e)) ->
      disk (for_folders esrgan INPUT_DIRS (prepared w)) !! STAGING_DIR = Some [])
  /\ (does_its_job esrgan -> running w = true ->
      forall d, d ∈ INPUT_DIRS ->
        nothing_left (disk (for_folders esrgan INPUT_DIRS (prepared w))) d).
Proof.
  intros Hstat.
  destruct (prepared_staging w) as [Hst Hempty].
  destruct (for_folders_returns esrgan INPUT_DIRS INPUT_DIRS_separated INPUT_DIRS
              (prepared w)) as (Hnormal & _ & Hret & Hleft); [done | exact Hst | |].
  { intros d e Hd He. apply (Hstat d e Hd). by rewrite <- prepared_sources. }
  split; [exact Hnormal |]. split.
  - intros Hok Hstaging. apply (proj2 (Hret Hok)). exact (Hempty Hstaging).
  - intros Hjob Hrun. apply Hleft; [exact Hjob |].
    unfold running. rewrite (proj1 (proj2 (proj2 (prepared_facts w)))). exact Hrun.
Qed.


Lemma fs_example_readable (fs : FS) :
  (forall d, d ∈ INPUT_DIRS -> fs !! d = fs_example !! d) ->
  forall d e, d ∈ INPUT_DIRS -> e ∈ os.scandir fs d -> is_Some (st_size e).
Proof.
  intros Hfs d e Hd. unfold os.scandir. rewrite (Hfs d Hd). revert Hd.
  unfold INPUT_DIRS.
  intros [-> | [-> | [-> | []%elem_of_nil]%elem_of_cons]%elem_of_cons]%elem_of_cons;
    vm_compute; intros He;
    repeat (apply elem_of_cons in He as [-> | He]; [by eexists |]);
    by apply elem_of_nil in He.
Qed.


(** What cannot be removed from the staging directory before the run is
    still there after it. *)
Example stuck_leftover_survives_run :
  os.scandir (disk (run_smart_upscaling esrgan_good (world0 fs_leftovers)))
    STAGING_DIR
  = [ {| name := "y.png"; st_size := None |} ].
Proof. vm_compute. reflexivity. Qed.

(** X19. A run that is not interrupted, with a transform that does its
    job, completes every configured folder: afterwards a fresh analysis of
    any folder of [INPUT_DIRS] reports no frame [stem.png] missing, whether
    the frame was finished by this run, was already valid in the primary
    output folder, or was valid in the secondary location.  (Source files
    are taken to be readable.) *)
Theorem run_completes_every_folder (esrgan : Esrgan) (w : World) :
  does_its_job esrgan -> running w = true ->
  (forall d e, d ∈ INPUT_DIRS -> e ∈ os.scandir (disk w) d -> is_Some (st_size e)) ->
  forall input_folder, input_folder ∈ INPUT_DIRS ->
    nothing_left (disk (run_smart_upscaling esrgan w)) input_folder.
Proof.
  intros Hjob Hrun Hstat input_folder Hd.
  destruct (run_returns esrgan w Hstat) as (_ & _ & Hleft).
  rewrite run_disk. exact (Hleft Hjob Hrun input_folder Hd).
Qed.

Lemma run_completes_every_folder_witness :
  nothing_left (disk (run_smart_upscaling esrgan_good (world0 fs_example)))
    "INPUT_AI_zanelli_2".
Proof.
  refine (run_completes_every_folder esrgan_good (world0 fs_example)
            esrgan_good_does_its_job _ _ "INPUT_AI_zanelli_2" _).
  - reflexivity.
  - by apply fs_example_readable.
  - unfold INPUT_DIRS. apply list_elem_of_further, list_elem_of_further, list_elem_of_here.
Defined.

(** X15. Over a whole run the transform is launched exactly once for every
    batch that is logged as processed, with one exception: a batch whose
    staging raises is logged and the run ends there, by the exception,
    without a launch.  When the source files are readable no staging
    raises, and launches and logged batches agree.  Every batch logged has
    at least one item and at most [BATCH_SIZE]. *)
Theorem one_launch_per_batch (esrgan : Esrgan) (w : World) :
  launches (run_smart_upscaling esrgan w) + length (logged_batches (journal w))
  + (if (run_smart_upscaling_or_raise esrgan w).2 then 1 else 0)
  = launches w + length (logged_batches (journal (run_smart_upscaling esrgan w)))
  /\ (Forall batch_ok (logged_batches (journal w)) ->
      Forall batch_ok (logged_batches (journal (run_smart_upscaling esrgan w))))
  /\ ((forall d e, d ∈ INPUT_DIRS -> e ∈ os.scandir (disk w) d ->
         is_Some (st_size e)) ->
      (run_smart_upscaling_or_raise esrgan w).2 = false
      /\ launches (run_smart_upscaling esrgan w)
         + length (logged_batches (journal w))
         = launches w
           + length (logged_batches (journal (run_smart_upscaling esrgan w)))).
Proof.
  destruct (run_tally esrgan w) as [E F].
  split; [exact E |]. split; [exact F |].
  intros Hstat. destruct (run_returns esrgan w Hstat) as (Hnormal & _).
  assert ((run_smart_upscaling_or_raise esrgan w).2 = false) as Hn
    by (rewrite run_smart_upscaling_or_raise_eq, Hnormal; reflexivity).
  split; [exact Hn |]. rewrite Hn in E. unfold run_smart_upscaling. lia.
Qed.

Lemma one_launch_per_batch_witness :
  (run_smart_upscaling_or_raise esrgan_first_exits_1 (world0 fs_two_folders)).2
  = false.
Proof.
  refine (proj1 (proj2 (proj2 (one_launch_per_batch esrgan_first_exits_1
                                 (world0 fs_two_folders))) _)).
  intros d e Hd. cbn [disk world0]. revert Hd. unfold INPUT_DIRS.
  intros [-> | [-> | [-> | []%elem_of_nil]%elem_of_cons]%elem_of_cons]%elem_of_cons;
    intros He; vm_compute in He;
    repeat (apply elem_of_cons in He as [-> | He]; [by eexists |]);
    by apply elem_of_nil in He.
Defined.

(** A source file that cannot be read ends the run by an exception: its
    batch is logged, the transform is never launched, and the last lines
    of [run_smart_upscaling] are not reached. *)
Example unreadable_source_ends_run :
  let ended := run_smart_upscaling_or_raise esrgan_good (world0 fs_unreadable) in
  ended.2 = true
  /\ journal ended.1
     = [ LogAnalyzing "INPUT_AI_zanelli_2"; LogMissing 1;
         LogBatch "INPUT_AI_zanelli_2" 1 1 ["a.png"] ]
  /\ launches ended.1 = 0
  /\ running ended.1 = true.
Proof. repeat split; vm_compute; reflexivity. Qed.

(** ** Resuming *)

(** A cache just taken from the secondary location gives the missing list
    of a fresh read. *)
Lemma missing_frames_cache_fresh (fs : FS) (src_folder : string)
    (local_folder nas_folder : option string) :
  get_missing_frames fs src_folder local_folder nas_folder
    (Some (if truthy nas_folder then get_valid_output_basenames fs nas_folder else ∅))
  = get_missing_frames fs src_folder local_folder nas_folder None.
Proof.
  rewrite !get_missing_frames_eq. unfold completed_set. by destruct (truthy nas_folder).
Qed.

(** Creating the output folder adds no valid file anywhere. *)
Lemma analysed_valid (input_folder : string) (w : World) (folder : option string) :
  get_valid_output_basenames (disk (analysed input_folder w)) folder
  = get_valid_output_basenames (disk w) folder.
Proof.
  unfold analysed, os.path_exists. cbv zeta.
  destruct (disk w !! Py.replace input_folder "INPUT_AI" "UPSCALED") as [lo|] eqn:Hlo;
    cbn [negb disk log with_state with_disk]; [done |].
  destruct folder as [p|]; [| done].
  destruct (decide (p = Py.replace input_folder "INPUT_AI" "UPSCALED")) as [-> | Hp].
  - unfold get_valid_output_basenames, os.path_exists, os.scandir, os.makedirs.
    rewrite lookup_insert_eq, Hlo. cbn [negb foldl]. by rewrite !orb_true_r, ?orb_false_r;
      destruct (negb _).
  - apply valid_basenames_local. intros p' [= <-].
    unfold os.makedirs. by rewrite lookup_insert_ne.
Qed.

Lemma analysed_keeps (input_folder : string) (w : World) (q : string) (l : list DirEntry) :
  disk w !! q = Some l -> disk (analysed input_folder w) !! q = Some l.
Proof.
  intros Hq.
  destruct (decide (q = Py.replace input_folder "INPUT_AI" "UPSCALED")) as [-> | Hne].
  - by apply (analysed_state input_folder w).
  - by rewrite (proj2 (proj2 (proj2 (analysed_facts input_folder w)))).
Qed.

Lemma analysed_missing (input_folder : string) (w : World) (src_folder : string)
    (local_folder nas_folder : option string) (cache : option (gset string)) :
  src_folder <> Py.replace input_folder "INPUT_AI" "UPSCALED" ->
  get_missing_frames (disk (analysed input_folder w)) src_folder local_folder
    nas_folder cache
  = get_missing_frames (disk w) src_folder local_folder nas_folder cache.
Proof.
  intros Hne. apply missing_frames_ext; [| apply analysed_valid..].
  by apply analysed_facts.
Qed.

(** A folder with nothing missing is analysed and left. *)
Lemma folder_turn_idle (esrgan : Esrgan) (input_folder : string) (w : World) :
  input_folder <> Py.replace input_folder "INPUT_AI" "UPSCALED" ->
  get_missing_frames (disk w) input_folder
    (Some (Py.replace input_folder "INPUT_AI" "UPSCALED"))
    (_nas_output_for_local_output (Py.replace input_folder "INPUT_AI" "UPSCALED"))
    None = [] ->
  folder_turn esrgan input_folder w
  = (log LogFolderComplete (analysed input_folder w), false).
Proof.
  intros Hne H. unfold folder_turn. cbv zeta.
  destruct (analysed_state input_folder w) as (_ & _ & ->).
  by rewrite missing_frames_cache_fresh, analysed_missing, H.
Qed.

Lemma for_folders_idle (esrgan : Esrgan) (all : list string) :
  separated all ->
  forall (dirs : list string) (w : World),
    dirs ⊆ all ->
    (forall d, d ∈ dirs ->
       get_missing_frames (disk w) d
         (Some (Py.replace d "INPUT_AI" "UPSCALED"))
         (_nas_output_for_local_output (Py.replace d "INPUT_AI" "UPSCALED"))
         None = []) ->
    let w' := for_folders esrgan dirs w in
    launches w' = launches w
    /\ forall q l, disk w !! q = Some l -> disk w' !! q = Some l.
Proof.
  intros Hsep.
  assert (forall d d', d ∈ all -> d' ∈ all ->
            d <> Py.replace d' "INPUT_AI" "UPSCALED") as Hpair.
  { intros d d' Hd Hd'. unfold separated in Hsep. rewrite Forall_forall in Hsep.
    destruct (Hsep d Hd) as [_ H]. rewrite Forall_forall in H. by apply H. }
  clear Hsep.
  induction dirs as [|d rest IH]; intros w Hsub Hdone w'; [done |].
  assert (d ∈ all) as Hd by (apply Hsub, list_elem_of_here).
  assert (rest ⊆ all) as Hrest
    by (intros x Hx; by apply Hsub, list_elem_of_further).
  subst w'. rewrite for_folders_cons.
  destruct (negb (running w)); [done |].
  destruct (negb (os.path_exists (disk w) d)).
  - apply IH; [done |]. intros d' Hd'. by apply Hdone, list_elem_of_further.
  - rewrite folder_turn_idle; [| by apply Hpair | by apply Hdone, list_elem_of_here].
    cbv zeta. cbn [fst snd].
    destruct (IH (log LogFolderComplete (analysed d w)) Hrest) as [Hl Hk].
    { intros d' Hd'. rewrite disk_log, analysed_missing.
      - by apply Hdone, list_elem_of_further.
      - apply Hpair; [by apply Hrest | done]. }
    split.
    + rewrite Hl, launches_log. by apply analysed_facts.
    + intros q l Hq. apply Hk. rewrite disk_log. by apply analysed_keeps.
Qed.

Lemma prepared_missing (w : World) (d : string) :
  d ∈ INPUT_DIRS ->
  get_missing_frames (disk (prepared w)) d
    (Some (Py.replace d "INPUT_AI" "UPSCALED"))
    (_nas_output_for_local_output (Py.replace d "INPUT_AI" "UPSCALED")) None
  = get_missing_frames (disk w) d
      (Some (Py.replace d "INPUT_AI" "UPSCALED"))
      (_nas_output_for_local_output (Py.replace d "INPUT_AI" "UPSCALED")) None.
Proof.
  intros Hd.
  pose proof INPUT_DIRS_separated as Hsep. unfold separated in Hsep.
  rewrite Forall_forall in Hsep.
  destruct (Hsep d Hd) as [(H1 & H2 & _ & _ & H3 & _) _].
  destruct (prepared_facts w) as (_ & _ & _ & Hq).
  apply missing_frames_ext; [by apply Hq | |]; apply valid_basenames_local.
  - intros p [= <-]. by apply Hq.
  - intros p Hp. apply Hq. intros ->. by apply H3.
Qed.

(** X20. Resuming: when a fresh analysis finds nothing missing in any
    configured folder, a run launches the transform not once and leaves
    every directory it finds, the staging directory apart, as it is. *)
Theorem complete_run_launches_nothing (esrgan : Esrgan) (w : World) :
  (forall d, d ∈ INPUT_DIRS ->
     get_missing_frames (disk w) d
       (Some (Py.replace d "INPUT_AI" "UPSCALED"))
       (_nas_output_for_local_output (Py.replace d "INPUT_AI" "UPSCALED"))
       None = []) ->
  launches (run_smart_upscaling esrgan w) = launches w
  /\ forall q l, q <> STAGING_DIR -> disk w !! q = Some l ->
       disk (run_smart_upscaling esrgan w) !! q = Some l.
Proof.
  intros Hdone. rewrite run_launches, run_disk.
  destruct (for_folders_idle esrgan INPUT_DIRS INPUT_DIRS_separated INPUT_DIRS
              (prepared w)) as [Hl Hk]; [done | |].
  { intros d Hd. rewrite prepared_missing by done. by apply Hdone. }
  split; [rewrite Hl; by apply prepared_facts |].
  intros q l Hq Hql. apply Hk.
  by rewrite (proj2 (proj2 (proj2 (prepared_facts w)))).
Qed.

Lemma complete_run_launches_nothing_witness :
  launches (run_smart_upscaling esrgan_good (world0 fs_complete)) = 0.
Proof.
  refine (proj1 (complete_run_launches_nothing esrgan_good (world0 fs_complete) _)).
  unfold INPUT_DIRS.
  intros d [-> | [-> | [-> | []%elem_of_nil]%elem_of_cons]%elem_of_cons]%elem_of_cons;
    vm_compute; reflexivity.
Defined.

(** X21. Running twice: after a run that was not interrupted, with a
    transform that does its job, over source folders whose frames are all
    named [stem.png], a second run on the resulting file system launches
    the transform not once, whatever transform it is given.  (Source files
    are taken to be readable.) *)
Theorem rerun_launches_nothing (esrgan esrgan' : Esrgan) (w w2 : World) :
  does_its_job esrgan -> running w = true ->
  (forall d e, d ∈ INPUT_DIRS -> e ∈ os.scandir (disk w) d -> is_Some (st_size e)) ->
  (forall d f, d ∈ INPUT_DIRS -> f ∈ source_basenames (disk w) d ->
     exists stem, ordinary_stem stem /\ f = stem +:+ ".png") ->
  disk w2 = disk (run_smart_upscaling esrgan w) ->
  launches (run_smart_upscaling esrgan' w2) = launches w2.
Proof.
  intros Hjob Hrun Hstat Hnames Hdisk.
  pose proof INPUT_DIRS_separated as Hsep.
  destruct (run_returns esrgan w Hstat) as (_ & _ & Hleft).
  specialize (Hleft Hjob Hrun).
  rewrite run_disk in Hdisk. rewrite run_launches.
  destruct (for_folders_idle esrgan' INPUT_DIRS Hsep INPUT_DIRS (prepared w2))
    as [Hl _]; [done | | rewrite Hl; by apply prepared_facts].
  intros d Hd. rewrite prepared_missing, Hdisk by done.
  destruct (get_missing_frames _ d _ _ None) as [|f fs] eqn:Hm; [done |]. exfalso.
  assert (f ∈ get_missing_frames
                (disk (for_folders esrgan INPUT_DIRS (prepared w))) d
                (Some (Py.replace d "INPUT_AI" "UPSCALED"))
                (_nas_output_for_local_output (Py.replace d "INPUT_AI" "UPSCALED"))
                None) as Hf by (rewrite Hm; apply list_elem_of_here).
  pose proof Hf as Hf'. apply elem_of_missing_frames in Hf' as [Hs _].
  unfold separated in Hsep. rewrite Forall_forall in Hsep.
  destruct (Hsep d Hd) as [(H1 & _) Hp]. rewrite Forall_forall in Hp.
  rewrite (source_basenames_ext _ (disk w)) in Hs.
  - destruct (Hnames d f Hd Hs) as (stem & Hstem & ->).
    by apply (Hleft d Hd stem Hstem).
  - rewrite for_folders_other; [by apply prepared_facts | done |].
    intros d' Hd'. by apply Hp.
Qed.

Lemma rerun_launches_nothing_witness :
  launches
    (run_smart_upscaling esrgan_first_exits_1
       (with_state (set_running true)
          (run_smart_upscaling esrgan_good (world0 fs_example))))
  = launches
      (with_state (set_running true)
         (run_smart_upscaling esrgan_good (world0 fs_example))).
Proof.
  refine (rerun_launches_nothing esrgan_good esrgan_first_exits_1
            (world0 fs_example) _ esrgan_good_does_its_job _ _ _
            (disk_with_state _ _)).
  - reflexivity.
  - by apply fs_example_readable.
  - intros d f Hd Hf. apply elem_of_source_basenames in Hf as [Hf _].
    revert Hd Hf. unfold INPUT_DIRS.
    intros [-> | [-> | [-> | []%elem_of_nil]%elem_of_cons]%elem_of_cons]%elem_of_cons;
      intros Hf; vm_compute in Hf;
      repeat (apply elem_of_cons in Hf as [-> | Hf];
              [eexists (String _ EmptyString); split; [| reflexivity];
               repeat split; [compute_done | compute_done |];
               eexists; split; [apply list_elem_of_here | discriminate] |]);
      by apply elem_of_nil in Hf.
Defined.
